(** * ProjectQABot: the retrieval-and-grounding core, embedded in Rocq

    A shallow embedding of [core/chunking.py], [core/vectorstore.py],
    [core/retriever.py], [core/llm_backend.py], [core/prompts.py],
    [core/pipeline.py], the batching of [core/embeddings.py] and the
    question endpoint of [frontend/server.py], followed by the
    properties of the specification that concern them and by further
    properties of the code.

    Conventions of the embedding.

    - Text is a Rocq [string], a sequence of 8-bit characters.  The text
      primitives of Python ([str.lower], [str.strip], [str.split], the
      classes [\s], [\d], [\w] of [re]) are modelled on the ASCII range,
      where they agree with Python; a character above 127 is neither
      white space, nor a digit, nor a word character, and has no case.
      Literals of the program that contain other characters are kept
      UTF-8 encoded and are never inspected.
    - Python [int] is [Z]; lengths and positions are [nat].
    - A similarity score is a rational number [Q]: the program only
      compares scores and takes their maximum.
    - State is passed explicitly; an operation that may raise returns an
      [outcome].  The vector store returns, with its result, the lines it
      prints and the calls it makes to its collaborators; the progress
      lines of [chunk_pages] and [initialize] are left out. *)

From Stdlib Require Import List String Ascii ZArith QArith Lia Bool Arith.
From Stdlib Require Import DecimalString Permutation.
Import ListNotations.

Open Scope string_scope.
Open Scope list_scope.

(* ================================================================== *)
(** * Part I: the program                                              *)
(* ================================================================== *)

(** ** Python string primitives *)

Module PyStr.

Definition code (c : ascii) : nat := nat_of_ascii c.

Definition between (lo hi : nat) (c : ascii) : bool :=
  (lo <=? code c)%nat && (code c <=? hi)%nat.

(** [str.isspace] on ASCII: TAB, LF, VT, FF, CR, FS, GS, RS, US, SPACE. *)
Definition isspace (c : ascii) : bool := between 9 13 c || between 28 32 c.

Definition isdigit (c : ascii) : bool := between 48 57 c.
Definition isupper (c : ascii) : bool := between 65 90 c.
Definition islower (c : ascii) : bool := between 97 122 c.
Definition isalpha (c : ascii) : bool := isupper c || islower c.

(** The class [\w]: letters, digits and the underscore. *)
Definition isword (c : ascii) : bool :=
  isalpha c || isdigit c || (code c =? 95)%nat.

Definition lower_char (c : ascii) : ascii :=
  if isupper c then ascii_of_nat (code c + 32) else c.
Definition upper_char (c : ascii) : ascii :=
  if islower c then ascii_of_nat (code c - 32) else c.

Fixpoint map_chars (f : ascii -> ascii) (s : string) : string :=
  match s with
  | EmptyString => EmptyString
  | String c s' => String (f c) (map_chars f s')
  end.

(** [s.lower()] *)
Definition lower (s : string) : string := map_chars lower_char s.

(** [s.title()]: a letter is upper-cased when it follows a character
    that is not a letter, lower-cased otherwise. *)
Fixpoint title_from (prev_cased : bool) (s : string) : string :=
  match s with
  | EmptyString => EmptyString
  | String c s' =>
      String (if prev_cased then lower_char c else upper_char c)
             (title_from (isalpha c) s')
  end.
Definition title (s : string) : string := title_from false s.

(** Truth value of a string: [if s:] *)
Definition nonempty (s : string) : bool :=
  match s with EmptyString => false | String _ _ => true end.

(** [s.lstrip(chars)], [s.rstrip(chars)] with the set of characters
    given as a predicate. *)
Fixpoint lstrip_by (p : ascii -> bool) (s : string) : string :=
  match s with
  | EmptyString => EmptyString
  | String c s' => if p c then lstrip_by p s' else s
  end.

Fixpoint rstrip_by (p : ascii -> bool) (s : string) : string :=
  match s with
  | EmptyString => EmptyString
  | String c s' =>
      let r := rstrip_by p s' in
      if p c && negb (nonempty r) then EmptyString else String c r
  end.

(** [s.strip()] *)
Definition strip (s : string) : string :=
  lstrip_by isspace (rstrip_by isspace s).

Definition char_in (chars : string) (c : ascii) : bool :=
  existsb (Ascii.eqb c) (list_ascii_of_string chars).

(** [s.rstrip(chars)], [s.strip(chars)] *)
Definition rstrip_chars (chars s : string) : string :=
  rstrip_by (char_in chars) s.
Definition strip_chars (chars s : string) : string :=
  lstrip_by (char_in chars) (rstrip_by (char_in chars) s).

(** [s.split(sep)] for a separator of one character: never empty. *)
Fixpoint split_char (sep : ascii) (s : string) : list string :=
  match s with
  | EmptyString => [EmptyString]
  | String c s' =>
      if Ascii.eqb c sep then EmptyString :: split_char sep s'
      else match split_char sep s' with
           | h :: t => String c h :: t
           | [] => [String c EmptyString]
           end
  end.

(** The maximal runs of characters that are not separators:
    [fields_from s] is the run that starts at the head of [s] and the
    runs after it. *)
Fixpoint fields_from (sep : ascii -> bool) (s : string)
  : string * list string :=
  match s with
  | EmptyString => (EmptyString, [])
  | String c s' =>
      let '(w, ws) := fields_from sep s' in
      if sep c then (EmptyString, if nonempty w then w :: ws else ws)
      else (String c w, ws)
  end.
Definition fields (sep : ascii -> bool) (s : string) : list string :=
  let '(w, ws) := fields_from sep s in
  if nonempty w then w :: ws else ws.

(** [s.split()] *)
Definition split (s : string) : list string := fields isspace s.

(** [re.findall(r'\b\w+\b', s)]: the maximal runs of word characters. *)
Definition findall_words (s : string) : list string :=
  fields (fun c => negb (isword c)) s.

(** [sep.join(parts)] *)
Fixpoint join (sep : string) (parts : list string) : string :=
  match parts with
  | [] => EmptyString
  | [p] => p
  | p :: rest => (p ++ sep ++ join sep rest)%string
  end.

(** [s.startswith(p)] *)
Definition startswith (s p : string) : bool := String.prefix p s.

(** [needle in hay] *)
Fixpoint contains (needle hay : string) : bool :=
  String.prefix needle hay ||
  match hay with
  | EmptyString => false
  | String _ hay' => contains needle hay'
  end.

(** [s[:n]] and [s[n:]] for [n >= 0] *)
Definition take (n : nat) (s : string) : string := substring 0 n s.
Fixpoint drop (n : nat) (s : string) : string :=
  match n, s with
  | O, _ => s
  | S n', String _ s' => drop n' s'
  | S _, EmptyString => EmptyString
  end.

(** [str(n)] for an integer *)
Definition str_of_Z (n : Z) : string := NilZero.string_of_int (Z.to_int n).

(** The longest prefix whose characters satisfy [p], and the rest. *)
Fixpoint span (p : ascii -> bool) (s : string) : string * string :=
  match s with
  | EmptyString => (EmptyString, EmptyString)
  | String c s' =>
      if p c then let '(a, b) := span p s' in (String c a, b)
      else (EmptyString, s)
  end.

(** Membership in a list of strings: [s in {...}] *)
Definition mem (s : string) (l : list string) : bool :=
  existsb (String.eqb s) l.

(** [set(l)] as a list without repetition, and its operations. *)
Definition to_set (l : list string) : list string := nodup string_dec l.
Definition inter (a b : list string) : list string :=
  filter (fun w => mem w b) a.
Definition union (a b : list string) : list string :=
  a ++ filter (fun w => negb (mem w a)) b.
Definition diff (a b : list string) : list string :=
  filter (fun w => negb (mem w b)) a.

(** The double quote and the line feed, as strings. *)
Definition dq : string := String "034"%char EmptyString.
Definition nl : string := String "010"%char EmptyString.

End PyStr.
Import PyStr.

(** ** Outcomes of operations that may raise *)

Inductive exn : Type :=
| KeyError (key : string)
| TypeError
| DecodeError
| RuntimeError (msg : string)
| ValueError (msg : string)
| NotImplementedError (msg : string)
| AttributeError.

Inductive outcome (A : Type) : Type :=
| Returned (a : A)
| Raised (e : exn).
Arguments Returned {A} a.
Arguments Raised {A} e.

(** A printed line: a literal line, or a prefix followed by the text of an
    exception. *)
Inductive printed : Type :=
| Print (line : string)
| PrintExn (pfx : string) (e : exn).

(** ** core/chunking.py *)

Module Chunking.

(** [DocumentPage] of [core/ingestion.py] *)
Record DocumentPage : Type := {
  dp_doc_name : string;
  page_num : Z;
  dp_text : string;
  headings : list string
}.

Record Chunk : Type := {
  text : string;
  doc_name : string;
  page : Z;
  section : string;
  clause_number : string;
  heading_path : string;
  cross_references : list string;
  chunk_id : Z
}.

(** The section sign, UTF-8 encoded. *)
Definition sect : string := "§".

(** [Chunk.citation_string] *)
Definition citation_parts (c : Chunk) : list string :=
  let parts := [doc_name c] in
  let parts :=
    if nonempty (clause_number c)
    then parts ++ [(sect ++ clause_number c)%string] else parts in
  let parts :=
    if nonempty (section c)
    then parts ++ [("(" ++ section c ++ ")")%string]
    else if nonempty (heading_path c)
         then parts ++ [(dq ++ heading_path c ++ dq)%string]
         else parts in
  parts ++ [("p." ++ str_of_Z (page c))%string].

Definition citation_string (c : Chunk) : string :=
  join " " (citation_parts c).

(** *** Heading and section detection *)

(** The regular expressions of the module are matched by the scanners
    below.  Each is deterministic: in every pattern a greedy repetition
    is followed by a character that the repetition cannot consume, so
    the greedy match is the only candidate and no backtracking is lost. *)

(** A literal matched under [re.IGNORECASE]; [lit] is in lower case.
    Returns the text after the literal. *)
Fixpoint match_lit_ci (lit s : string) : option string :=
  match lit, s with
  | EmptyString, _ => Some s
  | String a lit', String c s' =>
      if Ascii.eqb (lower_char c) a then match_lit_ci lit' s' else None
  | String _ _, EmptyString => None
  end.

(** [\s+] *)
Definition match_ws1 (s : string) : option string :=
  match s with
  | String c s' => if isspace c then Some (lstrip_by isspace s') else None
  | EmptyString => None
  end.

(** After a digit of a clause number: how many more characters belong
    to [\d+(?:\.\d+)*].  [\d] is taken on ASCII text, where it is the
    digits 0 to 9; a decimal digit of another script, which [re] takes
    for a digit too, is none here. *)
Fixpoint clause_tail (s : string) : nat :=
  match s with
  | String c s' =>
      if isdigit c then S (clause_tail s')
      else if Ascii.eqb c "."%char then
        match s' with
        | String d s'' => if isdigit d then S (S (clause_tail s'')) else O
        | EmptyString => O
        end
      else O
  | EmptyString => O
  end.

(** The group [\d+(?:\.\d+)*]: the clause number and the text after it. *)
Definition match_clause (s : string) : option (string * string) :=
  match s with
  | String c s' =>
      if isdigit c
      then let n := S (clause_tail s') in Some (take n s, drop n s)
      else None
  | EmptyString => None
  end.

(** A clause number, a full stop and [\s+] (the rest of the line is free):
    the pattern without its optional prefix, returning group 1. *)
Definition numbered_body (s : string) : option string :=
  match match_clause s with
  | Some (clause, String dot r) =>
      if Ascii.eqb dot "."%char
      then match match_ws1 r with Some _ => Some clause | None => None end
      else None
  | _ => None
  end.

(** [NUMBERED_SECTION_RE.match(s)], returning group 1. *)
Definition NUMBERED_SECTION_RE (s : string) : option string :=
  let with_prefix :=
    match match_lit_ci "section" s with
    | Some r => match match_ws1 r with
                | Some r' => numbered_body r'
                | None => None
                end
    | None => None
    end in
  match with_prefix with
  | Some clause => Some clause
  | None => numbered_body s
  end.

(** The class [[A-Z\s\-&/]] *)
Definition allcaps_class (c : ascii) : bool :=
  isupper c || isspace c || char_in "-&/" c.

Fixpoint all_chars (p : ascii -> bool) (s : string) : bool :=
  match s with
  | EmptyString => true
  | String c s' => p c && all_chars p s'
  end.

(** [ALLCAPS_HEADING_RE.match(s)] as a truth value. *)
Definition ALLCAPS_HEADING_RE (s : string) : bool :=
  match s with
  | String c r => isupper c && (2 <=? length r)%nat && all_chars allcaps_class r
  | EmptyString => false
  end.

Definition SECTION_KEYWORDS : list string :=
  [ "definitions"; "exclusions"; "coverage"; "conditions"; "endorsements";
    "general conditions"; "special conditions"; "claims"; "how to claim";
    "what is covered"; "what is not covered"; "limits"; "excess";
    "policy schedule"; "insuring clause"; "preamble"; "declarations";
    "optional covers"; "additional benefits"; "extensions" ].

Definition _detect_section_label (line : string) : option string :=
  let stripped := strip line in
  if negb (nonempty stripped) then None
  else
    match NUMBERED_SECTION_RE stripped with
    | Some _ => Some (take 120 stripped)
    | None =>
        if ALLCAPS_HEADING_RE stripped && (3 <=? length stripped)%nat
        then Some (take 120 stripped)
        else
          let lower := rstrip_chars ":" (lower stripped) in
          if mem lower SECTION_KEYWORDS then Some (take 120 stripped)
          else None
    end.

(** Sequencing and alternation of scanners. *)
Definition opt_bind {A B : Type} (o : option A) (f : A -> option B)
  : option B :=
  match o with Some a => f a | None => None end.

Definition first_some {A : Type} (l : list (option A)) : option A :=
  fold_right (fun o acc => match o with Some a => Some a | None => acc end)
             None l.

(** One attempt of [CROSS_REF_RE] at the head of [s]: group 1 and the
    text after the match.  The alternatives of each group start with
    different letters, so one at most applies. *)
Definition cross_ref_at (s : string) : option (string * string) :=
  let intro :=
    first_some
      [ match_lit_ci "see" s;
        opt_bind (match_lit_ci "refer" s)
          (fun r => opt_bind (match_ws1 r) (match_lit_ci "to"));
        opt_bind (match_lit_ci "as" s)
          (fun r => opt_bind (match_ws1 r)
          (fun r => opt_bind (match_lit_ci "defined" r)
          (fun r => opt_bind (match_ws1 r) (match_lit_ci "in"))));
        match_lit_ci "under" s ] in
  opt_bind intro (fun r =>
  opt_bind (match_ws1 r) (fun r =>
  opt_bind (first_some [ match_lit_ci "section" r;
                         match_lit_ci "clause" r;
                         match_lit_ci "part" r ]) (fun r =>
  opt_bind (match_ws1 r) match_clause))).

(** [CROSS_REF_RE.finditer]: the matches from left to right, the search
    resuming where a match ended; [skip] counts the characters still
    inside the last match. *)
Fixpoint cross_ref_scan (skip : nat) (s : string) : list string :=
  match s with
  | EmptyString => []
  | String _ s' =>
      match skip with
      | S k => cross_ref_scan k s'
      | O =>
          match cross_ref_at s with
          | Some (target, rest) =>
              target :: cross_ref_scan (length s - length rest - 1) s'
          | None => cross_ref_scan 0 s'
          end
      end
  end.

Definition _find_cross_references (text : string) : list string :=
  cross_ref_scan 0 text.

Definition _estimate_tokens (text : string) : Z :=
  (Z.of_nat (length text) / 4)%Z.

(** *** Chunking logic *)

(** The dictionary [{"heading": .., "clause": .., "lines": ..}] *)
Record Sec : Type := {
  heading : string;
  clause : string;
  lines : list string
}.

Definition has_lines (sec : Sec) : bool :=
  match lines sec with [] => false | _ :: _ => true end.

(** The body of the loop over the lines of a page. *)
Definition split_step (st : list Sec * Sec) (line : string)
  : list Sec * Sec :=
  let '(sections, current_section) := st in
  let otherwise :=
    (sections,
     {| heading := heading current_section;
        clause := clause current_section;
        lines := lines current_section ++ [line] |}) in
  match _detect_section_label line with
  | Some heading =>
      if nonempty heading then
        let sections :=
          if has_lines current_section
          then sections ++ [current_section] else sections in
        let clause :=
          match NUMBERED_SECTION_RE (strip line) with
          | Some c => c
          | None => EmptyString
          end in
        (sections,
         {| heading := heading; clause := clause; lines := [line] |})
      else otherwise
  | None => otherwise
  end.

Definition _split_into_sections (text : string) : list Sec :=
  let lines := split_char "010"%char text in
  let '(sections, current_section) :=
    fold_left split_step lines
      ([], {| heading := ""; clause := ""; lines := [] |}) in
  if has_lines current_section
  then sections ++ [current_section] else sections.

(** [re.split(r"(?<=[.!?])\s+", text)].  For every suffix the scan
    yields the pieces when the suffix starts inside a piece, and the
    pieces when it starts inside a separator. *)
Definition is_end_mark (c : ascii) : bool := char_in ".!?" c.

Definition starts_with_space (s : string) : bool :=
  match s with String c _ => isspace c | EmptyString => false end.

Fixpoint sentence_scan (s : string)
  : (string * list string) * (string * list string) :=
  match s with
  | EmptyString => ((EmptyString, []), (EmptyString, []))
  | String c s' =>
      let '(p, q) := sentence_scan s' in
      let here :=
        if is_end_mark c && starts_with_space s'
        then (String c EmptyString, fst q :: snd q)
        else (String c (fst p), snd p) in
      (here, if isspace c then q else here)
  end.

Definition split_sentences (text : string) : list string :=
  let p := fst (sentence_scan text) in fst p :: snd p.

Definition sum_tokens (l : list string) : Z :=
  fold_left (fun acc s => (acc + _estimate_tokens s)%Z) l 0%Z.

(** The overlap loop: [rs] is [reversed(current_chunk)]. *)
Fixpoint overlap_loop (chunk_overlap : Z) (rs : list string)
    (overlap_tokens : Z) (overlap_sentences : list string) : list string :=
  match rs with
  | [] => overlap_sentences
  | s :: rs' =>
      let overlap_tokens := (overlap_tokens + _estimate_tokens s)%Z in
      if (overlap_tokens >=? chunk_overlap)%Z then overlap_sentences
      else overlap_loop chunk_overlap rs' overlap_tokens
             (s :: overlap_sentences)
  end.

Record SubChunkState : Type := {
  chunks : list string;
  current_chunk : list string;
  current_tokens : Z
}.

Definition is_nil {A : Type} (l : list A) : bool :=
  match l with [] => true | _ :: _ => false end.

(** The body of the loop over the sentences. *)
Definition sub_chunk_step (chunk_size chunk_overlap min_chunk_size : Z)
    (st : SubChunkState) (sentence : string) : SubChunkState :=
  let sent_tokens := _estimate_tokens sentence in
  let st :=
    if (current_tokens st + sent_tokens >? chunk_size)%Z
       && negb (is_nil (current_chunk st))
    then
      let chunk_text := join " " (current_chunk st) in
      let chunks :=
        if (_estimate_tokens chunk_text >=? min_chunk_size)%Z
        then chunks st ++ [chunk_text] else chunks st in
      let overlap_sentences :=
        overlap_loop chunk_overlap (rev (current_chunk st)) 0%Z [] in
      {| chunks := chunks;
         current_chunk := overlap_sentences;
         current_tokens := sum_tokens overlap_sentences |}
    else st in
  {| chunks := chunks st;
     current_chunk := current_chunk st ++ [sentence];
     current_tokens := (current_tokens st + sent_tokens)%Z |}.

(** [chunks[-1] += " " + chunk_text] *)
Definition append_to_last (chunks : list string) (chunk_text : string)
  : list string :=
  match rev chunks with
  | last :: before => rev before ++ [(last ++ " " ++ chunk_text)%string]
  | [] => []
  end.

(** The code after the loop. *)
Definition sub_chunk_finish (min_chunk_size : Z) (st : SubChunkState)
  : list string :=
  if negb (is_nil (current_chunk st)) then
    let chunk_text := join " " (current_chunk st) in
    if (_estimate_tokens chunk_text >=? min_chunk_size)%Z
       || is_nil (chunks st)
    then chunks st ++ [chunk_text]
    else if negb (is_nil (chunks st))
         then append_to_last (chunks st) chunk_text
         else chunks st
  else chunks st.

Definition _sub_chunk_text (text : string)
    (chunk_size chunk_overlap min_chunk_size : Z) : list string :=
  if (_estimate_tokens text <=? chunk_size)%Z then
    if (_estimate_tokens text >=? min_chunk_size)%Z then [text]
    else if nonempty (strip text) then [text] else []
  else
    let sentences := split_sentences text in
    sub_chunk_finish min_chunk_size
      (fold_left (sub_chunk_step chunk_size chunk_overlap min_chunk_size)
         sentences
         {| chunks := []; current_chunk := []; current_tokens := 0 |}).

(** The dictionary [heading_stack]: document name to list of headings. *)
Definition Dict : Type := list (string * list string).

Fixpoint dict_get (d : Dict) (k : string) : option (list string) :=
  match d with
  | [] => None
  | (k', v) :: d' => if String.eqb k k' then Some v else dict_get d' k
  end.

Fixpoint dict_set (d : Dict) (k : string) (v : list string) : Dict :=
  match d with
  | [] => [(k, v)]
  | (k', v') :: d' =>
      if String.eqb k k' then (k, v) :: d' else (k', v') :: dict_set d' k v
  end.

(** [heading_stack[doc_name]], the key being present. *)
Definition dict_at (d : Dict) (k : string) : list string :=
  match dict_get d k with Some v => v | None => [] end.

Record ChunkerState : Type := {
  all_chunks : list Chunk;
  next_chunk_id : Z;
  heading_stack : Dict
}.

Section ChunkPages.

(** The order in which Python iterates over the set
    [SECTION_KEYWORDS]; the language leaves it unspecified. *)
Variable keyword_order : list string.

Variables chunk_size chunk_overlap min_chunk_size : Z.

(** [len(clause.split(".")) if clause else 1] *)
Definition heading_depth (clause : string) : nat :=
  if nonempty clause then List.length (split_char "."%char clause) else 1%nat.

(** [while len(stack) >= depth: stack.pop()], then [stack.append]. *)
Definition push_heading (stack : list string) (depth : nat)
    (heading : string) : list string :=
  (if (depth <=? List.length stack)%nat
   then firstn (depth - 1) stack else stack) ++ [heading].

(** The loop over [SECTION_KEYWORDS] and the fallback after it. *)
Definition section_label_of (heading : string) : string :=
  let found :=
    find (fun kw => nonempty heading && contains kw (lower heading))
         keyword_order in
  let section_label :=
    match found with Some kw => title kw | None => EmptyString end in
  if negb (nonempty section_label) && nonempty heading
  then take 60 heading else section_label.

(** The loop over the sub-chunks of one section. *)
Definition emit_sub_chunks (doc_name : string) (page_num : Z)
    (section_label clause heading_path : string)
    (cross_refs : list string) (sub_chunks : list string)
    (all_chunks : list Chunk) (chunk_id : Z) : list Chunk * Z :=
  fold_left
    (fun (acc : list Chunk * Z) sub_text =>
       let '(all_chunks, chunk_id) := acc in
       (all_chunks ++
          [{| text := sub_text; doc_name := doc_name; page := page_num;
              section := section_label; clause_number := clause;
              heading_path := heading_path;
              cross_references := cross_refs;
              chunk_id := chunk_id |}],
        (chunk_id + 1)%Z))
    sub_chunks (all_chunks, chunk_id).

(** The text of a section: ["\n".join(sec["lines"]).strip()] *)
Definition section_text_of (sec : Sec) : string :=
  strip (join nl (lines sec)).

(** The body of the loop over the sections of a page. *)
Definition chunk_section (page : DocumentPage) (st : ChunkerState)
    (sec : Sec) : ChunkerState :=
  let doc_name := dp_doc_name page in
  let section_text := section_text_of sec in
  if negb (nonempty section_text) then st
  else
    let stacks :=
      if nonempty (heading sec)
      then dict_set (heading_stack st) doc_name
             (push_heading (dict_at (heading_stack st) doc_name)
                (heading_depth (clause sec)) (heading sec))
      else heading_stack st in
    let stack := dict_at stacks doc_name in
    let heading_path :=
      if is_nil stack then EmptyString else join " > " stack in
    let section_label := section_label_of (heading sec) in
    let cross_refs := _find_cross_references section_text in
    let sub_chunks :=
      _sub_chunk_text section_text chunk_size chunk_overlap
        min_chunk_size in
    let '(all_chunks, chunk_id) :=
      emit_sub_chunks doc_name (page_num page) section_label
        (clause sec) heading_path cross_refs sub_chunks
        (all_chunks st) (next_chunk_id st) in
    {| all_chunks := all_chunks;
       next_chunk_id := chunk_id;
       heading_stack := stacks |}.

(** The body of the loop over the pages. *)
Definition chunk_page (st : ChunkerState) (page : DocumentPage)
  : ChunkerState :=
  let doc_name := dp_doc_name page in
  let st :=
    match dict_get (heading_stack st) doc_name with
    | Some _ => st
    | None =>
        {| all_chunks := all_chunks st;
           next_chunk_id := next_chunk_id st;
           heading_stack := dict_set (heading_stack st) doc_name [] |}
    end in
  fold_left (chunk_section page) (_split_into_sections (dp_text page)) st.

Definition chunk_pages (pages : list DocumentPage) : list Chunk :=
  all_chunks
    (fold_left chunk_page pages
       {| all_chunks := []; next_chunk_id := 0; heading_stack := [] |}).

End ChunkPages.

End Chunking.
Import Chunking.

(** ** Observable effects *)

(** What an operation does besides returning: the lines it prints and the
    calls it makes to the embedding capability and to the search
    structure, in order. *)
Inductive event : Type :=
| Printed (p : printed)
| Encoded (texts : list string) (batch_size : Z)
| Searched (top_k : Z).

Definition Vec : Type := list Q.
Definition Scored : Type := (Chunk * Q)%type.

(** ** JSON values, as [json.load] returns them *)

Module Json.

#[local] Unset Elimination Schemes.
Inductive json : Type :=
| JNull
| JBool (b : bool)
| JInt (n : Z)
| JFloat (q : Q)
| JStr (s : string)
| JArr (items : list json)
| JObj (members : list (string * json)).
#[local] Set Elimination Schemes.

Fixpoint member (key : string) (members : list (string * json))
  : option json :=
  match members with
  | [] => None
  | (k, v) :: rest => if String.eqb key k then Some v else member key rest
  end.

(** [m[key]] *)
Definition subscript (m : json) (key : string) : outcome json :=
  match m with
  | JObj members =>
      match member key members with
      | Some v => Returned v
      | None => Raised (KeyError key)
      end
  | _ => Raised TypeError
  end.

(** [m.get(key, default)] on a dictionary *)
Definition get (members : list (string * json)) (key : string)
    (default : json) : json :=
  match member key members with Some v => v | None => default end.

(** The items that [enumerate(meta)] visits. *)
Definition iterate (meta : json) : outcome (list json) :=
  match meta with
  | JArr items => Returned items
  | JObj members => Returned (map (fun kv => JStr (fst kv)) members)
  | JStr s =>
      Returned (map (fun c => JStr (String c EmptyString))
                    (list_ascii_of_string s))
  | _ => Raised TypeError
  end.

End Json.
Import Json.

(** ** core/vectorstore.py *)

Module Vectorstore.

(** [faiss.IndexFlatIP]: a dimension and the vectors added to it. *)
Record FaissIndex : Type := {
  d : nat;
  xb : list Vec
}.
Definition ntotal (ix : FaissIndex) : nat := List.length (xb ix).

Record VectorStore : Type := {
  _index : option FaissIndex;
  _chunks : list Chunk;
  _is_loaded : bool
}.

(** [VectorStore.__init__] *)
Definition init : VectorStore :=
  {| _index := None; _chunks := []; _is_loaded := false |}.

(** The content of a file: what a reader gets back, or bytes that the
    reader rejects. *)
Inductive content (A : Type) : Type :=
| Valid (a : A)
| Corrupt.
Arguments Valid {A} a.
Arguments Corrupt {A}.

(** The two companion files of the index directory; [None] is a file
    that does not exist. *)
Record Files : Type := {
  index_faiss : option (content FaissIndex);
  chunks_json : option (content json)
}.

Definition no_files : Files :=
  {| index_faiss := None; chunks_json := None |}.

(** The result of a method: the store and the files after the call, what
    was observed meanwhile, and the value returned. *)
Record Effect (A : Type) : Type := {
  store_after : VectorStore;
  files_after : Files;
  trace : list event;
  value : A
}.
Arguments store_after {A} _.
Arguments files_after {A} _.
Arguments trace {A} _.
Arguments value {A} _.

(** The dictionary that [save] writes for a chunk. *)
Definition chunk_meta (c : Chunk) : json :=
  JObj [ ("text", JStr (text c));
         ("doc_name", JStr (doc_name c));
         ("page", JInt (page c));
         ("section", JStr (section c));
         ("clause_number", JStr (clause_number c));
         ("heading_path", JStr (heading_path c));
         ("cross_references", JArr (map JStr (cross_references c)));
         ("chunk_id", JInt (chunk_id c)) ].

(** The arguments that [load] passes to [Chunk] for the item [m] at
    position [i], before any typing. *)
Record RawChunk : Type := {
  raw_text : json;
  raw_doc_name : json;
  raw_page : json;
  raw_section : json;
  raw_clause_number : json;
  raw_heading_path : json;
  raw_cross_references : json;
  raw_chunk_id : json
}.

Definition raw_chunk (i : nat) (m : json) : outcome RawChunk :=
  match subscript m "text" with
  | Raised e => Raised e
  | Returned t =>
  match subscript m "doc_name" with
  | Raised e => Raised e
  | Returned dn =>
  match subscript m "page" with
  | Raised e => Raised e
  | Returned pg =>
  match m with
  | JObj members =>
      Returned
        {| raw_text := t; raw_doc_name := dn; raw_page := pg;
           raw_section := get members "section" (JStr "");
           raw_clause_number := get members "clause_number" (JStr "");
           raw_heading_path := get members "heading_path" (JStr "");
           raw_cross_references := get members "cross_references" (JArr []);
           raw_chunk_id := get members "chunk_id" (JInt (Z.of_nat i)) |}
  | _ => Raised TypeError
  end end end end.

(** [Chunk] does not check the types of its arguments.  The record
    [Chunk] of this development is typed, so a raw chunk has a typed
    reading only when every field holds a value of its declared type. *)
Fixpoint all_strings (items : list json) : option (list string) :=
  match items with
  | [] => Some []
  | JStr s :: rest =>
      match all_strings rest with
      | Some l => Some (s :: l)
      | None => None
      end
  | _ => None
  end.

Definition typed_chunk (r : RawChunk) : option Chunk :=
  match raw_text r, raw_doc_name r, raw_page r, raw_section r,
        raw_clause_number r, raw_heading_path r, raw_cross_references r,
        raw_chunk_id r with
  | JStr t, JStr dn, JInt pg, JStr sec, JStr cn, JStr hp, JArr refs,
    JInt id =>
      match all_strings refs with
      | Some refs =>
          Some {| text := t; doc_name := dn; page := pg; section := sec;
                  clause_number := cn; heading_path := hp;
                  cross_references := refs; chunk_id := id |}
      | None => None
      end
  | _, _, _, _, _, _, _, _ => None
  end.

(** The list comprehension of [load]: it raises at the first item that
    raises. *)
Fixpoint raw_chunks_from (i : nat) (items : list json)
  : outcome (list RawChunk) :=
  match items with
  | [] => Returned []
  | m :: rest =>
      match raw_chunk i m with
      | Raised e => Raised e
      | Returned r =>
          match raw_chunks_from (S i) rest with
          | Raised e => Raised e
          | Returned rs => Returned (r :: rs)
          end
      end
  end.

Fixpoint typed_chunks (rs : list RawChunk) : option (list Chunk) :=
  match rs with
  | [] => Some []
  | r :: rest =>
      match typed_chunk r, typed_chunks rest with
      | Some c, Some cs => Some (c :: cs)
      | _, _ => None
      end
  end.

Definition print (line : string) : event := Printed (Print line).
Definition str_of_nat (n : nat) : string := str_of_Z (Z.of_nat n).

Section Operations.

(** The embedding capability, [EmbeddingBackend.encode]: one vector
    per text. *)
Variable encode : list string -> Z -> list Vec.

(** [IndexFlatIP.search] for one query: the scores and the positions
    found, paired in rank order. *)
Variable faiss_search : FaissIndex -> Vec -> Z -> list (Q * Z).

(** [self._db_dir], as text. *)
Variable db_dir : string.

(** [VectorStore.build_index] *)
Definition build_index (st : VectorStore) (fs : Files)
    (chunks : list Chunk) (batch_size : Z) : Effect (outcome unit) :=
  if is_nil chunks then
    {| store_after := st; files_after := fs;
       trace := [print "[WARNING] No chunks to index."];
       value := Returned tt |}
  else
    let texts := map text chunks in
    let embeddings := encode texts batch_size in
    let dim := List.length (hd [] embeddings) in
    let index := {| d := dim; xb := embeddings |} in
    {| store_after :=
         {| _index := Some index; _chunks := chunks; _is_loaded := true |};
       files_after := fs;
       trace :=
         [ print ("  Embedding " ++ str_of_nat (List.length texts)
                  ++ " chunks (batch_size=" ++ str_of_Z batch_size
                  ++ ")...");
           Encoded texts batch_size;
           print ("  FAISS index built: " ++ str_of_nat (ntotal index)
                  ++ " vectors, dim=" ++ str_of_nat dim) ];
       value := Returned tt |}.

(** [VectorStore.save] *)
Definition save (st : VectorStore) (fs : Files) : Effect (outcome unit) :=
  match _index st with
  | None =>
      {| store_after := st; files_after := fs;
         trace := [print "[WARNING] No index to save."];
         value := Returned tt |}
  | Some index =>
      let meta := JArr (map chunk_meta (_chunks st)) in
      {| store_after := st;
         files_after :=
           {| index_faiss := Some (Valid index);
              chunks_json := Some (Valid meta) |};
         trace := [print ("  Index saved to " ++ db_dir)];
         value := Returned tt |}
  end.

(** [VectorStore.load].  The result is [None] when the metadata loads
    without error into chunks that have no typed reading. *)
Definition load_failed (st : VectorStore) (fs : Files) (e : exn)
  : option (Effect bool) :=
  Some {| store_after := st; files_after := fs;
          trace := [Printed (PrintExn "[WARNING] Failed to load index: " e)];
          value := false |}.

Definition load (st : VectorStore) (fs : Files) : option (Effect bool) :=
  match index_faiss fs, chunks_json fs with
  | Some index_file, Some meta_file =>
      match index_file with
      | Corrupt => load_failed st fs DecodeError
      | Valid index =>
          let st1 :=
            {| _index := Some index; _chunks := _chunks st;
               _is_loaded := _is_loaded st |} in
          match meta_file with
          | Corrupt => load_failed st1 fs DecodeError
          | Valid meta =>
              match iterate meta with
              | Raised e => load_failed st1 fs e
              | Returned items =>
                  match raw_chunks_from 0 items with
                  | Raised e => load_failed st1 fs e
                  | Returned raws =>
                      match typed_chunks raws with
                      | None => None
                      | Some chunks =>
                          Some
                            {| store_after :=
                                 {| _index := Some index;
                                    _chunks := chunks;
                                    _is_loaded := true |};
                               files_after := fs;
                               trace :=
                                 [ print
                                     ("  Loaded index: "
                                      ++ str_of_nat (ntotal index)
                                      ++ " vectors, "
                                      ++ str_of_nat (List.length chunks)
                                      ++ " chunks") ];
                               value := true |}
                      end
                  end
              end
          end
      end
  | _, _ =>
      Some {| store_after := st; files_after := fs; trace := [];
              value := false |}
  end.

(** The loop of [search] over the pairs that the structure returns. *)
Definition collect_results (chunks : list Chunk) (found : list (Q * Z))
  : list Scored :=
  flat_map
    (fun (si : Q * Z) =>
       let '(score, idx) := si in
       if (idx <? 0)%Z || (idx >=? Z.of_nat (List.length chunks))%Z
       then []
       else match nth_error chunks (Z.to_nat idx) with
            | Some c => [(c, score)]
            | None => []
            end)
    found.

(** [VectorStore.search] *)
Definition search (st : VectorStore) (fs : Files)
    (query_embedding : Vec) (top_k : Z) : Effect (outcome (list Scored)) :=
  match _index st, _is_loaded st with
  | Some index, true =>
      {| store_after := st; files_after := fs;
         trace := [Searched top_k];
         value :=
           Returned
             (collect_results (_chunks st)
                (faiss_search index query_embedding top_k)) |}
  | _, _ =>
      {| store_after := st; files_after := fs;
         trace := [print "[ERROR] Index not loaded."];
         value := Returned [] |}
  end.

(** [VectorStore.doc_names]: the distinct document names. *)
Definition doc_names (st : VectorStore) : list string :=
  to_set (map doc_name (_chunks st)).

End Operations.

End Vectorstore.
Import Vectorstore.

(** ** core/retriever.py *)

Module RetrieverM.

Record Retriever : Type := {
  _top_k : Z;
  _threshold : Q
}.

(** [set(text.lower().split())] *)
Definition word_set (text : string) : list string :=
  to_set (split (lower text)).

(** [Retriever._text_overlap].  The quotient of two lengths is an exact
    rational here; Python rounds it to a float, which does not change
    its comparison with [0.7] for sets of fewer than [2^49] words. *)
Definition _text_overlap (text_a text_b : string) : Q :=
  let words_a := word_set text_a in
  let words_b := word_set text_b in
  if is_nil words_a || is_nil words_b then 0
  else
    let intersection := inter words_a words_b in
    let union := union words_a words_b in
    Qmake (Z.of_nat (List.length intersection))
          (Pos.of_nat (List.length union)).

(** [x > y] and [x >= y] on scores *)
Definition Qgtb (x y : Q) : bool := negb (Qle_bool x y).
Definition Qgeb (x y : Q) : bool := Qle_bool y x.

(** The loop of [_deduplicate]. *)
Definition is_dup (chunk_text : string) (seen_texts : list string) : bool :=
  existsb (fun seen => Qgtb (_text_overlap chunk_text seen) (7 # 10))
          seen_texts.

Definition dedup_step (st : list Scored * list string) (r : Scored)
  : list Scored * list string :=
  let '(kept, seen_texts) := st in
  let '(chunk, score) := r in
  if negb (is_dup (text chunk) seen_texts)
  then (kept ++ [(chunk, score)], seen_texts ++ [text chunk])
  else (kept, seen_texts).

(** [Retriever._deduplicate] *)
Definition _deduplicate (results : list Scored) : list Scored :=
  if (List.length results <=? 1)%nat then results
  else fst (fold_left dedup_step results ([], [])).

Section Retrieve.

Variable encode : list string -> Z -> list Vec.
Variable faiss_search : FaissIndex -> Vec -> Z -> list (Q * Z).

(** [Retriever.retrieve]: the results and what was observed. *)
Definition retrieve (r : Retriever) (st : VectorStore) (fs : Files)
    (query : string) : list Scored * list event :=
  let query_emb := hd [] (encode [query] 1) in
  let found := search faiss_search st fs query_emb (_top_k r) in
  let results :=
    match value found with Returned l => l | Raised _ => [] end in
  let filtered :=
    filter (fun cs : Scored => Qgeb (snd cs) (_threshold r)) results in
  let deduped := _deduplicate filtered in
  (deduped, Encoded [query] 1 :: trace found).

End Retrieve.

(** The citations without repetition, in the order first seen. *)
Definition distinct_citations (results : list Scored) : list string :=
  fold_left
    (fun citations (cs : Scored) =>
       let cite := citation_string (fst cs) in
       if mem cite citations then citations else citations ++ [cite])
    results [].

(** [Retriever.format_citations] *)
Definition format_citations (results : list Scored) : string :=
  if is_nil results then EmptyString
  else ("Sources: " ++ join "; " (distinct_citations results))%string.

(** [Retriever.build_context] *)
Definition context_part (i : nat) (r : Scored) : string :=
  let chunk := fst r in
  let header := ("[Source " ++ str_of_nat i ++ ": " ++ doc_name chunk)%string in
  let header :=
    if nonempty (clause_number chunk)
    then (header ++ " ยง" ++ clause_number chunk)%string else header in
  let header :=
    if nonempty (section chunk)
    then (header ++ " (" ++ section chunk ++ ")")%string else header in
  let header := (header ++ ", p." ++ str_of_Z (page chunk) ++ "]")%string in
  (header ++ nl ++ text chunk)%string.

Fixpoint context_parts (i : nat) (results : list Scored) : list string :=
  match results with
  | [] => []
  | r :: rest => context_part i r :: context_parts (S i) rest
  end.

Definition build_context (results : list Scored) : string :=
  if is_nil results then EmptyString
  else join (nl ++ nl ++ "---" ++ nl ++ nl)%string (context_parts 1 results).

(** [max(score for _, score in results)] on a list that is not empty *)
Definition max_score (results : list Scored) : Q :=
  match results with
  | [] => 0
  | (_, s) :: rest =>
      fold_left (fun m (cs : Scored) => if Qgtb (snd cs) m then snd cs else m)
                rest s
  end.

(** [Retriever.get_best_score] *)
Definition get_best_score (results : list Scored) : Q :=
  if is_nil results then 0 else max_score results.

End RetrieverM.
Import RetrieverM.

(** ** core/llm_backend.py *)

Module LlmBackend.

(** The dictionary [{"answer": .., "follow_ups": ..}] *)
Record Generated : Type := {
  g_answer : string;
  g_follow_ups : list string
}.

(** The first position of [s] at which a line feed or the word
    [INSTRUCTIONS:] starts. *)
Fixpoint find_terminator (s : string) : option nat :=
  if String.prefix nl s || String.prefix "INSTRUCTIONS:" s then Some O
  else match s with
       | EmptyString => None
       | String _ s' => option_map S (find_terminator s')
       end.

(** The lazy group of one character at least that starts at position
    [k] of [r] and ends where a terminator starts. *)
Definition lazy_group (r : string) (k : nat) : option string :=
  match drop k r with
  | String _ rest =>
      match find_terminator rest with
      | Some j => Some (take (S j) (drop k r))
      | None => None
      end
  | EmptyString => None
  end.

(** The greedy white space before the group takes [k] characters, then
    [k - 1], down to none, until the rest of the pattern matches. *)
Fixpoint group_after_spaces (r : string) (k : nat) : option string :=
  match lazy_group r k with
  | Some g => Some g
  | None =>
      match k with
      | O => None
      | S k' => group_after_spaces r k'
      end
  end.

(** [re.search(r"QUESTION:\s*(.+?)(?:\n|INSTRUCTIONS:)", s, re.DOTALL)],
    returning group 1 of the leftmost match. *)
Fixpoint search_question (s : string) : option string :=
  let here :=
    if String.prefix "QUESTION:" s
    then let r := drop 9 s in
         group_after_spaces r (length (fst (span isspace r)))
    else None in
  match here with
  | Some g => Some g
  | None =>
      match s with
      | EmptyString => None
      | String _ s' => search_question s'
      end
  end.

(** [MockLLMBackend._extract_question] *)
Definition _extract_question (prompt : string) : string :=
  match search_question prompt with
  | Some g => strip g
  | None => strip (last (split_char "010"%char prompt) EmptyString)
  end.

Definition stop_words : list string :=
  [ "is"; "the"; "a"; "an"; "and"; "or"; "of"; "to"; "in"; "for";
    "on"; "with"; "by"; "at"; "from"; "as"; "it"; "that"; "this";
    "are"; "was"; "were"; "be"; "been"; "being"; "have"; "has";
    "had"; "do"; "does"; "did"; "will"; "would"; "could"; "should";
    "may"; "might"; "shall"; "can"; "what"; "how"; "which"; "who";
    "when"; "where"; "why"; "under"; "my"; "your"; "their"; "its";
    "there"; "here"; "about"; "than"; "then"; "also"; "just" ].

(** [MockLLMBackend._get_keywords] *)
Definition _get_keywords (text : string) : list string :=
  let words := to_set (findall_words (lower text)) in
  diff words stop_words.

(** [x or y or ""] on strings *)
Definition or_else (x y : string) : string :=
  if nonempty x then x else y.

(** [MockLLMBackend._extract_topic] *)
Definition _extract_topic (chunk : Chunk) (question_lower : string)
  : string :=
  let heading := or_else (heading_path chunk) (or_else (section chunk) "") in
  let parts := split_char ">"%char heading in
  if negb (is_nil parts) then
    let topic :=
      strip_chars "'" (strip_chars dq (strip (last parts EmptyString))) in
    let topic_lower := lower topic in
    if negb (contains topic_lower question_lower)
       && (2 <? length topic)%nat
    then topic else EmptyString
  else EmptyString.

(** [topic_templates]: the text before and after [{topic}]. *)
Definition topic_templates : list (string * (string * string)) :=
  [ ("exclusion", ("What specific exclusions apply to ", "?"));
    ("cover", ("What are the limits for ", " coverage?"));
    ("definition", ("How does the policy define '", "'?"));
    ("claim", ("How do I make a claim for ", "?"));
    ("condition", ("What conditions must be met for ", "?"));
    ("excess", ("What excess applies to ", "?"));
    ("limit", ("What are the coverage limits for ", "?"));
    ("waiting", ("Is there a waiting period for ", "?")) ].

Definition generic_follow_ups : list string :=
  [ "What items are excluded from coverage?";
    "What is the claims process?";
    "What are the policy's general conditions?";
    "How is the excess calculated?";
    "What additional optional covers are available?";
    "What are my obligations under this policy?" ].

(** The body of the loop over the chunks: the inner loop stops at the
    first template whose key occurs in the section and was not seen. *)
Definition topic_step (question_lower : string)
    (st : list string * list string) (chunk : Chunk)
  : list string * list string :=
  let '(follow_ups, seen_topics) := st in
  let section :=
    lower (or_else (section chunk) (or_else (heading_path chunk) "")) in
  match find (fun kt : string * (string * string) =>
                contains (fst kt) section
                && negb (mem (fst kt) seen_topics))
             topic_templates with
  | Some (topic_key, (before, after)) =>
      let topic := _extract_topic chunk question_lower in
      if nonempty topic && negb (mem topic seen_topics)
      then (follow_ups ++ [(before ++ topic ++ after)%string],
            seen_topics ++ [topic_key; topic])
      else st
  | None => st
  end.

(** The loop over the chunks, left as soon as three follow-ups exist. *)
Fixpoint topic_loop (question_lower : string) (context_chunks : list Scored)
    (st : list string * list string) : list string * list string :=
  match context_chunks with
  | [] => st
  | (chunk, _) :: rest =>
      let st := topic_step question_lower st chunk in
      if (3 <=? List.length (fst st))%nat then st
      else topic_loop question_lower rest st
  end.

(** The loop over the generic suggestions. *)
Definition generic_step (question_lower : string) (follow_ups : list string)
    (q : string) : list string :=
  if (3 <=? List.length follow_ups)%nat then follow_ups
  else
    let q_words := _get_keywords (lower q) in
    let question_words := _get_keywords question_lower in
    if (List.length (inter q_words question_words) <? 2)%nat
    then follow_ups ++ [q] else follow_ups.

(** [MockLLMBackend._generate_follow_ups] *)
Definition _generate_follow_ups (context_chunks : list Scored)
    (question_lower : string) : list string :=
  let '(follow_ups, _) := topic_loop question_lower context_chunks ([], []) in
  let follow_ups :=
    fold_left (generic_step question_lower) generic_follow_ups follow_ups in
  firstn 3 follow_ups.

Section Generate.

(** The two builders of the answer text, [_no_answer_response] and
    [_build_structured_answer]; the properties below concern the
    follow-ups only. *)
Variable _no_answer_response : list Scored -> string -> string.
Variable _build_structured_answer :
  string -> string -> list Scored -> string.

(** [MockLLMBackend.generate] *)
Definition generate (prompt : string) (context_chunks : list Scored)
  : Generated :=
  if is_nil context_chunks then
    {| g_answer :=
         _no_answer_response []
           "I couldn't find anything related to that in the loaded policy documents.";
       g_follow_ups :=
         [ "What does this policy cover?";
           "What are the general exclusions?";
           "How do I make a claim?" ] |}
  else
    let question := _extract_question prompt in
    let question_lower := lower question in
    let best_score := max_score context_chunks in
    if Qgtb (1 # 4) best_score then
      {| g_answer :=
           _no_answer_response context_chunks
             "I couldn't find a direct answer to that, but here are some related sections that might help.";
         g_follow_ups :=
           _generate_follow_ups context_chunks question_lower |}
    else
      let answer :=
        _build_structured_answer question question_lower context_chunks in
      let follow_ups :=
        _generate_follow_ups context_chunks question_lower in
      {| g_answer := answer; g_follow_ups := follow_ups |}.

End Generate.

(** The backends, and the factory [get_llm_backend]. *)
Inductive LLMBackend : Type :=
| MockLLMBackend
| TransformersBackend
| OpenAIBackend.

Definition backend_name (b : LLMBackend) : string :=
  match b with
  | MockLLMBackend => "mock"
  | TransformersBackend => "transformers"
  | OpenAIBackend => "openai"
  end.

Definition get_llm_backend (name : string) : outcome LLMBackend :=
  if String.eqb name "mock" then Returned MockLLMBackend
  else if String.eqb name "transformers" then Returned TransformersBackend
  else if String.eqb name "openai" then Returned OpenAIBackend
  else Raised (ValueError
                 ("Unknown LLM backend: " ++ name
                  ++ ". Available: ['mock', 'transformers', 'openai']")).

Section Backends.

Variable _no_answer_response : list Scored -> string -> string.
Variable _build_structured_answer :
  string -> string -> list Scored -> string.

(** The text that the local model of [TransformersBackend] decodes. *)
Variable transformers_answer : string -> string.

(** [LLMBackend.generate], by backend. *)
Definition backend_generate (b : LLMBackend) (prompt : string)
    (context_chunks : list Scored) : outcome Generated :=
  match b with
  | MockLLMBackend =>
      Returned (generate _no_answer_response _build_structured_answer
                  prompt context_chunks)
  | TransformersBackend =>
      Returned
        {| g_answer :=
             (transformers_answer prompt ++ nl ++ nl
              ++ format_citations context_chunks)%string;
           g_follow_ups := [] |}
  | OpenAIBackend =>
      Raised (NotImplementedError
                "OpenAI backend requires an API key. Set OPENAI_API_KEY environment variable and install the 'openai' package. This stub demonstrates the pluggable architecture.")
  end.

End Backends.

End LlmBackend.
Import LlmBackend.

(** ** core/prompts.py *)

Module Prompts.

Definition SYSTEM_PROMPT : string :=
  "You are a Policy Q&A Assistant. Your role is to answer questions about insurance policy documents accurately and precisely.
" ++ "
STRICT RULES:
1. Answer ONLY based on the provided context from policy documents.
2. NEVER make up information or use outside knowledge.
3. Always cite the specific source (document name, section, clause number, page) for every claim.
4. If the context does not contain enough information to answer the question definitively, you MUST respond with: " ++ dq ++ "I cannot find a definitive answer in the provided policy wording." ++ dq ++ "
5. If the context contains conflicting information, explain the ambiguity and cite both sources.
6. Be concise but thorough — include all relevant details from the context.
7. Use the exact terminology from the policy documents.
".

(** [build_qa_prompt]: the template [QA_PROMPT_TEMPLATE] filled in. *)
Definition build_qa_prompt (question context : string) : string :=
  SYSTEM_PROMPT ++ "

CONTEXT FROM POLICY DOCUMENTS:
" ++ context ++ "

QUESTION: " ++ question ++ "

INSTRUCTIONS:
- Answer the question based ONLY on the context above.
- Quote relevant policy language where helpful.
- If multiple sources are relevant, synthesize the information.
- If the context does not adequately address the question, say " ++ dq ++ "I cannot find a definitive answer in the provided policy wording." ++ dq ++ " and list the closest related clauses you found.
- End your answer with a blank line followed by the citations.

ANSWER:".

End Prompts.
Import Prompts.

(** ** config.py *)

Module Config.
Definition EMBEDDING_BATCH_SIZE : Z := 16.
Definition CHUNK_SIZE : Z := 500.
Definition CHUNK_OVERLAP : Z := 100.
Definition MIN_CHUNK_SIZE : Z := 80.
Definition TOP_K : Z := 5.
Definition SIMILARITY_THRESHOLD : Q := 25 # 100.
Definition LLM_BACKEND : string := "mock".
End Config.
Import Config.

(** ** core/pipeline.py *)

Module Pipeline.

Record SourceDetail : Type := {
  sd_doc_name : string;
  sd_section : string;
  sd_clause : string;
  sd_page : Z;
  sd_heading_path : string;
  sd_score : Q;
  sd_snippet : string
}.

(** The dictionary that [ask] returns. *)
Record Payload : Type := {
  question : string;
  answer : string;
  citations : string;
  sources : list SourceDetail;
  confidence : Q;
  follow_ups : list string
}.

Record PolicyQAPipeline : Type := {
  _llm_backend_name : string;
  _vector_store : option VectorStore;
  _retriever : option Retriever;
  _llm : option LLMBackend;
  _is_initialized : bool;
  _doc_count : nat;
  _chunk_count : nat
}.

(** [PolicyQAPipeline.__init__] *)
Definition new_pipeline (llm_backend_name : string) : PolicyQAPipeline :=
  {| _llm_backend_name :=
       if nonempty llm_backend_name then llm_backend_name else LLM_BACKEND;
     _vector_store := None; _retriever := None; _llm := None;
     _is_initialized := false; _doc_count := 0; _chunk_count := 0 |}.

Definition _GREETING_PATTERNS : list string :=
  [ "hi"; "hello"; "hey"; "good morning"; "good afternoon"; "good evening";
    "howdy"; "hola"; "sup"; "yo"; "hii"; "hiii"; "hihi" ].
Definition _IDENTITY_PATTERNS : list string :=
  [ "who are you"; "who are u"; "what are you"; "what are u";
    "what is this"; "what do you do"; "introduce yourself";
    "what can you do"; "what can u do" ].
Definition _THANKS_PATTERNS : list string :=
  [ "thanks"; "thank you"; "thank u"; "thx"; "ty"; "cheers" ].
Definition _HELP_PATTERNS : list string :=
  [ "help"; "help me"; "what can i ask"; "how to use" ].

(** [question.lower().strip().rstrip("?!.")] *)
Definition normalise (question : string) : string :=
  rstrip_chars "?!." (strip (lower question)).

Definition is_greeting (q : string) : bool :=
  mem q _GREETING_PATTERNS
  || existsb (startswith q) ["hi "; "hey "; "hello "].

Definition greeting_answer (doc_count : nat) : string :=
  "Hello! I'm your **Policy Q&A Assistant**. I have **"
  ++ str_of_nat doc_count ++ " policy document"
  ++ (if (doc_count =? 1)%nat then "" else "s") ++ "** loaded and ready to search.

Ask me anything about your insurance policies — for example:
- " ++ dq ++ "Is wear-and-tear covered?" ++ dq ++ "
- " ++ dq ++ "What is the excess for water damage?" ++ dq ++ "
- " ++ dq ++ "What definitions apply to Insured Person?" ++ dq ++ "

I'll find the relevant sections and cite the exact source.".

Definition identity_answer : string :=
  "I'm a **Policy Q&A Assistant** — an AI-powered chatbot that answers questions about insurance policy documents.

I search through the loaded policy PDFs and give you **grounded answers with clause-level citations** so you know exactly where the information comes from.

Just type your question about any policy topic!".

Definition thanks_answer : string :=
  "You're welcome! Feel free to ask more questions about your policy anytime.".

Definition help_answer : string :=
  "Here's how to get the best results:

**Ask specific questions** about your policy, such as:
- Coverage: " ++ dq ++ "What does the contents insurance cover?" ++ dq ++ "
- Exclusions: " ++ dq ++ "Is flood damage excluded?" ++ dq ++ "
- Definitions: " ++ dq ++ "How is 'Insured Event' defined?" ++ dq ++ "
- Claims: " ++ dq ++ "How do I lodge a claim?" ++ dq ++ "
- Conditions: " ++ dq ++ "What are my obligations under the policy?" ++ dq ++ "

I'll search the policy documents and provide answers with exact citations.".

Definition canned (question answer : string) (follow_ups : list string)
  : Payload :=
  {| question := question; answer := answer; citations := "";
     sources := []; confidence := 1; follow_ups := follow_ups |}.

(** [PolicyQAPipeline._detect_conversational] *)
Definition _detect_conversational (p : PolicyQAPipeline)
    (question : string) : option Payload :=
  let q := normalise question in
  if is_greeting q then
    let doc_names :=
      match _vector_store p with
      | Some vs => doc_names vs
      | None => []
      end in
    let doc_count := List.length doc_names in
    Some (canned question (greeting_answer doc_count)
            [ "What does this policy cover?";
              "What are the general exclusions?";
              "How do I make a claim?" ])
  else if mem q _IDENTITY_PATTERNS then
    Some (canned question identity_answer
            [ "What documents are loaded?";
              "What items are excluded from coverage?";
              "What is the claims process?" ])
  else if mem q _THANKS_PATTERNS then
    Some (canned question thanks_answer [])
  else if mem q _HELP_PATTERNS then
    Some (canned question help_answer
            [ "What does this policy cover?";
              "What are the general exclusions?";
              "What is the excess amount?" ])
  else None.

Section Ask.

Variable encode : list string -> Z -> list Vec.
Variable faiss_search : FaissIndex -> Vec -> Z -> list (Q * Z).

(** [self._db_dir] and [self._docs_dir], as text. *)
Variables db_dir docs_dir : string.

(** The answer-generation capability, [self._llm.generate]. *)
Variable llm_generate :
  LLMBackend -> string -> list Scored -> outcome Generated.

(** [round(x, 4)] on a score *)
Variable round4 : Q -> Q.

Definition source_detail (r : Scored) : SourceDetail :=
  let '(chunk, score) := r in
  {| sd_doc_name := doc_name chunk;
     sd_section := section chunk;
     sd_clause := clause_number chunk;
     sd_page := page chunk;
     sd_heading_path := heading_path chunk;
     sd_score := round4 score;
     sd_snippet := take 200 (text chunk) |}.

(** [PolicyQAPipeline.ask]: the payload, or the exception raised, and
    what was observed meanwhile. *)
Definition ask (p : PolicyQAPipeline) (fs : Files) (question : string)
  : outcome Payload * list event :=
  if negb (_is_initialized p) then
    (Raised (RuntimeError
               "Pipeline not initialized. Call initialize() first."), [])
  else
    match _detect_conversational p question with
    | Some conv_response => (Returned conv_response, [])
    | None =>
        match _retriever p, _vector_store p, _llm p with
        | Some r, Some vs, Some llm =>
            let '(results, observed) :=
              retrieve encode faiss_search r vs fs question in
            let context := build_context results in
            let prompt := build_qa_prompt question context in
            match llm_generate llm prompt results with
            | Raised e => (Raised e, observed)
            | Returned llm_result =>
                (Returned
                   {| question := question;
                      answer := g_answer llm_result;
                      citations := format_citations results;
                      sources := map source_detail results;
                      confidence := round4 (get_best_score results);
                      follow_ups := g_follow_ups llm_result |},
                 observed)
            end
        | _, _, _ => (Raised AttributeError, [])
        end
    end.

(** The result of [initialize]: the pipeline and the files after the
    call, what was observed, and whether it raised. *)
Record Initialized : Type := {
  pipeline_after : PolicyQAPipeline;
  disk_after : Files;
  observed : list event;
  raised : option exn
}.

(** [PolicyQAPipeline.initialize]; [documents] is what the ingestion
    capability [load_all_documents] returns.  The result is [None]
    when [load] has none. *)
Definition finish_initialize (p : PolicyQAPipeline) (vs : VectorStore)
    (fs : Files) (tr : list event) (doc_count chunk_count : nat)
  : Initialized :=
  let with_retriever llm initialized :=
    {| _llm_backend_name := _llm_backend_name p;
       _vector_store := Some vs;
       _retriever :=
         Some {| _top_k := TOP_K; _threshold := SIMILARITY_THRESHOLD |};
       _llm := llm;
       _is_initialized := initialized;
       _doc_count := doc_count; _chunk_count := chunk_count |} in
  match get_llm_backend (_llm_backend_name p) with
  | Raised e =>
      {| pipeline_after := with_retriever (_llm p) (_is_initialized p);
         disk_after := fs; observed := tr; raised := Some e |}
  | Returned llm =>
      {| pipeline_after := with_retriever (Some llm) true;
         disk_after := fs; observed := tr; raised := None |}
  end.

Definition initialize (keyword_order : list string)
    (p : PolicyQAPipeline) (fs : Files) (force_rebuild : bool)
    (documents : list DocumentPage) : option Initialized :=
  let rebuild (vs : VectorStore) (tr : list event) :=
    if is_nil documents then
      {| pipeline_after :=
           {| _llm_backend_name := _llm_backend_name p;
              _vector_store := Some vs;
              _retriever := _retriever p; _llm := _llm p;
              _is_initialized := _is_initialized p;
              _doc_count := _doc_count p;
              _chunk_count := _chunk_count p |};
         disk_after := fs; observed := tr;
         raised :=
       Some (RuntimeError ("No documents found in " ++ docs_dir)) |}
    else
      let doc_count :=
        List.length (to_set (map dp_doc_name documents)) in
      let chunks :=
        chunk_pages keyword_order CHUNK_SIZE CHUNK_OVERLAP MIN_CHUNK_SIZE
          documents in
      let built := build_index encode vs fs chunks EMBEDDING_BATCH_SIZE in
      let saved := save db_dir (store_after built) (files_after built) in
      finish_initialize p (store_after saved) (files_after saved)
        (tr ++ trace built ++ trace saved) doc_count
        (List.length chunks) in
  if force_rebuild then Some (rebuild init [])
  else
    match load init fs with
    | None => None
    | Some loaded =>
        if value loaded then
          Some (finish_initialize p (store_after loaded)
                  (files_after loaded) (trace loaded)
                  (List.length (doc_names (store_after loaded)))
                  (List.length (_chunks (store_after loaded))))
        else Some (rebuild (store_after loaded) (trace loaded))
    end.

End Ask.

End Pipeline.
Import Pipeline.

(** ** core/embeddings.py *)

Module Embeddings.

(** [SentenceTransformerBackend]: the name of the model, and whether
    [self._model] holds the loaded model. *)
Record SentenceTransformerBackend : Type := {
  _model_name : string;
  _model : bool
}.

(** [SentenceTransformerBackend._load_model] *)
Definition _load_model (b : SentenceTransformerBackend)
  : SentenceTransformerBackend * list event :=
  if _model b then (b, [])
  else
    ({| _model_name := _model_name b; _model := true |},
     [ print ("  Loading embedding model: " ++ _model_name b ++ "...");
       print "  Model loaded successfully." ]).

Section Encode.

(** [self._model.encode(batch, ...)]: the rows for the texts of one
    batch, all of one width. *)
Variable model_encode : list string -> list Vec.

(** [texts[i : i + batch_size]] *)
Definition slice (texts : list string) (i batch_size : nat) : list string :=
  firstn batch_size (skipn i texts).

(** The loop [for i in range(0, total, batch_size)] for a batch size
    above zero, from the position [i]; it makes [rounds] rounds at
    most. *)
Fixpoint encode_loop (rounds : nat) (texts : list string)
    (i batch_size total : nat) : list (list Vec) * list event :=
  match rounds with
  | O => ([], [])
  | S rounds' =>
      if (i <? total)%nat then
        let batch := slice texts i batch_size in
        let embeddings := model_encode batch in
        let progress :=
          if ((i + batch_size) mod (batch_size * 5) =? 0)%nat
             || (total <=? i + batch_size)%nat
          then [ print ("  Embedded "
                        ++ str_of_nat (Nat.min (i + batch_size) total)
                        ++ "/" ++ str_of_nat total ++ " chunks") ]
          else [] in
        let '(all_embeddings, printed) :=
          encode_loop rounds' texts (i + batch_size) batch_size total in
        (embeddings :: all_embeddings, progress ++ printed)
      else ([], [])
  end.

(** [SentenceTransformerBackend.encode]: the backend after the call,
    the rows or the exception, and the lines printed.  [range] raises
    for a step of zero and is empty for a step below zero; [np.vstack]
    raises for no batch. *)
Definition encode (b : SentenceTransformerBackend) (texts : list string)
    (batch_size : Z)
  : SentenceTransformerBackend * outcome (list Vec) * list event :=
  let '(b, loading) := _load_model b in
  let total := List.length texts in
  if (batch_size =? 0)%Z then
    (b, Raised (ValueError "range() arg 3 must not be zero"), loading)
  else
    let '(all_embeddings, printed) :=
      if (batch_size <? 0)%Z then ([], [])
      else encode_loop total texts 0 (Z.to_nat batch_size) total in
    if is_nil all_embeddings then
      (b, Raised (ValueError "need at least one array to concatenate"),
       loading ++ printed)
    else (b, Returned (List.concat all_embeddings), loading ++ printed).

End Encode.

End Embeddings.

(** ** frontend/server.py *)

Module Server.

(** The body of a response: an error message, the text of an exception
    after a prefix, or the payload of [ask]. *)
Inductive Body : Type :=
| ErrorBody (msg : string)
| ExnBody (pfx : string) (e : exn)
| PayloadBody (payload : Payload).

Record Response : Type := {
  status : Z;
  body : Body
}.

(** The truth value of a JSON value: [not data] *)
Definition truthy (data : json) : bool :=
  match data with
  | JNull => false
  | JBool b => b
  | JInt n => negb (n =? 0)%Z
  | JFloat q => negb (Qeq_bool q 0)
  | JStr s => nonempty s
  | JArr items => negb (is_nil items)
  | JObj members => negb (is_nil members)
  end.

(** [key in data]: a key of a dictionary, an item of a list, a part of a
    string; a number or a truth value is no container. *)
Definition is_in (key : string) (data : json) : outcome bool :=
  match data with
  | JObj members =>
      Returned (match member key members with
                | Some _ => true
                | None => false
                end)
  | JArr items =>
      Returned (existsb (fun item => match item with
                                     | JStr s => String.eqb s key
                                     | _ => false
                                     end) items)
  | JStr s => Returned (contains key s)
  | _ => Raised TypeError
  end.

Section ApiAsk.

(** [pipeline.ask] of the pipeline that the application was made for. *)
Variable pipeline_ask : string -> outcome Payload * list event.

(** The view function of [/api/ask] on the JSON value of the request.
    An exception that leaves it is not caught by the view. *)
Definition api_ask (data : json) : outcome Response * list event :=
  let missing :=
    (Returned {| status := 400;
                 body := ErrorBody "Missing 'question' field." |}, []) in
  if negb (truthy data) then missing
  else
    match is_in "question" data with
    | Raised e => (Raised e, [])
    | Returned false => missing
    | Returned true =>
        match subscript data "question" with
        | Raised e => (Raised e, [])
        | Returned (JStr s) =>
            let question := strip s in
            if negb (nonempty question) then
              (Returned {| status := 400;
                           body := ErrorBody "Question cannot be empty." |},
               [])
            else
              match pipeline_ask question with
              | (Returned result, observed) =>
                  (Returned {| status := 200; body := PayloadBody result |},
                   observed)
              | (Raised e, observed) =>
                  (Returned {| status := 500;
                               body := ExnBody "Pipeline error: " e |},
                   observed)
              end
        | Returned _ => (Raised AttributeError, [])
        end
    end.

End ApiAsk.

End Server.

(* ================================================================== *)
(** * Part II: the vocabulary of the properties                        *)
(* ================================================================== *)

(** [needle] occurs in [hay]. *)
Definition occurs_in (needle hay : string) : Prop :=
  exists before after : string, hay = (before ++ needle ++ after)%string.

(** The store cannot answer a search: no index is set, or the flag that
    [build_index] and [load] raise is down. *)
Definition not_ready (st : VectorStore) : Prop :=
  _index st = None \/ _is_loaded st = false.

(** The question is one that [_detect_conversational] answers. *)
Definition conversational (question : string) : bool :=
  let q := normalise question in
  is_greeting q || mem q _IDENTITY_PATTERNS || mem q _THANKS_PATTERNS
  || mem q _HELP_PATTERNS.

(** An event that reaches the embedding capability or the index. *)
Definition is_retrieval (e : event) : bool :=
  match e with
  | Encoded _ _ => true
  | Searched _ => true
  | Printed _ => false
  end.

(** [l] is [m] with some elements left out, the order kept. *)
Inductive Subsequence {A : Type} : list A -> list A -> Prop :=
| sub_nil : Subsequence [] []
| sub_skip (x : A) (l m : list A) : Subsequence l m -> Subsequence l (x :: m)
| sub_keep (x : A) (l m : list A) :
    Subsequence l m -> Subsequence (x :: l) (x :: m).

(** The test of [_deduplicate]: the word overlap of two texts exceeds
    [0.7]. *)
Definition near_duplicates (text_a text_b : string) : bool :=
  Qgtb (_text_overlap text_a text_b) (7 # 10).

Definition result_text (r : Scored) : string := text (fst r).

(** The loop of [_deduplicate], from the empty state. *)
Definition dedup_loop (results : list Scored) : list Scored * list string :=
  fold_left dedup_step results ([], []).

(** No two results, at different positions, are near-duplicates. *)
Definition pairwise_far (out : list Scored) : Prop :=
  forall (i j : nat) (a b : Scored),
    i <> j -> nth_error out i = Some a -> nth_error out j = Some b ->
    (_text_overlap (result_text a) (result_text b) <= 7 # 10)%Q.

(** The reading of "of any group of near-duplicates the earliest one is
    kept": whenever two or more of the [results], taken in their order,
    are near-duplicates of one another, the first of them is in [out]. *)
Definition earliest_of_each_group_kept (results out : list Scored) : Prop :=
  forall (first : Scored) (others : list Scored),
    others <> [] ->
    Subsequence (first :: others) results ->
    ForallOrdPairs
      (fun a b => near_duplicates (result_text a) (result_text b) = true)
      (first :: others) ->
    In first out.

(** The results that [retrieve] hands to [_deduplicate]: what [search]
    found, less the results under the threshold. *)
Definition candidates
    (faiss_search : FaissIndex -> Vec -> Z -> list (Q * Z))
    (encode : list string -> Z -> list Vec)
    (r : Retriever) (st : VectorStore) (fs : Files) (query : string)
  : list Scored :=
  filter (fun cs : Scored => Qgeb (snd cs) (_threshold r))
    match value (search faiss_search st fs (hd [] (encode [query] 1%Z))
                   (_top_k r)) with
    | Returned l => l
    | Raised _ => []
    end.

(** A small corpus for the examples: three passages, the second the first
    plus two words, the third the second plus two words. *)
Definition passage (id : Z) (t : string) : Chunk :=
  {| text := t; doc_name := "Home.pdf"; page := 12; section := "";
     clause_number := ""; heading_path := ""; cross_references := [];
     chunk_id := id |}.

Definition passage_a : Chunk := passage 0 "a b c d e f g h".
Definition passage_b : Chunk := passage 1 "a b c d e f g h i j".
Definition passage_c : Chunk := passage 2 "a b c d e f g h i j k l".

Definition unit_encode (texts : list string) (batch_size : Z) : list Vec :=
  map (fun _ => [1%Q]) texts.

(** A search structure that ranks the three passages in their order. *)
Definition ranked_search (ix : FaissIndex) (q : Vec) (top_k : Z)
  : list (Q * Z) :=
  [(9 # 10, 0%Z); (8 # 10, 1%Z); (7 # 10, 2%Z)].

Definition three_passages : VectorStore :=
  store_after
    (build_index unit_encode init no_files
       [passage_a; passage_b; passage_c] 16).

Definition default_retriever : Retriever :=
  {| _top_k := TOP_K; _threshold := SIMILARITY_THRESHOLD |}.

(** The arguments that [load] reads back from the dictionary that
    [save] wrote for [c]. *)
Definition raw_of_chunk (c : Chunk) : RawChunk :=
  {| raw_text := JStr (text c);
     raw_doc_name := JStr (doc_name c);
     raw_page := JInt (page c);
     raw_section := JStr (section c);
     raw_clause_number := JStr (clause_number c);
     raw_heading_path := JStr (heading_path c);
     raw_cross_references := JArr (map JStr (cross_references c));
     raw_chunk_id := JInt (chunk_id c) |}.




(** An initialised pipeline over the small corpus. *)
Definition ready_pipeline : PolicyQAPipeline :=
  {| _llm_backend_name := "mock";
     _vector_store := Some three_passages;
     _retriever := Some default_retriever;
     _llm := Some MockLLMBackend;
     _is_initialized := true;
     _doc_count := 1; _chunk_count := 3 |}.


(** A question that names many policy topics at once, a passage from a
    page without headings, and the prompt that [ask] builds from them. *)
Definition broad_question : string :=
  "What items are excluded from coverage and how is the excess calculated in the claims process under the general conditions of the policy?".

Definition plain_passage : Chunk :=
  {| text := "Wear and tear is excluded."; doc_name := "Home.pdf";
     page := 12; section := ""; clause_number := ""; heading_path := "";
     cross_references := []; chunk_id := 0 |}.

Definition broad_prompt : string :=
  build_qa_prompt broad_question (build_context [(plain_passage, 1 # 2)]).

(** The texts of the chunks that [chunk_pages] emits for a section, and
    for a page, each with the page number. *)
Definition section_texts (chunk_size chunk_overlap min_chunk_size : Z)
    (sec : Sec) : list string :=
  if nonempty (section_text_of sec)
  then _sub_chunk_text (section_text_of sec) chunk_size chunk_overlap
         min_chunk_size
  else [].

Definition page_texts (chunk_size chunk_overlap min_chunk_size : Z)
    (page : DocumentPage) : list (Z * string) :=
  map (pair (page_num page))
    (flat_map (section_texts chunk_size chunk_overlap min_chunk_size)
       (_split_into_sections (dp_text page))).

Definition page_and_text (c : Chunk) : Z * string := (page c, text c).

(** The chunks of [l] carry the identifiers [id], [id + 1], ... *)
Fixpoint numbered_from (id : Z) (l : list Chunk) : Prop :=
  match l with
  | [] => True
  | c :: rest => chunk_id c = id /\ numbered_from (id + 1) rest
  end.

(** The state of the chunker is consistent: the chunks emitted so far are
    numbered from zero and the counter is their number. *)
Definition well_numbered (st : ChunkerState) : Prop :=
  numbered_from 0 (all_chunks st)
  /\ next_chunk_id st = Z.of_nat (List.length (all_chunks st)).

(** [st'] continues [st] by the chunks [new]. *)
Definition continues (st st' : ChunkerState) (new : list Chunk) : Prop :=
  all_chunks st' = all_chunks st ++ new
  /\ numbered_from (next_chunk_id st) new
  /\ next_chunk_id st' = (next_chunk_id st + Z.of_nat (List.length new))%Z.

(** The last character of [s] is white space. *)
Fixpoint ends_with_space (s : string) : bool :=
  match s with
  | EmptyString => false
  | String c s' =>
      match s' with
      | EmptyString => isspace c
      | String _ _ => ends_with_space s'
      end
  end.

Definition all_nonempty (l : list string) : Prop :=
  Forall (fun s => s <> EmptyString) l.

(** The token floor: every text of [emitted] has [min_chunk_size] tokens
    or more, unless [emitted] is a lone text. *)
Definition floor_or_lone (min_chunk_size : Z) (emitted : list string) : Prop :=
  (List.length emitted <= 1)%nat
  \/ Forall (fun t => (min_chunk_size <= _estimate_tokens t)%Z) emitted.

(** The sum of the token estimates of the sentences of [l]. *)
Fixpoint total_tokens (l : list string) : Z :=
  match l with
  | [] => 0%Z
  | s :: rest => (_estimate_tokens s + total_tokens rest)%Z
  end.

(** The sentence [s] is accounted for in the state of the sub-chunking
    loop: it is part of a chunk flushed already, or waits in the current
    chunk. *)
Definition covered (st : SubChunkState) (s : string) : Prop :=
  (exists t, In t (chunks st) /\ occurs_in s t) \/ In s (current_chunk st).

(** The reading of "a fragment is never silently dropped": every sentence
    of the text of a section occurs in a chunk emitted for it. *)
Definition no_sentence_lost (text : string) (emitted : list string) : Prop :=
  forall s, In s (split_sentences text) ->
            exists t, In t emitted /\ occurs_in s t.

(** A page with two numbered headings, and a page of three sentences
    without a heading, the second sentence a short remark. *)
Definition headed_page : DocumentPage :=
  {| dp_doc_name := "Home.pdf"; page_num := 3;
     dp_text :=
       "Intro line." ++ nl ++ "1. General" ++ nl
       ++ "See Section 3.2. for more. Also refer to clause 4.1." ++ nl
       ++ "1.1. EXCLUSIONS" ++ nl
       ++ "Wear and tear is excluded. Rust is excluded too.";
     headings := [] |}.

Definition remark_text : string :=
  "The insurer covers accidental damage to the contents. See above. Loss caused by wear and tear is excluded.".

Definition remark_page : DocumentPage :=
  {| dp_doc_name := "Home.pdf"; page_num := 1; dp_text := remark_text;
     headings := [] |}.

Definition remark_section : Sec :=
  {| heading := ""; clause := ""; lines := [remark_text] |}.

(** A page that holds white space only. *)
Definition blank_page : DocumentPage :=
  {| dp_doc_name := "Blank.pdf"; page_num := 1; dp_text := "   ";
     headings := [] |}.

(** ** Vocabulary of the further properties *)

(** What the structure found for a search, when the store holds an index. *)
Definition found_by
    (faiss_search : FaissIndex -> Vec -> Z -> list (Q * Z))
    (st : VectorStore) (query_embedding : Vec) (top_k : Z) : list (Q * Z) :=
  match _index st with
  | Some index => faiss_search index query_embedding top_k
  | None => []
  end.

(** An item of the metadata that [load] can read: a dictionary with the
    keys [text], [doc_name] and [page]. *)
Definition has_required_keys (m : json) : Prop :=
  exists members t d p,
    m = JObj members
    /\ member "text" members = Some t
    /\ member "doc_name" members = Some d
    /\ member "page" members = Some p.

(** The metadata of a chunk with the three required keys only. *)
Definition bare_meta (c : string * string * Z) : json :=
  let '(t, d, p) := c in
  JObj [("text", JStr t); ("doc_name", JStr d); ("page", JInt p)].

Definition bare_chunk (i : nat) (c : string * string * Z) : Chunk :=
  let '(t, d, p) := c in
  {| text := t; doc_name := d; page := p; section := "";
     clause_number := ""; heading_path := ""; cross_references := [];
     chunk_id := Z.of_nat i |}.

Fixpoint bare_chunks_from (i : nat) (l : list (string * string * Z))
  : list Chunk :=
  match l with
  | [] => []
  | c :: rest => bare_chunk i c :: bare_chunks_from (S i) rest
  end.

(** ** Vocabulary of the chunker and of the follow-ups *)

(** Every character of the text is an ASCII character.  On such a text
    the classes of [re] are those of the embedding: [\d] is the digits 0
    to 9, [re.IGNORECASE] folds the letters A to Z only. *)
Definition is_ascii (s : string) : bool :=
  all_chars (fun c => (code c <? 128)%nat) s.

(** The text matches [[0-9]+(?:\.[0-9]+)*]: runs of digits, one full
    stop between two runs. *)
Fixpoint dotted_from (after_digit : bool) (s : string) : bool :=
  match s with
  | EmptyString => after_digit
  | String c s' =>
      if isdigit c then dotted_from true s'
      else if Ascii.eqb c "."%char then after_digit && dotted_from false s'
      else false
  end.

Definition dotted_number (s : string) : bool := dotted_from false s.

(** No line of [l] is a heading. *)
Definition label_free (l : list string) : Prop :=
  Forall (fun line => _detect_section_label line = None) l.

(** The clause number that [_split_into_sections] reads off a heading
    line. *)
Definition clause_of (line : string) : string :=
  match NUMBERED_SECTION_RE (strip line) with
  | Some c => c
  | None => EmptyString
  end.

(** A section without a heading, and a section that opens with its
    heading line. *)
Definition headless (sec : Sec) : Prop :=
  heading sec = EmptyString /\ clause sec = EmptyString
  /\ label_free (lines sec).

Definition headed (sec : Sec) : Prop :=
  exists first rest,
    lines sec = first :: rest
    /\ _detect_section_label first = Some (heading sec)
    /\ nonempty (heading sec) = true
    /\ clause sec = clause_of first
    /\ label_free rest.

(** The chunk [c] was cut from the section [sec] of the page [p]. *)
Definition cut_from (keyword_order : list string)
    (chunk_size chunk_overlap min_chunk_size : Z)
    (p : DocumentPage) (sec : Sec) (c : Chunk) : Prop :=
  doc_name c = dp_doc_name p
  /\ page c = page_num p
  /\ clause_number c = clause sec
  /\ section c = section_label_of keyword_order (heading sec)
  /\ cross_references c = _find_cross_references (section_text_of sec)
  /\ In (text c)
        (_sub_chunk_text (section_text_of sec) chunk_size chunk_overlap
           min_chunk_size).

(** The heading path of [c] ends with the heading of [sec] and is no
    deeper than its clause number. *)
Definition path_ends_with_heading (sec : Sec) (c : Chunk) : Prop :=
  exists above : list string,
    heading_path c = join " > " (above ++ [heading sec])
    /\ (List.length above < heading_depth (clause sec))%nat.

(** What the loop of [_split_into_sections] keeps true: the sections
    closed so far are a section with or without a heading followed by
    sections with one; the open section has its heading as soon as a
    section was closed. *)
Definition sections_shape (secs : list Sec) : Prop :=
  match secs with
  | [] => True
  | s :: rest => (headless s \/ headed s) /\ Forall headed rest
  end.

Definition split_invariant (st : list Sec * Sec) : Prop :=
  sections_shape (fst st)
  /\ Forall (fun s => has_lines s = true) (fst st)
  /\ (headed (snd st) \/ (headless (snd st) /\ fst st = [])).


(** [r] is what is left of [s] after a scanner took a prefix. *)
Definition rest_of (r s : string) : Prop :=
  exists taken : string, s = (taken ++ r)%string.


(** The heading under which a chunk stands, as [_generate_follow_ups]
    reads it. *)
Definition section_of_chunk (chunk : Chunk) : string :=
  lower (or_else (section chunk) (or_else (heading_path chunk) "")).

(** The suggestion [f] is a topic template filled with the topic of
    [chunk]: the key of the template stands in the heading of the chunk,
    the topic has three characters at least and does not stand in the
    question. *)
Definition from_template (question_lower : string) (chunk : Chunk)
    (f : string) : Prop :=
  exists key before after,
    In (key, (before, after)) topic_templates
    /\ contains key (section_of_chunk chunk) = true
    /\ f = (before ++ _extract_topic chunk question_lower ++ after)%string
    /\ (2 < length (_extract_topic chunk question_lower))%nat
    /\ contains (lower (_extract_topic chunk question_lower))
         question_lower = false.

(** The suggestion [f] is a generic one that shares less than two
    keywords with the question. *)
Definition eligible_generic (question_lower f : string) : Prop :=
  In f generic_follow_ups
  /\ (List.length (inter (_get_keywords (lower f))
                     (_get_keywords question_lower)) < 2)%nat.

(** ** Vocabulary of the prompt *)

(** No match of the literal [lit] starts at the head of [b], whatever
    text follows [b]: a character of [b] differs from that of [lit]. *)
Fixpoint clash (lit b : string) : bool :=
  match lit, b with
  | String a l, String c b' => if Ascii.eqb a c then clash l b' else true
  | _, _ => false
  end.

(** No match of [lit] starts inside [pre], whatever text follows. *)
Fixpoint clear_of (lit pre : string) : bool :=
  match pre with
  | EmptyString => true
  | String _ pre' => clash lit pre && clear_of lit pre'
  end.

(** The parts of the prompt around the context and the question. *)
Definition prompt_head : string :=
  SYSTEM_PROMPT ++ "

CONTEXT FROM POLICY DOCUMENTS:
".

Definition prompt_tail : string :=
  "
INSTRUCTIONS:
- Answer the question based ONLY on the context above.
- Quote relevant policy language where helpful.
- If multiple sources are relevant, synthesize the information.
- If the context does not adequately address the question, say " ++ dq ++ "I cannot find a definitive answer in the provided policy wording." ++ dq ++ " and list the closest related clauses you found.
- End your answer with a blank line followed by the citations.

ANSWER:".

(** ** Vocabulary of the pipeline *)

(** The payload of an [ask] that returned, and the result of an
    [initialize] that has one. *)
Definition answered (o : outcome Payload) : Payload :=
  match o with
  | Returned payload => payload
  | Raised _ => canned "" "" []
  end.

Definition initialized_as (o : option Initialized) (p : PolicyQAPipeline)
    (fs : Files) : Initialized :=
  match o with
  | Some r => r
  | None =>
      {| pipeline_after := p; disk_after := fs; observed := [];
         raised := None |}
  end.

(** A cache that [load] reads: the files that [save] wrote for the store
    of the three passages. *)
Definition cached_files : Files :=
  files_after (save "vector_db" three_passages no_files).

(** Files that [load] fails on after it read the index: the metadata is
    no JSON. *)
Definition stale_files : Files :=
  {| index_faiss := Some (Valid {| d := 1%nat; xb := [[5%Q]] |});
     chunks_json := Some Corrupt |}.

(** The effect of a [load] that has one. *)
Definition loaded_effect (o : option (Effect bool)) : Effect bool :=
  match o with
  | Some loaded => loaded
  | None =>
      {| store_after := init; files_after := no_files; trace := [];
         value := false |}
  end.

(* ================================================================== *)
(** * Part III: properties                                             *)
(* ================================================================== *)

(** ** Scenarios of the specification *)

Example citation_scenario :
  citation_string
    {| text := "Wear and tear is excluded."; doc_name := "Home.pdf";
       page := 12; section := "Exclusions"; clause_number := "4.2";
       heading_path := ""; cross_references := []; chunk_id := 0 |}
  = "Home.pdf §4.2 (Exclusions) p.12".
Proof. reflexivity. Qed.

(** ** The vector store: build, search *)

Section StoreProperties.

Variable encode : list string -> Z -> list Vec.
Variable faiss_search : FaissIndex -> Vec -> Z -> list (Q * Z).
Variable db_dir : string.

Lemma build_index_keeps_files st fs chunks batch_size :
  files_after (build_index encode st fs chunks batch_size) = fs.
Proof. unfold build_index. destruct (is_nil chunks); reflexivity. Qed.

Lemma build_index_never_raises st fs chunks batch_size :
  value (build_index encode st fs chunks batch_size) = Returned tt.
Proof. unfold build_index. destruct (is_nil chunks); reflexivity. Qed.

Lemma save_without_index st fs :
  _index st = None ->
  files_after (save db_dir st fs) = fs /\ store_after (save db_dir st fs) = st.
Proof. intros H. unfold save. rewrite H. split; reflexivity. Qed.

(** Building from no chunk and saving next, as [initialize] does, leaves
    the files of a fresh store as they were. *)
Lemma build_empty_then_save fs batch_size :
  let built := build_index encode init fs [] batch_size in
  files_after (save db_dir (store_after built) (files_after built)) = fs.
Proof. reflexivity. Qed.

Lemma not_ready_init : not_ready init.
Proof. left. reflexivity. Qed.

Lemma not_ready_build_empty st fs batch_size :
  not_ready st ->
  not_ready (store_after (build_index encode st fs [] batch_size)).
Proof. intros H. exact H. Qed.

Lemma not_ready_save st fs :
  not_ready st -> not_ready (store_after (save db_dir st fs)).
Proof.
  intros H. unfold save. destruct (_index st); exact H.
Qed.

(** A [load] that returns [False] may have set the index, but it leaves
    the flag down. *)
Lemma not_ready_load_failed st fs eff :
  _is_loaded st = false ->
  load st fs = Some eff -> value eff = false ->
  _is_loaded (store_after eff) = false.
Proof.
  intros Hst Hload Hval. unfold load, load_failed in Hload.
  destruct (index_faiss fs) as [[ix|]|]; destruct (chunks_json fs) as [[meta|]|];
    try (inversion Hload; subst; simpl in *; assumption).
  destruct (iterate meta) as [items|e];
    try (inversion Hload; subst; simpl in *; assumption).
  destruct (raw_chunks_from 0 items) as [raws|e];
    try (inversion Hload; subst; simpl in *; assumption).
  destruct (typed_chunks raws);
    inversion Hload; subst; simpl in *; congruence.
Qed.

End StoreProperties.

(** C1 (as amended): for the empty chunk sequence [build_index] raises
    nothing: it prints a warning and returns, the store is unchanged and
    no index or metadata file is written. *)
Theorem C1_build_empty_warns_and_writes_nothing :
  forall (encode : list string -> Z -> list Vec) (st : VectorStore)
         (fs : Files) (batch_size : Z),
    build_index encode st fs [] batch_size
    = {| store_after := st; files_after := fs;
         trace := [Printed (Print "[WARNING] No chunks to index.")];
         value := Returned tt |}.
Proof. intros. reflexivity. Qed.

(** C1, as the specification states it, fails: on a fresh store and an
    empty chunk sequence the build raises no exception at all. *)
Lemma C1_build_empty_does_not_raise :
  ~ exists e : exn,
      value (build_index (fun _ _ => []) init no_files [] 16) = Raised e.
Proof. intros [e H]. discriminate H. Qed.

(** C9: on a store whose index has not been built or loaded, [search]
    raises nothing, returns the empty sequence, prints the error line and
    nothing else, and leaves the store and the files as they were. *)
Theorem C9_search_before_build_is_empty :
  forall (faiss_search : FaissIndex -> Vec -> Z -> list (Q * Z))
         (st : VectorStore) (fs : Files) (query_embedding : Vec) (top_k : Z),
    not_ready st ->
    search faiss_search st fs query_embedding top_k
    = {| store_after := st; files_after := fs;
         trace := [Printed (Print "[ERROR] Index not loaded.")];
         value := Returned [] |}.
Proof.
  intros fsearch st fs q k [H | H]; unfold search; rewrite H.
  - reflexivity.
  - destruct (_index st); reflexivity.
Qed.

Lemma C9_search_before_build_witness :
  not_ready init
  /\ search (fun _ _ _ => [(1, 0%Z)]) init no_files [1; 0] 5
     = {| store_after := init; files_after := no_files;
          trace := [Printed (Print "[ERROR] Index not loaded.")];
          value := Returned [] |}.
Proof.
  split.
  - left; reflexivity.
  - apply (C9_search_before_build_is_empty
             (fun _ _ _ => [(1, 0%Z)]) init no_files [1; 0] 5).
    left; reflexivity.
Defined.

(** ** The retriever: threshold and deduplication *)

Section DedupProperties.

Lemma mem_In (w : string) (l : list string) : mem w l = true <-> In w l.
Proof.
  unfold mem. rewrite existsb_exists. split.
  - intros [x [Hin Heq]]. apply String.eqb_eq in Heq. subst. exact Hin.
  - intros Hin. exists w. split; [exact Hin | apply String.eqb_refl].
Qed.

Lemma mem_false (w : string) (l : list string) :
  mem w l = false <-> ~ In w l.
Proof.
  rewrite <- mem_In. destruct (mem w l); split; congruence.
Qed.

Lemma NoDup_to_set (l : list string) : NoDup (to_set l).
Proof. apply NoDup_nodup. Qed.

Lemma In_inter (a b : list string) (w : string) :
  In w (inter a b) <-> In w a /\ In w b.
Proof. unfold inter. rewrite filter_In, mem_In. tauto. Qed.

Lemma In_union (a b : list string) (w : string) :
  In w (union a b) <-> In w a \/ In w b.
Proof.
  unfold union. rewrite in_app_iff, filter_In, negb_true_iff, mem_false.
  destruct (in_dec string_dec w a); tauto.
Qed.

Lemma NoDup_union (a b : list string) :
  NoDup a -> NoDup b -> NoDup (union a b).
Proof.
  intros Ha Hb. unfold union. apply NoDup_app.
  - exact Ha.
  - apply NoDup_filter. exact Hb.
  - intros w Hin Hin'. apply filter_In in Hin'.
    destruct Hin' as [_ Hm]. apply negb_true_iff, mem_false in Hm. tauto.
Qed.

Lemma inter_length_sym (a b : list string) :
  NoDup a -> NoDup b ->
  List.length (inter a b) = List.length (inter b a).
Proof.
  intros Ha Hb. apply Permutation_length, NoDup_Permutation.
  - apply NoDup_filter. exact Ha.
  - apply NoDup_filter. exact Hb.
  - intros w. rewrite !In_inter. tauto.
Qed.

Lemma union_length_sym (a b : list string) :
  NoDup a -> NoDup b ->
  List.length (union a b) = List.length (union b a).
Proof.
  intros Ha Hb. apply Permutation_length, NoDup_Permutation.
  - apply NoDup_union; assumption.
  - apply NoDup_union; assumption.
  - intros w. rewrite !In_union. tauto.
Qed.

(** The word overlap does not depend on the order of its arguments. *)
Lemma _text_overlap_sym (text_a text_b : string) :
  _text_overlap text_a text_b = _text_overlap text_b text_a.
Proof.
  unfold _text_overlap.
  rewrite (orb_comm (is_nil (word_set text_a))).
  destruct (is_nil (word_set text_b) || is_nil (word_set text_a));
    [reflexivity |].
  rewrite (inter_length_sym (word_set text_a) (word_set text_b)),
          (union_length_sym (word_set text_a) (word_set text_b));
    try apply NoDup_to_set.
  reflexivity.
Qed.

Lemma near_duplicates_sym (a b : string) :
  near_duplicates a b = near_duplicates b a.
Proof. unfold near_duplicates. rewrite _text_overlap_sym. reflexivity. Qed.

Lemma near_duplicates_false (a b : string) :
  near_duplicates a b = false <-> (_text_overlap a b <= 7 # 10)%Q.
Proof.
  unfold near_duplicates, Qgtb. rewrite negb_false_iff.
  apply Qle_bool_iff.
Qed.

Lemma is_dup_false (t : string) (seen : list string) :
  is_dup t seen = false <->
  forall s, In s seen -> near_duplicates t s = false.
Proof.
  unfold is_dup. split.
  - intros H s Hin.
    destruct (near_duplicates t s) eqn:E; [| reflexivity].
    assert (existsb (fun seen0 => Qgtb (_text_overlap t seen0) (7 # 10))
              seen = true) as Hex
      by (apply existsb_exists; exists s; split; assumption).
    congruence.
  - intros H.
    destruct (existsb _ seen) eqn:E; [| reflexivity].
    apply existsb_exists in E. destruct E as [s [Hin Hd]].
    specialize (H s Hin). unfold near_duplicates in H. congruence.
Qed.

Lemma dedup_step_seen (st : list Scored * list string) (r : Scored) :
  snd st = map result_text (fst st) ->
  snd (dedup_step st r) = map result_text (fst (dedup_step st r)).
Proof.
  destruct st as [kept seen], r as [c sc]. simpl. intros ->.
  destruct (is_dup (text c) (map result_text kept)); simpl.
  - reflexivity.
  - rewrite map_app. reflexivity.
Qed.

Lemma dedup_loop_seen (results : list Scored) :
  snd (dedup_loop results) = map result_text (fst (dedup_loop results)).
Proof.
  unfold dedup_loop. induction results as [| r l IH] using rev_ind.
  - reflexivity.
  - rewrite fold_left_app. simpl. apply dedup_step_seen. exact IH.
Qed.

Lemma _deduplicate_loop (results : list Scored) :
  _deduplicate results = fst (dedup_loop results).
Proof.
  unfold _deduplicate, dedup_loop.
  destruct results as [| [c sc] [| r l]]; reflexivity.
Qed.

(** A result is kept exactly when no result kept before it is its
    near-duplicate. *)
Lemma _deduplicate_snoc (results : list Scored) (r : Scored) :
  _deduplicate (results ++ [r])
  = if is_dup (result_text r) (map result_text (_deduplicate results))
    then _deduplicate results
    else _deduplicate results ++ [r].
Proof.
  rewrite !_deduplicate_loop. unfold dedup_loop at 1.
  rewrite fold_left_app. simpl.
  fold (dedup_loop results).
  pose proof (dedup_loop_seen results) as Hseen.
  destruct (dedup_loop results) as [kept seen]. simpl in *. subst seen.
  destruct r as [c sc]. unfold result_text. simpl.
  destruct (is_dup _ _); reflexivity.
Qed.

Lemma Subsequence_refl {A : Type} (l : list A) : Subsequence l l.
Proof. induction l; constructor; assumption. Qed.

Lemma Subsequence_app {A : Type} (l m l' m' : list A) :
  Subsequence l m -> Subsequence l' m' -> Subsequence (l ++ l') (m ++ m').
Proof.
  induction 1; intros H'; simpl.
  - exact H'.
  - apply sub_skip. auto.
  - apply sub_keep. auto.
Qed.

Lemma Subsequence_incl {A : Type} (l m : list A) :
  Subsequence l m -> incl l m.
Proof.
  induction 1; intros y Hy.
  - exact Hy.
  - right. auto.
  - destruct Hy as [-> | Hy]; [left; reflexivity | right; auto].
Qed.

Lemma _deduplicate_subsequence (results : list Scored) :
  Subsequence (_deduplicate results) results.
Proof.
  induction results as [| r l IH] using rev_ind.
  - constructor.
  - rewrite _deduplicate_snoc.
    destruct (is_dup _ _).
    + rewrite <- (app_nil_r (_deduplicate l)).
      apply Subsequence_app; [exact IH | apply sub_skip, sub_nil].
    + apply Subsequence_app; [exact IH | apply Subsequence_refl].
Qed.

Lemma _deduplicate_incl (results : list Scored) :
  incl (_deduplicate results) results.
Proof. apply Subsequence_incl, _deduplicate_subsequence. Qed.

(** What [_deduplicate] keeps of a list stays kept when the list grows. *)
Lemma _deduplicate_grows (results more : list Scored) :
  exists kept_later,
    _deduplicate (results ++ more) = _deduplicate results ++ kept_later.
Proof.
  induction more as [| r l IH] using rev_ind.
  - exists []. rewrite !app_nil_r. reflexivity.
  - destruct IH as [k Hk]. rewrite app_assoc, _deduplicate_snoc, Hk.
    destruct (is_dup _ _).
    + exists k. reflexivity.
    + exists (k ++ [r]). rewrite app_assoc. reflexivity.
Qed.

Lemma FOP_snoc {A : Type} (R : A -> A -> Prop) (l : list A) (x : A) :
  ForallOrdPairs R l -> Forall (fun a => R a x) l ->
  ForallOrdPairs R (l ++ [x]).
Proof.
  induction 1 as [| a l Ha Hl IH]; intros Hx; simpl.
  - constructor; constructor.
  - inversion Hx; subst. constructor.
    + apply Forall_app. split; [exact Ha | constructor; [assumption | constructor]].
    + apply IH. assumption.
Qed.

Lemma FOP_nth {A : Type} (R : A -> A -> Prop) (l : list A) :
  ForallOrdPairs R l ->
  forall i j a b, (i < j)%nat ->
    nth_error l i = Some a -> nth_error l j = Some b -> R a b.
Proof.
  induction 1 as [| x l Hx Hl IH]; intros i j a b Hij Hi Hj.
  - destruct i; discriminate.
  - destruct j as [| j]; [lia |]. simpl in Hj.
    destruct i as [| i]; simpl in Hi.
    + inversion Hi; subst. rewrite Forall_forall in Hx.
      apply Hx. eapply nth_error_In. exact Hj.
    + apply (IH i j); [lia | assumption | assumption].
Qed.

Lemma _deduplicate_ordered_far (results : list Scored) :
  ForallOrdPairs
    (fun a b => near_duplicates (result_text b) (result_text a) = false)
    (_deduplicate results).
Proof.
  induction results as [| r l IH] using rev_ind.
  - constructor.
  - rewrite _deduplicate_snoc.
    destruct (is_dup _ _) eqn:E; [exact IH |].
    apply FOP_snoc; [exact IH |].
    rewrite Forall_forall. intros a Ha.
    rewrite is_dup_false in E. apply E. apply in_map. exact Ha.
Qed.

Lemma _deduplicate_pairwise_far (results : list Scored) :
  pairwise_far (_deduplicate results).
Proof.
  intros i j a b Hij Hi Hj.
  pose proof (_deduplicate_ordered_far results) as H.
  apply near_duplicates_false.
  destruct (Nat.lt_total i j) as [Hlt | [Heq | Hgt]]; [| contradiction |].
  - rewrite near_duplicates_sym. exact (FOP_nth _ _ H i j a b Hlt Hi Hj).
  - exact (FOP_nth _ _ H j i b a Hgt Hj Hi).
Qed.

(** A result that is no near-duplicate of any result before it is kept. *)
Lemma _deduplicate_keeps_first_of_kind (before after : list Scored)
    (r : Scored) :
  (forall e, In e before ->
             near_duplicates (result_text r) (result_text e) = false) ->
  In r (_deduplicate (before ++ r :: after)).
Proof.
  intros Hfar.
  replace (before ++ r :: after) with ((before ++ [r]) ++ after)
    by (rewrite <- app_assoc; reflexivity).
  destruct (_deduplicate_grows (before ++ [r]) after) as [k ->].
  apply in_or_app. left. rewrite _deduplicate_snoc.
  assert (is_dup (result_text r) (map result_text (_deduplicate before))
          = false) as ->.
  { apply is_dup_false. intros s Hs. apply in_map_iff in Hs.
    destruct Hs as [e [<- He]]. apply Hfar.
    apply (_deduplicate_incl before). exact He. }
  apply in_or_app. right. left. reflexivity.
Qed.

End DedupProperties.

(** C4: every pair that [retrieve] returns has a score at or above the
    similarity threshold of the retriever. *)
Theorem C4_retrieve_respects_threshold :
  forall (encode : list string -> Z -> list Vec)
         (faiss_search : FaissIndex -> Vec -> Z -> list (Q * Z))
         (r : Retriever) (st : VectorStore) (fs : Files) (query : string),
    Forall (fun cs : Scored => (_threshold r <= snd cs)%Q)
           (fst (retrieve encode faiss_search r st fs query)).
Proof.
  intros. unfold retrieve. simpl. rewrite Forall_forall. intros cs Hin.
  apply _deduplicate_incl in Hin. apply filter_In in Hin.
  destruct Hin as [_ H]. unfold Qgeb in H. apply Qle_bool_iff. exact H.
Qed.

(** [retrieve] on the small corpus: the second passage is dropped as a
    near-duplicate of the first, the third is kept. *)
Example retrieve_three_passages :
  fst (retrieve unit_encode ranked_search default_retriever three_passages
         no_files "a b c")
  = [(passage_a, 9 # 10); (passage_c, 7 # 10)].
Proof. vm_compute. reflexivity. Qed.

(** C5 (as amended): no two chunks that [retrieve] returns overlap by
    more than 0.7 in their words. Deduplication is greedy and keeps the
    order of the score-ordered list: a result is kept exactly when no
    result kept before it is its near-duplicate; so a result without a
    near-duplicate before it is always kept. *)
Theorem C5_retrieve_deduplicates_greedily :
  forall (encode : list string -> Z -> list Vec)
         (faiss_search : FaissIndex -> Vec -> Z -> list (Q * Z))
         (r : Retriever) (st : VectorStore) (fs : Files) (query : string),
    let found := candidates faiss_search encode r st fs query in
    let out := fst (retrieve encode faiss_search r st fs query) in
    out = _deduplicate found
    /\ pairwise_far out
    /\ Subsequence out found
    /\ (forall (before : list Scored) (x : Scored),
          _deduplicate (before ++ [x])
          = if is_dup (result_text x)
                 (map result_text (_deduplicate before))
            then _deduplicate before
            else _deduplicate before ++ [x])
    /\ (forall (before after : list Scored) (x : Scored),
          found = before ++ x :: after ->
          (forall e, In e before ->
             near_duplicates (result_text x) (result_text e) = false) ->
          In x out).
Proof.
  intros encode faiss_search r st fs query found out.
  assert (out = _deduplicate found) as Hout by reflexivity.
  split; [exact Hout |]. rewrite Hout.
  split; [apply _deduplicate_pairwise_far |].
  split; [apply _deduplicate_subsequence |].
  split; [intros; apply _deduplicate_snoc |].
  intros before after x Hfound Hfar. rewrite Hfound.
  apply _deduplicate_keeps_first_of_kind. exact Hfar.
Qed.

Lemma C5_retrieve_deduplicates_greedily_witness :
  In (passage_a, 9 # 10)
     (fst (retrieve unit_encode ranked_search default_retriever
             three_passages no_files "a b c")).
Proof.
  destruct (C5_retrieve_deduplicates_greedily unit_encode ranked_search
              default_retriever three_passages no_files "a b c")
    as [_ [_ [_ [_ H]]]].
  apply (H [] [(passage_b, 8 # 10); (passage_c, 7 # 10)]).
  - vm_compute. reflexivity.
  - intros e [].
Defined.

(** C5, as the specification states it, fails in its last part: the
    second and the third passage are near-duplicates of one another, the
    second is the earlier and the higher-scored of the two, and it is the
    third that [retrieve] keeps. *)
Lemma C5_earliest_of_group_not_always_kept :
  ~ earliest_of_each_group_kept
      (candidates ranked_search unit_encode default_retriever three_passages
         no_files "a b c")
      (fst (retrieve unit_encode ranked_search default_retriever
              three_passages no_files "a b c")).
Proof.
  intros H.
  specialize (H (passage_b, 8 # 10) [(passage_c, 7 # 10)]).
  assert (In (passage_b, 8 # 10)
             (fst (retrieve unit_encode ranked_search default_retriever
                     three_passages no_files "a b c"))) as Hin.
  { apply H.
    - discriminate.
    - vm_compute. apply sub_skip, sub_keep, sub_keep, sub_nil.
    - constructor.
      + constructor; [vm_compute; reflexivity | constructor].
      + constructor; [constructor | constructor]. }
  rewrite retrieve_three_passages in Hin.
  destruct Hin as [Heq | [Heq | []]]; discriminate Heq.
Qed.

(** ** The vector store: persistence *)

Section RoundTrip.

Lemma all_strings_map_JStr (l : list string) :
  all_strings (map JStr l) = Some l.
Proof.
  induction l as [| x l IH]; simpl; [reflexivity |].
  rewrite IH. reflexivity.
Qed.

Lemma raw_chunk_of_meta (i : nat) (c : Chunk) :
  raw_chunk i (chunk_meta c) = Returned (raw_of_chunk c).
Proof. reflexivity. Qed.

Lemma typed_chunk_of_raw (c : Chunk) : typed_chunk (raw_of_chunk c) = Some c.
Proof.
  unfold typed_chunk, raw_of_chunk. simpl.
  rewrite all_strings_map_JStr. destruct c; reflexivity.
Qed.

Lemma raw_chunks_of_meta (chunks : list Chunk) (i : nat) :
  raw_chunks_from i (map chunk_meta chunks)
  = Returned (map raw_of_chunk chunks).
Proof.
  revert i. induction chunks as [| c l IH]; intros i.
  - reflexivity.
  - cbn [map raw_chunks_from]. rewrite raw_chunk_of_meta, IH. reflexivity.
Qed.

Lemma typed_chunks_of_raw (chunks : list Chunk) :
  typed_chunks (map raw_of_chunk chunks) = Some chunks.
Proof.
  induction chunks as [| c l IH].
  - reflexivity.
  - cbn [map typed_chunks]. rewrite typed_chunk_of_raw, IH. reflexivity.
Qed.

(** Loading what [save] wrote gives back the chunks of the store that
    was saved, whatever the store that loads held before. *)
Lemma load_after_save (db_dir : string) (st st' : VectorStore) (fs : Files)
    (index : FaissIndex) :
  _index st = Some index ->
  exists loaded,
    load st' (files_after (save db_dir st fs)) = Some loaded
    /\ value loaded = true
    /\ store_after loaded
       = {| _index := Some index; _chunks := _chunks st;
            _is_loaded := true |}.
Proof.
  intros Hix. unfold save. rewrite Hix. unfold load. simpl.
  rewrite raw_chunks_of_meta, typed_chunks_of_raw.
  eexists. split; [reflexivity |]. split; reflexivity.
Qed.

End RoundTrip.

(** C2: for a chunk sequence that is not empty, building the index,
    saving it and loading it again, into any store, succeeds and yields
    the original chunks: the same chunks in the same order, every field
    and every chunk_id as it was, next to the index that was built. *)
Theorem C2_index_round_trip :
  forall (encode : list string -> Z -> list Vec) (db_dir : string)
         (chunks : list Chunk) (batch_size : Z)
         (st st' : VectorStore) (fs : Files),
    chunks <> [] ->
    let built := build_index encode st fs chunks batch_size in
    let saved := save db_dir (store_after built) (files_after built) in
    exists loaded : Effect bool,
      load st' (files_after saved) = Some loaded
      /\ value loaded = true
      /\ _chunks (store_after loaded) = chunks
      /\ _index (store_after loaded) = _index (store_after built)
      /\ _is_loaded (store_after loaded) = true.
Proof.
  intros encode db_dir chunks batch_size st st' fs Hne built saved.
  assert (exists index,
            store_after built
            = {| _index := Some index; _chunks := chunks;
                 _is_loaded := true |}) as [index Hbuilt].
  { subst built. unfold build_index.
    destruct chunks as [| c l]; [contradiction |]. simpl.
    eexists. reflexivity. }
  destruct (load_after_save db_dir (store_after built) st'
              (files_after built) index) as [loaded [Hload [Hval Hst]]].
  { rewrite Hbuilt. reflexivity. }
  exists loaded. subst saved. rewrite Hload, Hval, Hst, Hbuilt. simpl.
  repeat split; reflexivity.
Qed.

Lemma C2_index_round_trip_witness :
  exists loaded : Effect bool,
    load init
      (files_after
         (save "vector_db" three_passages
            (files_after
               (build_index unit_encode init no_files
                  [passage_a; passage_b; passage_c] 16))))
    = Some loaded
    /\ value loaded = true
    /\ _chunks (store_after loaded) = [passage_a; passage_b; passage_c]
    /\ _index (store_after loaded) = _index three_passages
    /\ _is_loaded (store_after loaded) = true.
Proof.
  apply (C2_index_round_trip unit_encode "vector_db"
           [passage_a; passage_b; passage_c] 16 init init no_files).
  discriminate.
Defined.

(** ** The pipeline: conversational questions *)

(** C10: on an initialised pipeline, a question whose normal form
    (lower case, stripped, trailing question marks, exclamation marks and
    full stops removed) is a greeting, an identity question, thanks or a
    request for help gets the canned payload of that intent, the first
    in this order that applies: the question as it was asked, the fixed
    answer and follow-ups of the intent (the greeting names the number
    of documents loaded), confidence 1, no citations and no sources;
    nothing is embedded and the index is not searched. *)
Theorem C10_conversational_bypasses_retrieval :
  forall (encode : list string -> Z -> list Vec)
         (faiss_search : FaissIndex -> Vec -> Z -> list (Q * Z))
         (llm_generate :
            LLMBackend -> string -> list Scored -> outcome Generated)
         (round4 : Q -> Q)
         (p : PolicyQAPipeline) (fs : Files) (question : string),
    _is_initialized p = true ->
    conversational question = true ->
    let q := normalise question in
    let doc_count :=
      match _vector_store p with
      | Some vs => List.length (doc_names vs)
      | None => 0%nat
      end in
    exists payload : Payload,
      ask encode faiss_search llm_generate round4 p fs question
      = (Returned payload, [])
      /\ Pipeline.question payload = question
      /\ confidence payload = 1
      /\ citations payload = ""
      /\ sources payload = []
      /\ existsb is_retrieval
           (snd (ask encode faiss_search llm_generate round4 p fs question))
         = false
      /\ (is_greeting q = true ->
          answer payload = greeting_answer doc_count
          /\ follow_ups payload
             = [ "What does this policy cover?";
                 "What are the general exclusions?";
                 "How do I make a claim?" ])
      /\ (is_greeting q = false -> mem q _IDENTITY_PATTERNS = true ->
          answer payload = identity_answer
          /\ follow_ups payload
             = [ "What documents are loaded?";
                 "What items are excluded from coverage?";
                 "What is the claims process?" ])
      /\ (is_greeting q = false -> mem q _IDENTITY_PATTERNS = false ->
          mem q _THANKS_PATTERNS = true ->
          answer payload
          = "You're welcome! Feel free to ask more questions about your policy anytime."
          /\ follow_ups payload = [])
      /\ (is_greeting q = false -> mem q _IDENTITY_PATTERNS = false ->
          mem q _THANKS_PATTERNS = false ->
          answer payload = help_answer
          /\ follow_ups payload
             = [ "What does this policy cover?";
                 "What are the general exclusions?";
                 "What is the excess amount?" ]).
Proof.
  intros encode faiss_search llm_generate round4 p fs question Hinit Hconv
    q doc_count.
  unfold conversational in Hconv. fold q in Hconv.
  unfold ask. rewrite Hinit. cbn [negb].
  unfold _detect_conversational. fold q.
  destruct (is_greeting q) eqn:Eg.
  - eexists. split; [reflexivity |].
    cbn [canned Pipeline.question answer citations sources confidence
         follow_ups snd existsb].
    repeat split; intros; try discriminate.
    subst doc_count. destruct (_vector_store p); reflexivity.
  - destruct (mem q _IDENTITY_PATTERNS) eqn:Ei.
    + eexists. split; [reflexivity |].
      cbn [canned Pipeline.question answer citations sources confidence
           follow_ups snd existsb].
      repeat split; intros; discriminate.
    + destruct (mem q _THANKS_PATTERNS) eqn:Et.
      * eexists. split; [reflexivity |].
        cbn [canned Pipeline.question answer citations sources confidence
             follow_ups snd existsb].
        repeat split; intros; discriminate.
      * destruct (mem q _HELP_PATTERNS) eqn:Eh; [| discriminate Hconv].
        eexists. split; [reflexivity |].
        cbn [canned Pipeline.question answer citations sources confidence
             follow_ups snd existsb].
        repeat split; intros; discriminate.
Qed.

Lemma C10_conversational_bypasses_retrieval_witness :
  let q := normalise "  Hey there! " in
  let doc_count :=
    match _vector_store ready_pipeline with
    | Some vs => List.length (doc_names vs)
    | None => 0%nat
    end in
  exists payload : Payload,
    ask unit_encode ranked_search (fun _ _ _ => Raised TypeError)
      (fun q => q) ready_pipeline no_files "  Hey there! "
    = (Returned payload, [])
    /\ Pipeline.question payload = "  Hey there! "
    /\ confidence payload = 1
    /\ citations payload = ""
    /\ sources payload = []
    /\ existsb is_retrieval
         (snd (ask unit_encode ranked_search (fun _ _ _ => Raised TypeError)
                 (fun q => q) ready_pipeline no_files "  Hey there! "))
       = false
    /\ (is_greeting q = true ->
        answer payload = greeting_answer doc_count
        /\ follow_ups payload
           = [ "What does this policy cover?";
               "What are the general exclusions?";
               "How do I make a claim?" ])
    /\ (is_greeting q = false -> mem q _IDENTITY_PATTERNS = true ->
        answer payload = identity_answer
        /\ follow_ups payload
           = [ "What documents are loaded?";
               "What items are excluded from coverage?";
               "What is the claims process?" ])
    /\ (is_greeting q = false -> mem q _IDENTITY_PATTERNS = false ->
        mem q _THANKS_PATTERNS = true ->
        answer payload
        = "You're welcome! Feel free to ask more questions about your policy anytime."
        /\ follow_ups payload = [])
    /\ (is_greeting q = false -> mem q _IDENTITY_PATTERNS = false ->
        mem q _THANKS_PATTERNS = false ->
        answer payload = help_answer
        /\ follow_ups payload
           = [ "What does this policy cover?";
               "What are the general exclusions?";
               "What is the excess amount?" ]).
Proof.
  apply (C10_conversational_bypasses_retrieval unit_encode ranked_search
           (fun _ _ _ => Raised TypeError) (fun q => q) ready_pipeline
           no_files "  Hey there! ").
  - reflexivity.
  - vm_compute. reflexivity.
Defined.

(** C10, as the specification states it, fails before [initialize]: a
    greeting is a conversational question, and on a pipeline that was
    not initialised [ask] raises instead of returning a payload. *)
Lemma C10_greeting_before_initialize_raises :
  conversational "hello" = true
  /\ ask unit_encode ranked_search (fun _ _ _ => Raised TypeError)
       (fun q => q) (new_pipeline "") no_files "hello"
     = (Raised
          (RuntimeError "Pipeline not initialized. Call initialize() first."),
        []).
Proof. split; vm_compute; reflexivity. Qed.

(** The payloads of a greeting and of thanks, in full. *)
Example ask_greeting_payload :
  fst (ask unit_encode ranked_search (fun _ _ _ => Raised TypeError)
         (fun q => q) ready_pipeline no_files "Hello")
  = Returned
      {| question := "Hello";
         answer :=
           "Hello! I'm your **Policy Q&A Assistant**. I have **1 policy document** loaded and ready to search.

Ask me anything about your insurance policies — for example:
- " ++ dq ++ "Is wear-and-tear covered?" ++ dq ++ "
- " ++ dq ++ "What is the excess for water damage?" ++ dq ++ "
- " ++ dq ++ "What definitions apply to Insured Person?" ++ dq ++ "

I'll find the relevant sections and cite the exact source.";
         citations := "";
         sources := [];
         confidence := 1;
         follow_ups :=
           [ "What does this policy cover?";
             "What are the general exclusions?";
             "How do I make a claim?" ] |}.
Proof. vm_compute. reflexivity. Qed.

Example ask_thanks_payload :
  fst (ask unit_encode ranked_search (fun _ _ _ => Raised TypeError)
         (fun q => q) ready_pipeline no_files "  Thank you!! ")
  = Returned
      {| question := "  Thank you!! ";
         answer :=
           "You're welcome! Feel free to ask more questions about your policy anytime.";
         citations := "";
         sources := [];
         confidence := 1;
         follow_ups := [] |}.
Proof. vm_compute. reflexivity. Qed.

(** A question of no conversational intent is not answered by
    [_detect_conversational], whatever the pipeline. *)
Lemma not_conversational_not_detected (p : PolicyQAPipeline)
    (question : string) :
  conversational question = false ->
  _detect_conversational p question = None.
Proof.
  unfold conversational, _detect_conversational. intros H.
  destruct (is_greeting (normalise question)); [discriminate H |].
  destruct (mem (normalise question) _IDENTITY_PATTERNS);
    [discriminate H |].
  destruct (mem (normalise question) _THANKS_PATTERNS); [discriminate H |].
  destruct (mem (normalise question) _HELP_PATTERNS); [discriminate H |].
  reflexivity.
Qed.

(** A question that is not conversational goes through retrieval: the
    question is embedded and the index searched. *)
Example ask_policy_question_retrieves :
  snd (ask unit_encode ranked_search
         (fun _ _ _ => Returned {| g_answer := ""; g_follow_ups := [] |})
         (fun q => q) ready_pipeline no_files "Is wear and tear covered?")
  = [Encoded ["Is wear and tear covered?"] 1; Searched 5].
Proof. vm_compute. reflexivity. Qed.

(** Before [initialize], [ask] raises whatever the question. *)
Lemma ask_before_initialize
    (encode : list string -> Z -> list Vec)
    (faiss_search : FaissIndex -> Vec -> Z -> list (Q * Z))
    (llm_generate : LLMBackend -> string -> list Scored -> outcome Generated)
    (round4 : Q -> Q) (p : PolicyQAPipeline) (fs : Files) (question : string) :
  _is_initialized p = false ->
  ask encode faiss_search llm_generate round4 p fs question
  = (Raised (RuntimeError "Pipeline not initialized. Call initialize() first."),
     []).
Proof. intros H. unfold ask. rewrite H. reflexivity. Qed.

(** ** Citations *)

Section CitationProperties.

Lemma string_app_assoc (a b c : string) :
  ((a ++ b) ++ c = a ++ (b ++ c))%string.
Proof. induction a as [| x a IH]; simpl; [reflexivity | rewrite IH; reflexivity]. Qed.

Lemma string_app_nil_r (a : string) : (a ++ "" = a)%string.
Proof. induction a as [| x a IH]; simpl; [reflexivity | rewrite IH; reflexivity]. Qed.

Lemma nonempty_true (s : string) : nonempty s = true <-> s <> "".
Proof. destruct s; simpl; split; congruence. Qed.

Lemma nonempty_false (s : string) : nonempty s = false <-> s = "".
Proof. destruct s; simpl; split; congruence. Qed.

Lemma occurs_in_refl (s : string) : occurs_in s s.
Proof. exists "", "". simpl. rewrite string_app_nil_r. reflexivity. Qed.

Lemma occurs_in_app_l (n a b : string) : occurs_in n a -> occurs_in n (a ++ b).
Proof.
  intros [x [y ->]]. exists x, (y ++ b)%string.
  rewrite !string_app_assoc. reflexivity.
Qed.

Lemma occurs_in_app_r (n a b : string) : occurs_in n b -> occurs_in n (a ++ b).
Proof.
  intros [x [y ->]]. exists (a ++ x)%string, y.
  rewrite !string_app_assoc. reflexivity.
Qed.

Lemma occurs_in_trans (a b c : string) :
  occurs_in a b -> occurs_in b c -> occurs_in a c.
Proof.
  intros [x [y ->]] [x' [y' ->]].
  exists (x' ++ x)%string, (y ++ y')%string.
  rewrite !string_app_assoc. reflexivity.
Qed.


Lemma prefix_occurs (n h : string) :
  String.prefix n h = true <-> exists after, h = (n ++ after)%string.
Proof.
  revert h. induction n as [| a n IH]; intros h.
  - split; [intros _; exists h; reflexivity | destruct h; reflexivity].
  - destruct h as [| b h]; simpl.
    + split; [discriminate | intros [x H]; discriminate H].
    + destruct (ascii_dec a b) as [-> | Hne].
      * rewrite IH. split; intros [x H]; exists x.
        -- rewrite H. reflexivity.
        -- inversion H. reflexivity.
      * split; [discriminate | intros [x H]; inversion H; congruence].
Qed.

(** [contains] decides [occurs_in]. *)
Lemma contains_occurs (n h : string) :
  contains n h = true <-> occurs_in n h.
Proof.
  induction h as [| b h IH].
  - cbn [contains]. rewrite orb_false_r, prefix_occurs. split.
    + intros [x H]. exists "", x. exact H.
    + intros [x [y H]]. destruct x; [exists y; exact H | discriminate H].
  - cbn [contains]. rewrite orb_true_iff, prefix_occurs, IH. split.
    + intros [[x H] | [x [y H]]].
      * exists "", x. exact H.
      * exists (String b x), y. rewrite H. reflexivity.
    + intros [x [y H]]. destruct x as [| x0 x].
      * left. exists y. exact H.
      * right. exists x, y. inversion H. reflexivity.
Qed.










End CitationProperties.



(** ** The answer composer: follow-up suggestions *)

Section FollowUpProperties.

Variable _no_answer_response : list Scored -> string -> string.
Variable _build_structured_answer : string -> string -> list Scored -> string.

(** Without any result the suggestions are the three fixed ones. *)
Lemma generate_no_context (prompt : string) :
  g_follow_ups
    (generate _no_answer_response _build_structured_answer prompt [])
  = [ "What does this policy cover?";
      "What are the general exclusions?";
      "How do I make a claim?" ].
Proof. reflexivity. Qed.

(** With results, the suggestions are those of [_generate_follow_ups]. *)
Lemma generate_with_context (prompt : string) (r : Scored)
    (rest : list Scored) :
  g_follow_ups
    (generate _no_answer_response _build_structured_answer prompt (r :: rest))
  = _generate_follow_ups (r :: rest) (lower (_extract_question prompt)).
Proof.
  unfold generate. cbn [is_nil].
  destruct (Qgtb (1 # 4) (max_score (r :: rest))); reflexivity.
Qed.

(** Never more than three suggestions. *)
Lemma generate_at_most_three (prompt : string) (context_chunks : list Scored) :
  (List.length
     (g_follow_ups
        (generate _no_answer_response _build_structured_answer prompt
           context_chunks)) <= 3)%nat.
Proof.
  destruct context_chunks as [| r rest].
  - rewrite generate_no_context. simpl. lia.
  - rewrite generate_with_context. unfold _generate_follow_ups.
    destruct (topic_loop _ _ _) as [f seen].
    rewrite length_firstn. lia.
Qed.

End FollowUpProperties.

(** The prompt that the pipeline builds carries the question through. *)
Example extract_broad_question :
  _extract_question broad_prompt = broad_question.
Proof. vm_compute. reflexivity. Qed.

(** C8 fails on the code: for a question that shares two keywords or more
    with four of the six generic suggestions, and a result whose section
    names no topic, [generate] returns two follow-ups, not three. *)
Theorem C8_follow_ups_can_be_fewer_than_three :
  forall (_no_answer_response : list Scored -> string -> string)
         (_build_structured_answer :
            string -> string -> list Scored -> string),
    g_follow_ups
      (generate _no_answer_response _build_structured_answer broad_prompt
         [(plain_passage, 1 # 2)])
    = [ "What additional optional covers are available?";
        "What are my obligations under this policy?" ].
Proof.
  intros. rewrite generate_with_context. vm_compute. reflexivity.
Qed.

(** ** The chunker: identifiers and order of emission *)

Section ChunkerOrder.

Variable keyword_order : list string.
Variables chunk_size chunk_overlap min_chunk_size : Z.

Lemma numbered_from_app (id : Z) (a b : list Chunk) :
  numbered_from id a ->
  numbered_from (id + Z.of_nat (List.length a)) b ->
  numbered_from id (a ++ b).
Proof.
  revert id. induction a as [| c a IH]; intros id Ha Hb; simpl in *.
  - rewrite Z.add_0_r in Hb. exact Hb.
  - destruct Ha as [Hc Ha]. split; [exact Hc |].
    apply IH; [exact Ha |].
    replace (id + 1 + Z.of_nat (List.length a))%Z
      with (id + Z.pos (Pos.of_succ_nat (List.length a)))%Z by lia.
    exact Hb.
Qed.

Lemma numbered_from_nth (id : Z) (l : list Chunk) (i : nat) (c : Chunk) :
  numbered_from id l -> nth_error l i = Some c ->
  chunk_id c = (id + Z.of_nat i)%Z.
Proof.
  revert id i. induction l as [| x l IH]; intros id i Hn Hi.
  - destruct i; discriminate Hi.
  - destruct Hn as [Hx Hl]. destruct i as [| i]; simpl in Hi.
    + inversion Hi; subst. lia.
    + rewrite (IH (id + 1)%Z i Hl Hi). lia.
Qed.

Lemma continues_refl (st : ChunkerState) : continues st st [].
Proof.
  unfold continues. rewrite app_nil_r. simpl.
  repeat split. lia.
Qed.

Lemma continues_trans (st1 st2 st3 : ChunkerState) (a b : list Chunk) :
  continues st1 st2 a -> continues st2 st3 b -> continues st1 st3 (a ++ b).
Proof.
  intros [Ha1 [Ha2 Ha3]] [Hb1 [Hb2 Hb3]]. unfold continues.
  rewrite Hb1, Ha1, app_assoc, length_app.
  split; [reflexivity |]. split.
  - apply numbered_from_app; [exact Ha2 |]. rewrite <- Ha3. exact Hb2.
  - lia.
Qed.

Lemma continues_well_numbered (st st' : ChunkerState) (new : list Chunk) :
  well_numbered st -> continues st st' new -> well_numbered st'.
Proof.
  intros [Hn Hid] [H1 [H2 H3]]. unfold well_numbered.
  rewrite H1, length_app. split.
  - apply numbered_from_app; [exact Hn |]. simpl. rewrite <- Hid. exact H2.
  - lia.
Qed.

(** The loop over the sub-chunks appends one chunk per text, numbered
    from the counter, on the page of the section. *)
Lemma emit_sub_chunks_spec (dn : string) (pg : Z) (lbl cl hp : string)
    (refs : list string) (sub_chunks : list string) (all : list Chunk)
    (id : Z) :
  exists new : list Chunk,
    emit_sub_chunks dn pg lbl cl hp refs sub_chunks all id
    = (all ++ new, (id + Z.of_nat (List.length new))%Z)
    /\ numbered_from id new
    /\ map page_and_text new = map (pair pg) sub_chunks.
Proof.
  unfold emit_sub_chunks.
  revert all id. induction sub_chunks as [| t l IH]; intros all id.
  - exists []. simpl. rewrite app_nil_r, Z.add_0_r. auto.
  - cbn [fold_left].
    destruct (IH (all ++
                    [{| text := t; doc_name := dn; page := pg;
                        section := lbl; clause_number := cl;
                        heading_path := hp; cross_references := refs;
                        chunk_id := id |}]) (id + 1)%Z)
      as [new [Heq [Hnum Hmap]]].
    eexists (_ :: new). rewrite Heq, <- app_assoc. cbn [app List.length].
    split; [f_equal; lia |].
    split; [split; [reflexivity | exact Hnum] |].
    cbn [map]. rewrite Hmap. reflexivity.
Qed.

Lemma chunk_section_continues (page : DocumentPage) (st : ChunkerState)
    (sec : Sec) :
  exists new : list Chunk,
    continues st
      (chunk_section keyword_order chunk_size chunk_overlap min_chunk_size
         page st sec) new
    /\ map page_and_text new
       = map (pair (page_num page))
           (section_texts chunk_size chunk_overlap min_chunk_size sec).
Proof.
  unfold chunk_section, section_texts.
  destruct (nonempty (section_text_of sec)); cbn [negb].
  - match goal with
    | |- context [emit_sub_chunks ?a ?b ?c ?d ?e ?f ?g ?h ?i] =>
        destruct (emit_sub_chunks_spec a b c d e f g h i)
          as [new [Heq [Hnum Hmap]]]
    end.
    exists new. rewrite Heq. unfold continues. simpl. auto.
  - exists []. split; [apply continues_refl | reflexivity].
Qed.

Lemma chunk_sections_continue (page : DocumentPage) (secs : list Sec)
    (st : ChunkerState) :
  exists new : list Chunk,
    continues st
      (fold_left
         (chunk_section keyword_order chunk_size chunk_overlap
            min_chunk_size page) secs st) new
    /\ map page_and_text new
       = map (pair (page_num page))
           (flat_map (section_texts chunk_size chunk_overlap min_chunk_size)
              secs).
Proof.
  revert st. induction secs as [| sec secs IH]; intros st.
  - exists []. split; [apply continues_refl | reflexivity].
  - cbn [fold_left flat_map].
    destruct (chunk_section_continues page st sec) as [a [Ha Hma]].
    destruct (IH (chunk_section keyword_order chunk_size chunk_overlap
                    min_chunk_size page st sec)) as [b [Hb Hmb]].
    exists (a ++ b). split; [eapply continues_trans; eassumption |].
    rewrite !map_app, Hma, Hmb. reflexivity.
Qed.

Lemma chunk_page_continues (st : ChunkerState) (page : DocumentPage) :
  exists new : list Chunk,
    continues st
      (chunk_page keyword_order chunk_size chunk_overlap min_chunk_size
         st page) new
    /\ map page_and_text new
       = page_texts chunk_size chunk_overlap min_chunk_size page.
Proof.
  unfold chunk_page, page_texts.
  destruct (dict_get (heading_stack st) (dp_doc_name page)).
  - apply chunk_sections_continue.
  - match goal with
    | |- context [fold_left ?f ?l ?s0] =>
        destruct (chunk_sections_continue page l s0) as [new [Hc Hm]]
    end.
    exists new. split; [exact Hc | exact Hm].
Qed.

Lemma chunk_pages_continue (pages : list DocumentPage) (st : ChunkerState) :
  exists new : list Chunk,
    continues st
      (fold_left
         (chunk_page keyword_order chunk_size chunk_overlap min_chunk_size)
         pages st) new
    /\ map page_and_text new
       = flat_map (page_texts chunk_size chunk_overlap min_chunk_size) pages.
Proof.
  revert st. induction pages as [| page pages IH]; intros st.
  - exists []. split; [apply continues_refl | reflexivity].
  - cbn [fold_left flat_map].
    destruct (chunk_page_continues st page) as [a [Ha Hma]].
    destruct (IH (chunk_page keyword_order chunk_size chunk_overlap
                    min_chunk_size st page)) as [b [Hb Hmb]].
    exists (a ++ b). split; [eapply continues_trans; eassumption |].
    rewrite map_app, Hma, Hmb. reflexivity.
Qed.

(** The chunks come in the order of the pages, then of the sections of a
    page, then of the sub-chunks of a section. *)
Lemma chunk_pages_order (pages : list DocumentPage) :
  map page_and_text
    (chunk_pages keyword_order chunk_size chunk_overlap min_chunk_size pages)
  = flat_map (page_texts chunk_size chunk_overlap min_chunk_size) pages.
Proof.
  unfold chunk_pages.
  destruct (chunk_pages_continue pages
              {| all_chunks := []; next_chunk_id := 0; heading_stack := [] |})
    as [new [[Hall _] Hmap]].
  rewrite Hall. exact Hmap.
Qed.

Lemma chunk_pages_numbered (pages : list DocumentPage) :
  numbered_from 0
    (chunk_pages keyword_order chunk_size chunk_overlap min_chunk_size pages).
Proof.
  unfold chunk_pages.
  destruct (chunk_pages_continue pages
              {| all_chunks := []; next_chunk_id := 0; heading_stack := [] |})
    as [new [[Hall [Hnum _]] _]].
  rewrite Hall. exact Hnum.
Qed.

End ChunkerOrder.

(** ** The chunker: the texts of the chunks *)

Section StripProperties.

Lemma ends_with_space_rstrip (s : string) :
  ends_with_space (rstrip_by isspace s) = false.
Proof.
  induction s as [| c s IH]; [reflexivity |].
  cbn [rstrip_by].
  destruct (isspace c) eqn:Ec; destruct (rstrip_by isspace s) eqn:Er;
    cbn [nonempty negb andb ends_with_space]; auto.
Qed.

Lemma ends_with_space_lstrip (s : string) :
  ends_with_space s = false ->
  ends_with_space (lstrip_by isspace s) = false.
Proof.
  induction s as [| c s IH]; intros H; [reflexivity |].
  cbn [lstrip_by]. destruct (isspace c) eqn:Ec; [| exact H].
  apply IH. cbn [ends_with_space] in H. destruct s; [congruence | exact H].
Qed.

Lemma starts_with_space_lstrip (s : string) :
  starts_with_space (lstrip_by isspace s) = false.
Proof.
  induction s as [| c s IH]; [reflexivity |].
  cbn [lstrip_by]. destruct (isspace c) eqn:Ec; [exact IH |].
  simpl. exact Ec.
Qed.

Lemma rstrip_fixed (s : string) :
  ends_with_space s = false -> rstrip_by isspace s = s.
Proof.
  induction s as [| c s IH]; intros H; [reflexivity |].
  cbn [rstrip_by]. cbn [ends_with_space] in H. destruct s as [| a s].
  - simpl. rewrite H. reflexivity.
  - rewrite (IH H). cbn [nonempty negb]. rewrite andb_false_r. reflexivity.
Qed.

Lemma lstrip_fixed (s : string) :
  starts_with_space s = false -> lstrip_by isspace s = s.
Proof. destruct s; simpl; [reflexivity | intros ->; reflexivity]. Qed.

Lemma ends_with_space_strip (s : string) : ends_with_space (strip s) = false.
Proof. apply ends_with_space_lstrip, ends_with_space_rstrip. Qed.

(** Stripping twice is stripping once. *)
Lemma strip_strip (s : string) : strip (strip s) = strip s.
Proof.
  unfold strip at 1. rewrite rstrip_fixed by apply ends_with_space_strip.
  apply lstrip_fixed. apply starts_with_space_lstrip.
Qed.

End StripProperties.

Section SentenceProperties.

Lemma occurs_in_cons (n h : string) (c : ascii) :
  occurs_in n h -> occurs_in n (String c h).
Proof. intros [x [y ->]]. exists (String c x), y. reflexivity. Qed.

Lemma Forall_occurs_in_cons (l : list string) (h : string) (c : ascii) :
  Forall (fun x => occurs_in x h) l ->
  Forall (fun x => occurs_in x (String c h)) l.
Proof.
  intros H. eapply Forall_impl; [| exact H].
  intros x Hx. apply occurs_in_cons. exact Hx.
Qed.

(** In a text that is not empty and does not end with white space, no
    piece of the split is empty. *)
Lemma sentence_scan_nonempty (s : string) :
  s <> "" -> ends_with_space s = false ->
  fst (fst (sentence_scan s)) <> ""
  /\ all_nonempty (snd (fst (sentence_scan s)))
  /\ fst (snd (sentence_scan s)) <> ""
  /\ all_nonempty (snd (snd (sentence_scan s))).
Proof.
  induction s as [| c s IH]; intros Hne Hend; [congruence |].
  cbn [sentence_scan]. cbn [ends_with_space] in Hend.
  destruct s as [| a s].
  - simpl. rewrite Hend, andb_false_r. simpl.
    repeat split; try discriminate; constructor.
  - destruct (IH ltac:(discriminate) Hend) as [Hp1 [Hp2 [Hq1 Hq2]]].
    destruct (sentence_scan (String a s)) as [p q].
    cbn [fst snd] in *.
    assert (fst (if is_end_mark c && starts_with_space (String a s)
                 then (String c "", fst q :: snd q)
                 else (String c (fst p), snd p)) <> ""
            /\ all_nonempty
                 (snd (if is_end_mark c && starts_with_space (String a s)
                       then (String c "", fst q :: snd q)
                       else (String c (fst p), snd p)))) as [Hh1 Hh2].
    { destruct (is_end_mark c && starts_with_space (String a s));
        cbn [fst snd]; split; try discriminate.
      - constructor; assumption.
      - assumption. }
    split; [exact Hh1 |]. split; [exact Hh2 |].
    destruct (isspace c); auto.
Qed.

Lemma split_sentences_nonempty (text : string) :
  text <> "" -> ends_with_space text = false ->
  all_nonempty (split_sentences text).
Proof.
  intros Hne Hend.
  destruct (sentence_scan_nonempty text Hne Hend) as [H1 [H2 _]].
  unfold split_sentences. constructor; assumption.
Qed.

(** Every piece of the split occurs in the text. *)
Lemma sentence_scan_occurs (s : string) :
  (exists rest, s = (fst (fst (sentence_scan s)) ++ rest)%string)
  /\ Forall (fun x => occurs_in x s) (snd (fst (sentence_scan s)))
  /\ occurs_in (fst (snd (sentence_scan s))) s
  /\ Forall (fun x => occurs_in x s) (snd (snd (sentence_scan s))).
Proof.
  induction s as [| c s IH].
  - simpl. repeat split; try constructor.
    + exists "". reflexivity.
    + exists "", "". reflexivity.
  - destruct IH as [[rest Hp1] [Hp2 [Hq1 Hq2]]].
    cbn [sentence_scan]. destruct (sentence_scan s) as [p q].
    cbn [fst snd] in *.
    assert ((exists rest',
               String c s
               = (fst (if is_end_mark c && starts_with_space s
                       then (String c "", fst q :: snd q)
                       else (String c (fst p), snd p)) ++ rest')%string)
            /\ Forall (fun x => occurs_in x (String c s))
                 (snd (if is_end_mark c && starts_with_space s
                       then (String c "", fst q :: snd q)
                       else (String c (fst p), snd p)))) as [Hh1 Hh2].
    { destruct (is_end_mark c && starts_with_space s); cbn [fst snd]; split.
      - exists s. reflexivity.
      - constructor; [apply occurs_in_cons; exact Hq1 |].
        apply Forall_occurs_in_cons. exact Hq2.
      - exists rest. simpl. rewrite <- Hp1. reflexivity.
      - apply Forall_occurs_in_cons. exact Hp2. }
    split; [exact Hh1 |]. split; [exact Hh2 |].
    destruct (isspace c).
    + split; [apply occurs_in_cons; exact Hq1 |].
      apply Forall_occurs_in_cons. exact Hq2.
    + split; [| exact Hh2].
      destruct Hh1 as [rest' Hr]. exists "", rest'. exact Hr.
Qed.

Lemma split_sentences_occur (text s : string) :
  In s (split_sentences text) -> occurs_in s text.
Proof.
  destruct (sentence_scan_occurs text) as [[rest H1] [H2 _]].
  unfold split_sentences. intros [<- | Hin].
  - exists "", rest. exact H1.
  - rewrite Forall_forall in H2. apply H2. exact Hin.
Qed.

End SentenceProperties.

Section SubChunkProperties.

Variables chunk_size chunk_overlap min_chunk_size : Z.

Lemma string_length_app (a b : string) :
  length (a ++ b) = (length a + length b)%nat.
Proof. induction a as [| c a IH]; simpl; [reflexivity | rewrite IH; reflexivity]. Qed.

Lemma tokens_nonneg (s : string) : (0 <= _estimate_tokens s)%Z.
Proof. unfold _estimate_tokens. apply Z.div_pos; lia. Qed.

Lemma tokens_app_l (a b : string) :
  (_estimate_tokens a <= _estimate_tokens (a ++ b))%Z.
Proof.
  unfold _estimate_tokens. rewrite string_length_app.
  apply Z.div_le_mono; lia.
Qed.

(** The estimates of two texts add up to no more than the estimate of
    the texts joined by a separator. *)
Lemma tokens_joined (a sep b : string) :
  (_estimate_tokens a + _estimate_tokens b
   <= _estimate_tokens (a ++ sep ++ b))%Z.
Proof.
  unfold _estimate_tokens. rewrite !string_length_app.
  rewrite !Nat2Z.inj_add.
  pose proof (Z.mul_div_le (Z.of_nat (length a)) 4 ltac:(lia)).
  pose proof (Z.mul_div_le (Z.of_nat (length b)) 4 ltac:(lia)).
  apply Z.div_le_lower_bound; lia.
Qed.

Lemma total_tokens_nonneg (l : list string) : (0 <= total_tokens l)%Z.
Proof.
  induction l as [| s l IH]; simpl; [lia |].
  pose proof (tokens_nonneg s). lia.
Qed.

Lemma total_tokens_app (a b : list string) :
  total_tokens (a ++ b) = (total_tokens a + total_tokens b)%Z.
Proof. induction a as [| s a IH]; simpl; [reflexivity | rewrite IH; lia]. Qed.

Lemma total_tokens_rev (l : list string) :
  total_tokens (rev l) = total_tokens l.
Proof.
  induction l as [| s l IH]; simpl; [reflexivity |].
  rewrite total_tokens_app, IH. simpl. lia.
Qed.

Lemma join_cons (sep x y : string) (rest : list string) :
  join sep (x :: y :: rest) = (x ++ sep ++ join sep (y :: rest))%string.
Proof. reflexivity. Qed.

Lemma join_nonempty (sep : string) (l : list string) :
  l <> [] -> all_nonempty l -> join sep l <> "".
Proof.
  intros Hl Hne. destruct l as [| x [| y rest]]; [congruence | |].
  - inversion Hne; assumption.
  - rewrite join_cons. inversion Hne as [| ? ? Hx _]; subst.
    destruct x; [congruence | discriminate].
Qed.

Lemma join_occurs (sep s : string) (l : list string) :
  In s l -> occurs_in s (join sep l).
Proof.
  induction l as [| x l IH]; intros Hin; [contradiction |].
  destruct l as [| y rest].
  - destruct Hin as [<- | []]. apply occurs_in_refl.
  - rewrite join_cons. destruct Hin as [<- | Hin].
    + apply occurs_in_app_l, occurs_in_refl.
    + do 2 apply occurs_in_app_r. apply IH. exact Hin.
Qed.

Lemma total_tokens_join (l : list string) :
  (total_tokens l <= _estimate_tokens (join " " l))%Z.
Proof.
  induction l as [| x l IH]; [simpl; pose proof (tokens_nonneg ""); lia |].
  destruct l as [| y rest].
  - simpl. lia.
  - rewrite join_cons. cbn [total_tokens] in *.
    pose proof (tokens_joined x " " (join " " (y :: rest))). lia.
Qed.

(** The overlap is made of sentences of the chunk just flushed. *)
Lemma overlap_loop_incl (rs : list string) (t : Z) (acc : list string)
    (s : string) :
  In s (overlap_loop chunk_overlap rs t acc) -> In s rs \/ In s acc.
Proof.
  revert t acc. induction rs as [| r rs IH]; intros t acc Hin; simpl in Hin.
  - right. exact Hin.
  - destruct (t + _estimate_tokens r >=? chunk_overlap)%Z.
    + right. exact Hin.
    + destruct (IH _ _ Hin) as [H | [<- | H]]; simpl; auto.
Qed.

(** When the sentences together stay under the overlap, the overlap is
    the whole chunk. *)
Lemma overlap_loop_all (rs : list string) (t : Z) (acc : list string) :
  (t + total_tokens rs < chunk_overlap)%Z ->
  overlap_loop chunk_overlap rs t acc = rev rs ++ acc.
Proof.
  revert t acc. induction rs as [| r rs IH]; intros t acc H; simpl in *.
  - reflexivity.
  - pose proof (total_tokens_nonneg rs).
    destruct (t + _estimate_tokens r >=? chunk_overlap)%Z eqn:E; [lia |].
    rewrite IH by lia. rewrite <- app_assoc. reflexivity.
Qed.

Lemma overlap_of_small_chunk (l : list string) :
  (_estimate_tokens (join " " l) < chunk_overlap)%Z ->
  overlap_loop chunk_overlap (rev l) 0 [] = l.
Proof.
  intros H. rewrite overlap_loop_all.
  - rewrite rev_involutive, app_nil_r. reflexivity.
  - rewrite total_tokens_rev. pose proof (total_tokens_join l). lia.
Qed.

Lemma is_nil_false {A : Type} (l : list A) : is_nil l = false <-> l <> [].
Proof. destruct l; simpl; split; congruence. Qed.

Lemma is_nil_true {A : Type} (l : list A) : is_nil l = true <-> l = [].
Proof. destruct l; simpl; split; congruence. Qed.

(** *** No chunk is empty *)

Lemma sub_chunk_step_nonempty (st : SubChunkState) (x : string) :
  all_nonempty (chunks st) -> all_nonempty (current_chunk st) -> x <> "" ->
  all_nonempty (chunks (sub_chunk_step chunk_size chunk_overlap min_chunk_size st x))
  /\ all_nonempty (current_chunk (sub_chunk_step chunk_size chunk_overlap min_chunk_size st x)).
Proof.
  intros Hc Hcur Hx. unfold sub_chunk_step.
  destruct ((current_tokens st + _estimate_tokens x >? chunk_size)%Z
            && negb (is_nil (current_chunk st))) eqn:E; cbn [chunks current_chunk].
  - apply andb_true_iff in E. destruct E as [_ E].
    apply negb_true_iff, is_nil_false in E. split.
    + destruct (_estimate_tokens (join " " (current_chunk st))
                >=? min_chunk_size)%Z; [| exact Hc].
      apply Forall_app. split; [exact Hc |].
      constructor; [| constructor]. apply join_nonempty; assumption.
    + apply Forall_app. split; [| constructor; [exact Hx | constructor]].
      apply Forall_forall. intros s Hs.
      apply overlap_loop_incl in Hs. destruct Hs as [Hs | []].
      apply in_rev in Hs. unfold all_nonempty in Hcur.
      rewrite Forall_forall in Hcur. apply Hcur. exact Hs.
  - split; [exact Hc |].
    apply Forall_app. split; [exact Hcur | constructor; [exact Hx | constructor]].
Qed.

Lemma sub_chunk_loop_nonempty (sentences : list string) (st : SubChunkState) :
  all_nonempty sentences ->
  all_nonempty (chunks st) -> all_nonempty (current_chunk st) ->
  all_nonempty (chunks (fold_left (sub_chunk_step chunk_size chunk_overlap min_chunk_size)
             sentences st))
  /\ all_nonempty (current_chunk (fold_left (sub_chunk_step chunk_size chunk_overlap min_chunk_size)
             sentences st)).
Proof.
  revert st. induction sentences as [| x l IH]; intros st Hs Hc Hcur.
  - simpl. auto.
  - inversion Hs as [| ? ? Hx Hl]; subst. cbn [fold_left].
    destruct (sub_chunk_step_nonempty st x Hc Hcur Hx) as [H1 H2].
    apply IH; assumption.
Qed.

Lemma append_to_last_spec (l : list string) (t : string) :
  l <> [] ->
  exists before last,
    l = before ++ [last]
    /\ append_to_last l t = before ++ [(last ++ " " ++ t)%string].
Proof.
  intros Hl. unfold append_to_last.
  destruct (rev l) as [| last before] eqn:E.
  - apply (f_equal (@rev string)) in E. rewrite rev_involutive in E.
    simpl in E. congruence.
  - exists (rev before), last. split; [| reflexivity].
    apply (f_equal (@rev string)) in E. rewrite rev_involutive in E.
    exact E.
Qed.

Lemma sub_chunk_finish_nonempty (st : SubChunkState) :
  all_nonempty (chunks st) -> all_nonempty (current_chunk st) ->
  all_nonempty (sub_chunk_finish min_chunk_size st).
Proof.
  intros Hc Hcur. unfold sub_chunk_finish.
  destruct (is_nil (current_chunk st)) eqn:En; cbn [negb]; [exact Hc |].
  apply is_nil_false in En.
  pose proof (join_nonempty " " _ En Hcur) as Hj.
  destruct ((_estimate_tokens (join " " (current_chunk st))
             >=? min_chunk_size)%Z || is_nil (chunks st)).
  - apply Forall_app. split; [exact Hc | constructor; [exact Hj | constructor]].
  - destruct (is_nil (chunks st)) eqn:Ec; cbn [negb]; [exact Hc |].
    apply is_nil_false in Ec.
    destruct (append_to_last_spec _ (join " " (current_chunk st)) Ec)
      as [before [last [Hl ->]]].
    rewrite Hl in Hc. apply Forall_app in Hc. destruct Hc as [Hb Hlast].
    apply Forall_app. split; [exact Hb |].
    constructor; [| constructor].
    inversion Hlast; subst. destruct last; [congruence | discriminate].
Qed.

(** On a text that is not empty and does not end with white space, every
    sub-chunk is a text that is not empty. *)
Lemma _sub_chunk_text_nonempty (text : string) :
  text <> "" -> ends_with_space text = false ->
  all_nonempty
    (_sub_chunk_text text chunk_size chunk_overlap min_chunk_size).
Proof.
  intros Hne Hend. unfold _sub_chunk_text.
  destruct (_estimate_tokens text <=? chunk_size)%Z.
  - destruct (_estimate_tokens text >=? min_chunk_size)%Z;
      [constructor; [exact Hne | constructor] |].
    destruct (nonempty (strip text));
      [constructor; [exact Hne | constructor] | constructor].
  - pose proof (split_sentences_nonempty text Hne Hend) as Hs.
    destruct (sub_chunk_loop_nonempty (split_sentences text)
                {| chunks := []; current_chunk := []; current_tokens := 0 |}
                Hs (Forall_nil _) (Forall_nil _)) as [H1 H2].
    apply sub_chunk_finish_nonempty; assumption.
Qed.

(** *** The token floor *)

Lemma sub_chunk_step_floor (st : SubChunkState) (x : string) :
  Forall (fun t => (min_chunk_size <= _estimate_tokens t)%Z) (chunks st) ->
  Forall (fun t => (min_chunk_size <= _estimate_tokens t)%Z)
         (chunks (sub_chunk_step chunk_size chunk_overlap min_chunk_size st x)).
Proof.
  intros Hc. unfold sub_chunk_step.
  destruct ((current_tokens st + _estimate_tokens x >? chunk_size)%Z
            && negb (is_nil (current_chunk st))); cbn [chunks]; [| exact Hc].
  destruct (_estimate_tokens (join " " (current_chunk st))
            >=? min_chunk_size)%Z eqn:E; [| exact Hc].
  apply Forall_app. split; [exact Hc |].
  constructor; [lia | constructor].
Qed.

Lemma sub_chunk_loop_floor (sentences : list string) (st : SubChunkState) :
  Forall (fun t => (min_chunk_size <= _estimate_tokens t)%Z) (chunks st) ->
  Forall (fun t => (min_chunk_size <= _estimate_tokens t)%Z)
         (chunks (fold_left (sub_chunk_step chunk_size chunk_overlap min_chunk_size)
             sentences st)).
Proof.
  revert st. induction sentences as [| x l IH]; intros st Hc; [exact Hc |].
  cbn [fold_left]. apply IH. apply sub_chunk_step_floor. exact Hc.
Qed.

Lemma sub_chunk_finish_floor (st : SubChunkState) :
  Forall (fun t => (min_chunk_size <= _estimate_tokens t)%Z) (chunks st) ->
  floor_or_lone min_chunk_size (sub_chunk_finish min_chunk_size st).
Proof.
  intros Hc. unfold sub_chunk_finish, floor_or_lone.
  destruct (is_nil (current_chunk st)) eqn:En; cbn [negb];
    [right; exact Hc |].
  destruct (_estimate_tokens (join " " (current_chunk st))
            >=? min_chunk_size)%Z eqn:E; cbn [orb].
  - right. apply Forall_app. split; [exact Hc |].
    constructor; [lia | constructor].
  - destruct (is_nil (chunks st)) eqn:Ec; cbn [negb].
    + apply is_nil_true in Ec. rewrite Ec. left. simpl. lia.
    + apply is_nil_false in Ec.
      destruct (append_to_last_spec _ (join " " (current_chunk st)) Ec)
        as [before [last [Hl ->]]].
      rewrite Hl in Hc. apply Forall_app in Hc. destruct Hc as [Hb Hlast].
      right. apply Forall_app. split; [exact Hb |].
      constructor; [| constructor].
      inversion Hlast; subst.
      pose proof (tokens_app_l last (" " ++ join " " (current_chunk st))).
      lia.
Qed.

Lemma _sub_chunk_text_floor (text : string) :
  floor_or_lone min_chunk_size
    (_sub_chunk_text text chunk_size chunk_overlap min_chunk_size).
Proof.
  unfold _sub_chunk_text.
  destruct (_estimate_tokens text <=? chunk_size)%Z.
  - left. destruct (_estimate_tokens text >=? min_chunk_size)%Z;
      [simpl; lia |].
    destruct (nonempty (strip text)); simpl; lia.
  - apply sub_chunk_finish_floor, sub_chunk_loop_floor. constructor.
Qed.

(** *** The trailing remainder *)

(** After the loop, a remainder under the minimum joins the last chunk
    flushed, when there is one. *)
Lemma sub_chunk_finish_merges (st : SubChunkState) :
  current_chunk st <> [] -> chunks st <> [] ->
  (_estimate_tokens (join " " (current_chunk st)) < min_chunk_size)%Z ->
  exists before last,
    chunks st = before ++ [last]
    /\ sub_chunk_finish min_chunk_size st
       = before ++ [(last ++ " " ++ join " " (current_chunk st))%string].
Proof.
  intros Hcur Hc Hsmall. unfold sub_chunk_finish.
  apply is_nil_false in Hcur. rewrite Hcur. cbn [negb].
  pose proof Hc as Hc'. apply is_nil_false in Hc'. rewrite Hc'.
  destruct (_estimate_tokens (join " " (current_chunk st))
            >=? min_chunk_size)%Z eqn:E; [lia |].
  cbn [orb negb]. apply append_to_last_spec. exact Hc.
Qed.

(** *** No sentence is lost when the overlap is no less than the minimum *)

Lemma covered_step (st : SubChunkState) (x s : string) :
  (min_chunk_size <= chunk_overlap)%Z ->
  covered st s \/ s = x -> covered (sub_chunk_step chunk_size chunk_overlap min_chunk_size st x) s.
Proof.
  intros Hcfg Hs. unfold sub_chunk_step, covered.
  destruct ((current_tokens st + _estimate_tokens x >? chunk_size)%Z
            && negb (is_nil (current_chunk st)));
    cbn [chunks current_chunk].
  - destruct (_estimate_tokens (join " " (current_chunk st))
              >=? min_chunk_size)%Z eqn:E.
    + destruct Hs as [[[t [Ht Ho]] | Hin] | ->].
      * left. exists t. split; [apply in_or_app; left; exact Ht | exact Ho].
      * left. exists (join " " (current_chunk st)).
        split; [apply in_or_app; right; left; reflexivity |].
        apply join_occurs. exact Hin.
      * right. apply in_or_app. right. left. reflexivity.
    + rewrite overlap_of_small_chunk by lia.
      destruct Hs as [[H | Hin] | ->].
      * left. exact H.
      * right. apply in_or_app. left. exact Hin.
      * right. apply in_or_app. right. left. reflexivity.
  - destruct Hs as [[H | Hin] | ->].
    + left. exact H.
    + right. apply in_or_app. left. exact Hin.
    + right. apply in_or_app. right. left. reflexivity.
Qed.

Lemma covered_loop (sentences : list string) (st : SubChunkState)
    (s : string) :
  (min_chunk_size <= chunk_overlap)%Z ->
  covered st s \/ In s sentences ->
  covered (fold_left (sub_chunk_step chunk_size chunk_overlap min_chunk_size)
             sentences st) s.
Proof.
  intros Hcfg. revert st.
  induction sentences as [| x l IH]; intros st Hs; cbn [fold_left].
  - destruct Hs as [H | []]. exact H.
  - apply IH. destruct Hs as [H | [<- | H]].
    + left. apply covered_step; auto.
    + left. apply covered_step; auto.
    + right. exact H.
Qed.

Lemma covered_finish (st : SubChunkState) (s : string) :
  covered st s ->
  exists t, In t (sub_chunk_finish min_chunk_size st) /\ occurs_in s t.
Proof.
  intros Hs. unfold sub_chunk_finish.
  destruct (is_nil (current_chunk st)) eqn:En; cbn [negb].
  - apply is_nil_true in En. destruct Hs as [H | Hin]; [exact H |].
    rewrite En in Hin. contradiction.
  - assert (exists t,
              In t (chunks st ++ [join " " (current_chunk st)])
              /\ occurs_in s t) as Happended.
    { destruct Hs as [[t [Ht Ho]] | Hin].
      - exists t. split; [apply in_or_app; left; exact Ht | exact Ho].
      - exists (join " " (current_chunk st)).
        split; [apply in_or_app; right; left; reflexivity |].
        apply join_occurs. exact Hin. }
    destruct (_estimate_tokens (join " " (current_chunk st))
              >=? min_chunk_size)%Z; cbn [orb]; [exact Happended |].
    destruct (is_nil (chunks st)) eqn:Ec; cbn [negb]; [exact Happended |].
    apply is_nil_false in Ec.
    destruct (append_to_last_spec _ (join " " (current_chunk st)) Ec)
      as [before [last [Hl ->]]].
    destruct Hs as [[t [Ht Ho]] | Hin].
    + rewrite Hl in Ht. apply in_app_or in Ht. destruct Ht as [Ht | [<- | []]].
      * exists t. split; [apply in_or_app; left; exact Ht | exact Ho].
      * eexists. split; [apply in_or_app; right; left; reflexivity |].
        apply occurs_in_app_l. exact Ho.
    + eexists. split; [apply in_or_app; right; left; reflexivity |].
      do 2 apply occurs_in_app_r. apply join_occurs. exact Hin.
Qed.

(** With an overlap no smaller than the minimum, every sentence of a
    text that is not blank occurs in one of its sub-chunks. *)
Lemma _sub_chunk_text_no_loss (text : string) :
  (min_chunk_size <= chunk_overlap)%Z ->
  nonempty (strip text) = true ->
  no_sentence_lost text
    (_sub_chunk_text text chunk_size chunk_overlap min_chunk_size).
Proof.
  intros Hcfg Hne s Hs. unfold _sub_chunk_text.
  destruct (_estimate_tokens text <=? chunk_size)%Z.
  - exists text. rewrite Hne.
    split; [| apply split_sentences_occur; exact Hs].
    destruct (_estimate_tokens text >=? min_chunk_size)%Z; left; reflexivity.
  - apply covered_finish, covered_loop; [exact Hcfg |]. right. exact Hs.
Qed.

End SubChunkProperties.

Section ChunkerTexts.

Variable keyword_order : list string.
Variables chunk_size chunk_overlap min_chunk_size : Z.

Lemma section_texts_nonempty (sec : Sec) :
  all_nonempty (section_texts chunk_size chunk_overlap min_chunk_size sec).
Proof.
  unfold section_texts.
  destruct (nonempty (section_text_of sec)) eqn:E; [| constructor].
  apply _sub_chunk_text_nonempty.
  - apply nonempty_true. exact E.
  - unfold section_text_of. apply ends_with_space_strip.
Qed.

Lemma section_texts_floor (sec : Sec) :
  floor_or_lone min_chunk_size
    (section_texts chunk_size chunk_overlap min_chunk_size sec).
Proof.
  unfold section_texts. destruct (nonempty (section_text_of sec)).
  - apply _sub_chunk_text_floor.
  - left. simpl. lia.
Qed.

Lemma section_texts_no_loss (sec : Sec) :
  (min_chunk_size <= chunk_overlap)%Z ->
  nonempty (section_text_of sec) = true ->
  no_sentence_lost (section_text_of sec)
    (section_texts chunk_size chunk_overlap min_chunk_size sec).
Proof.
  intros Hcfg Hne. unfold section_texts. rewrite Hne.
  apply _sub_chunk_text_no_loss; [exact Hcfg |].
  unfold section_text_of in *. rewrite strip_strip. exact Hne.
Qed.

Lemma chunk_pages_texts_nonempty (pages : list DocumentPage) :
  Forall (fun c => text c <> "")
    (chunk_pages keyword_order chunk_size chunk_overlap min_chunk_size pages).
Proof.
  apply Forall_forall. intros c Hc.
  assert (In (page_and_text c)
            (flat_map (page_texts chunk_size chunk_overlap min_chunk_size)
               pages)) as Hin.
  { rewrite <- (chunk_pages_order keyword_order). apply in_map. exact Hc. }
  apply in_flat_map in Hin. destruct Hin as [pg [_ Hin]].
  unfold page_texts in Hin. apply in_map_iff in Hin.
  destruct Hin as [t [Ht Hin]]. apply in_flat_map in Hin.
  destruct Hin as [sec [_ Hin]].
  pose proof (section_texts_nonempty sec) as Hne.
  unfold all_nonempty in Hne. rewrite Forall_forall in Hne.
  unfold page_and_text in Ht. injection Ht as _ Htext.
  rewrite <- Htext. apply Hne. exact Hin.
Qed.

Lemma numbered_from_lower (id : Z) (l : list Chunk) (x : Z) :
  numbered_from id l -> In x (map chunk_id l) -> (id <= x)%Z.
Proof.
  revert id. induction l as [| c l IH]; intros id Hn Hx; [contradiction |].
  destruct Hn as [Hc Hl]. destruct Hx as [<- | Hx]; [lia |].
  specialize (IH (id + 1)%Z Hl Hx). lia.
Qed.

Lemma numbered_from_NoDup (id : Z) (l : list Chunk) :
  numbered_from id l -> NoDup (map chunk_id l).
Proof.
  revert id. induction l as [| c l IH]; intros id Hn; [constructor |].
  destruct Hn as [Hc Hl]. cbn [map]. constructor.
  - intros Hin. pose proof (numbered_from_lower _ _ _ Hl Hin). lia.
  - apply (IH (id + 1)%Z). exact Hl.
Qed.

End ChunkerTexts.

(** C6: the chunks that [chunk_pages] returns carry the identifiers 0, 1,
    2, ... in the order of emission, hence identifiers that are unique
    and strictly increasing; the order of emission is the order of the
    pages, then of the sections of a page, then of the sub-chunks of a
    section; and the text of every chunk is not empty. This holds for
    every sequence of pages, empty pages included. *)
Theorem C6_chunk_ids_and_texts :
  forall (keyword_order : list string)
         (chunk_size chunk_overlap min_chunk_size : Z)
         (pages : list DocumentPage),
    let out :=
      chunk_pages keyword_order chunk_size chunk_overlap min_chunk_size
        pages in
    (forall (i : nat) (c : Chunk),
        nth_error out i = Some c -> chunk_id c = Z.of_nat i)
    /\ (forall (i j : nat) (ci cj : Chunk),
          (i < j)%nat ->
          nth_error out i = Some ci -> nth_error out j = Some cj ->
          (chunk_id ci < chunk_id cj)%Z)
    /\ NoDup (map chunk_id out)
    /\ map page_and_text out
       = flat_map (page_texts chunk_size chunk_overlap min_chunk_size) pages
    /\ Forall (fun c => text c <> "") out.
Proof.
  intros kw cs co mn pages out.
  pose proof (chunk_pages_numbered kw cs co mn pages) as Hnum.
  fold out in Hnum.
  split.
  { intros i c Hi. rewrite (numbered_from_nth 0 out i c Hnum Hi). lia. }
  split.
  { intros i j ci cj Hij Hi Hj.
    rewrite (numbered_from_nth 0 out i ci Hnum Hi),
            (numbered_from_nth 0 out j cj Hnum Hj). lia. }
  split; [exact (numbered_from_NoDup 0 out Hnum) |].
  split; [apply chunk_pages_order | apply chunk_pages_texts_nonempty].
Qed.

Lemma C6_chunk_ids_and_texts_witness :
  exists c : Chunk,
    nth_error
      (chunk_pages SECTION_KEYWORDS CHUNK_SIZE CHUNK_OVERLAP MIN_CHUNK_SIZE
         [headed_page; remark_page]) 3 = Some c
    /\ chunk_id c = 3%Z
    /\ text c = remark_text.
Proof.
  eexists. split; [vm_compute; reflexivity |].
  split; [| reflexivity].
  apply (proj1 (C6_chunk_ids_and_texts SECTION_KEYWORDS CHUNK_SIZE
                  CHUNK_OVERLAP MIN_CHUNK_SIZE [headed_page; remark_page])
           3%nat).
  vm_compute. reflexivity.
Defined.

(** With the configuration of [config.py] the two pages give four chunks:
    the lines before the first heading, one chunk per heading, and the
    page without a heading. *)
Example chunk_two_pages :
  map (fun c => (chunk_id c, page c, clause_number c, section c))
    (chunk_pages SECTION_KEYWORDS CHUNK_SIZE CHUNK_OVERLAP MIN_CHUNK_SIZE
       [headed_page; remark_page])
  = [ (0, 3, "", ""); (1, 3, "1", "1. General");
      (2, 3, "1.1", "Exclusions"); (3, 1, "", "") ]%Z.
Proof. vm_compute. reflexivity. Qed.

(** C3 (as amended): the chunks of [chunk_pages] are, section by section,
    the sub-chunks of the text of the section; every chunk of a section
    has [min_chunk_size] tokens or more (a token being four characters)
    unless it is the only chunk of its section; a remainder under the
    minimum that is left after the last sentence joins the last chunk
    flushed, when there is one, so that it is neither emitted alone nor
    dropped; and when [chunk_overlap] is no smaller than
    [min_chunk_size], every sentence of a section occurs in a chunk
    emitted for it. *)
Theorem C3_token_floor_and_merge :
  forall (keyword_order : list string)
         (chunk_size chunk_overlap min_chunk_size : Z)
         (pages : list DocumentPage),
    map page_and_text
      (chunk_pages keyword_order chunk_size chunk_overlap min_chunk_size
         pages)
    = flat_map (page_texts chunk_size chunk_overlap min_chunk_size) pages
    /\ (forall sec : Sec,
          floor_or_lone min_chunk_size
            (section_texts chunk_size chunk_overlap min_chunk_size sec))
    /\ (forall st : SubChunkState,
          current_chunk st <> [] -> chunks st <> [] ->
          (_estimate_tokens (join " " (current_chunk st))
           < min_chunk_size)%Z ->
          exists before last,
            chunks st = before ++ [last]
            /\ sub_chunk_finish min_chunk_size st
               = before
                 ++ [(last ++ " " ++ join " " (current_chunk st))%string])
    /\ ((min_chunk_size <= chunk_overlap)%Z ->
        forall sec : Sec,
          nonempty (section_text_of sec) = true ->
          no_sentence_lost (section_text_of sec)
            (section_texts chunk_size chunk_overlap min_chunk_size sec)).
Proof.
  intros kw cs co mn pages.
  split; [apply chunk_pages_order |].
  split; [intros sec; apply section_texts_floor |].
  split; [intros st; apply sub_chunk_finish_merges |].
  intros Hcfg sec Hne. apply section_texts_no_loss; assumption.
Qed.

Lemma C3_token_floor_and_merge_witness :
  no_sentence_lost (section_text_of remark_section)
    (section_texts 10 5 3 remark_section)
  /\ exists before last,
       ["The insurer covers accidental damage to the contents."]
       = before ++ [last]
       /\ sub_chunk_finish 3
            {| chunks :=
                 ["The insurer covers accidental damage to the contents."];
               current_chunk := ["See above."]; current_tokens := 2 |}
          = before ++ [(last ++ " " ++ "See above.")%string].
Proof.
  destruct (C3_token_floor_and_merge SECTION_KEYWORDS 10 5 3 [remark_page])
    as [_ [_ [Hmerge Hkeep]]].
  split.
  - apply Hkeep; [lia | reflexivity].
  - apply (Hmerge
             {| chunks :=
                  ["The insurer covers accidental damage to the contents."];
                current_chunk := ["See above."]; current_tokens := 2 |}).
    + discriminate.
    + discriminate.
    + vm_compute. reflexivity.
Defined.

(** With an overlap of five tokens the short remark of the page opens the
    second chunk. *)
Example remark_kept_as_overlap :
  map text (chunk_pages SECTION_KEYWORDS 10 5 3 [remark_page])
  = [ "The insurer covers accidental damage to the contents.";
      "See above. Loss caused by wear and tear is excluded." ].
Proof. vm_compute. reflexivity. Qed.

(** C3, as the specification states it, fails: without overlap, the short
    remark (two tokens, under the minimum of three) is flushed when a
    chunk precedes it; it is not merged into that chunk, and it occurs
    in no chunk at all. *)
Lemma C3_fragment_dropped_despite_predecessor :
  map text (chunk_pages SECTION_KEYWORDS 10 0 3 [remark_page])
  = [ "The insurer covers accidental damage to the contents.";
      "Loss caused by wear and tear is excluded." ]
  /\ In "See above." (split_sentences remark_text)
  /\ (_estimate_tokens "See above." < 3)%Z
  /\ ~ no_sentence_lost remark_text
         (map text (chunk_pages SECTION_KEYWORDS 10 0 3 [remark_page])).
Proof.
  assert (map text (chunk_pages SECTION_KEYWORDS 10 0 3 [remark_page])
          = [ "The insurer covers accidental damage to the contents.";
              "Loss caused by wear and tear is excluded." ]) as Hout
    by (vm_compute; reflexivity).
  assert (In "See above." (split_sentences remark_text)) as Hin
    by (vm_compute; right; left; reflexivity).
  split; [exact Hout |]. split; [exact Hin |].
  split; [vm_compute; reflexivity |].
  intros H. destruct (H "See above." Hin) as [t [Ht Hocc]].
  rewrite Hout in Ht. apply contains_occurs in Hocc.
  destruct Ht as [<- | [<- | []]]; vm_compute in Hocc; discriminate Hocc.
Qed.

(** ** The pipeline from end to end *)

(** [initialize] on two pages, without a cached index: the pipeline is
    initialised, four chunks are indexed and both files are written. *)
Example initialize_two_pages :
  match initialize unit_encode "vector_db" "data" SECTION_KEYWORDS
          (new_pipeline "") no_files true [headed_page; remark_page] with
  | Some r =>
      raised r = None
      /\ _is_initialized (pipeline_after r) = true
      /\ _chunk_count (pipeline_after r) = 4%nat
      /\ index_faiss (disk_after r) <> None
      /\ chunks_json (disk_after r) <> None
  | None => False
  end.
Proof. vm_compute. repeat split; discriminate. Qed.

(** When the pages yield no chunk, [build_index] and [save] each print a
    warning and no file is written. *)
Example initialize_blank_page_writes_nothing :
  match initialize unit_encode "vector_db" "data" SECTION_KEYWORDS
          (new_pipeline "") no_files true [blank_page] with
  | Some r =>
      disk_after r = no_files
      /\ observed r
         = [ Printed (Print "[WARNING] No chunks to index.");
             Printed (Print "[WARNING] No index to save.") ]
  | None => False
  end.
Proof. vm_compute. split; reflexivity. Qed.

(** A threshold above the lower scores leaves the best result only. *)
Example retrieve_high_threshold :
  fst (retrieve unit_encode ranked_search
         {| _top_k := 5; _threshold := 85 # 100 |} three_passages no_files
         "a b c")
  = [(passage_a, 9 # 10)].
Proof. vm_compute. reflexivity. Qed.

(* ================================================================== *)
(** * Part IV: further properties of the code                          *)
(* ================================================================== *)

(** ** The vector store *)

Section StoreFurther.

Variable encode : list string -> Z -> list Vec.
Variable faiss_search : FaissIndex -> Vec -> Z -> list (Q * Z).
Variable db_dir : string.

Lemma collect_results_In (chunks : list Chunk) (found : list (Q * Z))
    (cs : Scored) :
  In cs (collect_results chunks found) <->
  exists idx : Z,
    In (snd cs, idx) found /\ (0 <= idx)%Z
    /\ nth_error chunks (Z.to_nat idx) = Some (fst cs).
Proof.
  unfold collect_results. rewrite in_flat_map. split.
  - intros [[score idx] [Hin Hcs]].
    destruct ((idx <? 0)%Z || (idx >=? Z.of_nat (List.length chunks))%Z)
      eqn:E; [contradiction |].
    apply orb_false_iff in E. destruct E as [E1 _].
    destruct (nth_error chunks (Z.to_nat idx)) as [c |] eqn:En;
      [| contradiction].
    destruct Hcs as [<- | []]. exists idx. simpl.
    repeat split; [exact Hin | lia | exact En].
  - intros [idx [Hin [Hpos Hn]]]. exists (snd cs, idx). split; [exact Hin |].
    assert (Z.to_nat idx < List.length chunks)%nat as Hlt
      by (apply nth_error_Some; congruence).
    assert (((idx <? 0)%Z || (idx >=? Z.of_nat (List.length chunks))%Z)
            = false) as -> by (apply orb_false_iff; split; lia).
    rewrite Hn. left. destruct cs; reflexivity.
Qed.

Lemma flat_map_at_most_one {A B : Type} (f : A -> list B) (l : list A) :
  (forall a, (List.length (f a) <= 1)%nat) ->
  (List.length (flat_map f l) <= List.length l)%nat.
Proof.
  intros Hf. induction l as [| a l IH]; [simpl; lia |].
  cbn [flat_map]. rewrite length_app. cbn [List.length].
  specialize (Hf a). lia.
Qed.

Lemma collect_results_length (chunks : list Chunk) (found : list (Q * Z)) :
  (List.length (collect_results chunks found) <= List.length found)%nat.
Proof.
  unfold collect_results. apply flat_map_at_most_one.
  intros [score idx].
  destruct ((idx <? 0)%Z || (idx >=? Z.of_nat (List.length chunks))%Z);
    [simpl; lia |].
  destruct (nth_error chunks (Z.to_nat idx)); simpl; lia.
Qed.

Lemma search_value (st : VectorStore) (fs : Files) (q : Vec) (k : Z) :
  value (search faiss_search st fs q k)
  = Returned (if _is_loaded st
              then collect_results (_chunks st)
                     (found_by faiss_search st q k)
              else []).
Proof.
  unfold search, found_by.
  destruct (_index st); destruct (_is_loaded st); reflexivity.
Qed.

End StoreFurther.

(** X1: whatever the search structure reports, [search] returns no more
    results than the structure found, and each result pairs a chunk of
    the store with the score found for the position of that chunk;
    positions outside the chunks are skipped. *)
Theorem X1_search_results_come_from_the_store :
  forall (faiss_search : FaissIndex -> Vec -> Z -> list (Q * Z))
         (st : VectorStore) (fs : Files) (query_embedding : Vec) (top_k : Z)
         (results : list Scored),
    value (search faiss_search st fs query_embedding top_k)
    = Returned results ->
    (List.length results
     <= List.length (found_by faiss_search st query_embedding top_k))%nat
    /\ Forall
         (fun cs : Scored =>
            In (fst cs) (_chunks st)
            /\ exists idx : Z,
                 In (snd cs, idx)
                    (found_by faiss_search st query_embedding top_k)
                 /\ (0 <= idx < Z.of_nat (List.length (_chunks st)))%Z
                 /\ nth_error (_chunks st) (Z.to_nat idx) = Some (fst cs))
         results.
Proof.
  intros fsearch st fs q k results H. rewrite search_value in H.
  injection H as <-. destruct (_is_loaded st).
  - split; [apply collect_results_length |].
    apply Forall_forall. intros cs Hcs.
    apply collect_results_In in Hcs. destruct Hcs as [idx [Hin [Hpos Hn]]].
    split; [eapply nth_error_In; exact Hn |].
    exists idx. repeat split; try assumption.
    assert (Z.to_nat idx < List.length (_chunks st))%nat
      by (apply nth_error_Some; congruence).
    lia.
  - split; [simpl; lia | constructor].
Qed.

Lemma X1_search_results_come_from_the_store_witness :
  (List.length [(passage_a, 9 # 10); (passage_b, 8 # 10); (passage_c, 7 # 10)]
   <= List.length (found_by ranked_search three_passages [1%Q] 5%Z))%nat
  /\ Forall
       (fun cs : Scored =>
          In (fst cs) (_chunks three_passages)
          /\ exists idx : Z,
               In (snd cs, idx) (found_by ranked_search three_passages [1%Q] 5%Z)
               /\ (0 <= idx
                   < Z.of_nat (List.length (_chunks three_passages)))%Z
               /\ nth_error (_chunks three_passages) (Z.to_nat idx)
                  = Some (fst cs))
       [(passage_a, 9 # 10); (passage_b, 8 # 10); (passage_c, 7 # 10)].
Proof.
  apply (X1_search_results_come_from_the_store ranked_search three_passages
           no_files [1%Q] 5%Z).
  vm_compute. reflexivity.
Defined.

(** X2: after [build_index] on chunks that are not empty, [search] is
    served by the index that was built: it prints nothing, and a position
    [i] that the structure reports yields the [i]-th chunk handed to
    [build_index], with the score reported. *)
Theorem X2_build_then_search :
  forall (encode : list string -> Z -> list Vec)
         (faiss_search : FaissIndex -> Vec -> Z -> list (Q * Z))
         (chunks : list Chunk) (batch_size : Z) (st : VectorStore)
         (fs : Files) (query_embedding : Vec) (top_k : Z),
    chunks <> [] ->
    let built := store_after (build_index encode st fs chunks batch_size) in
    exists index : FaissIndex,
      _index built = Some index
      /\ xb index = encode (map text chunks) batch_size
      /\ search faiss_search built fs query_embedding top_k
         = {| store_after := built; files_after := fs;
              trace := [Searched top_k];
              value :=
                Returned
                  (collect_results chunks
                     (faiss_search index query_embedding top_k)) |}
      /\ forall (score : Q) (i : nat) (c : Chunk),
           In (score, Z.of_nat i) (faiss_search index query_embedding top_k) ->
           nth_error chunks i = Some c ->
           In (c, score)
              (collect_results chunks
                 (faiss_search index query_embedding top_k)).
Proof.
  intros encode fsearch chunks batch st fs q k Hne built.
  subst built. unfold build_index.
  destruct chunks as [| c0 l]; [contradiction |]. cbn [is_nil].
  eexists. cbn [store_after _index]. split; [reflexivity |].
  split; [reflexivity |]. split; [reflexivity |].
  intros score i c Hin Hn. apply collect_results_In.
  exists (Z.of_nat i). cbn [fst snd]. rewrite Nat2Z.id.
  repeat split; [exact Hin | lia | exact Hn].
Qed.

Lemma X2_build_then_search_witness :
  In (passage_b, 8 # 10)
     (collect_results [passage_a; passage_b; passage_c]
        (ranked_search
           {| d := 1%nat; xb := [[1%Q]; [1%Q]; [1%Q]] |} [1%Q] 5%Z)).
Proof.
  destruct (X2_build_then_search unit_encode ranked_search
              [passage_a; passage_b; passage_c] 16%Z init no_files [1%Q] 5%Z)
    as [index [_ [_ [_ H]]]]; [discriminate |].
  apply (H (8 # 10) 1%nat passage_b); [| reflexivity].
  right. left. reflexivity.
Defined.

(** X3: when the embedding capability returns one vector per text, the
    index that [build_index] builds holds exactly one vector per chunk
    of the store. *)
Theorem X3_build_index_one_vector_per_chunk :
  forall (encode : list string -> Z -> list Vec)
         (chunks : list Chunk) (batch_size : Z) (st : VectorStore)
         (fs : Files),
    (forall texts b, List.length (encode texts b) = List.length texts) ->
    chunks <> [] ->
    let built := store_after (build_index encode st fs chunks batch_size) in
    exists index : FaissIndex,
      _index built = Some index
      /\ ntotal index = List.length (_chunks built)
      /\ _chunks built = chunks
      /\ _is_loaded built = true.
Proof.
  intros encode chunks batch st fs Henc Hne built. subst built.
  unfold build_index. destruct chunks as [| c0 l]; [contradiction |].
  cbn [is_nil]. eexists. cbn [store_after _index _chunks _is_loaded].
  split; [reflexivity |]. unfold ntotal. cbn [xb].
  rewrite Henc, length_map. repeat split.
Qed.

Lemma X3_build_index_one_vector_per_chunk_witness :
  exists index : FaissIndex,
    _index three_passages = Some index
    /\ ntotal index = List.length (_chunks three_passages)
    /\ _chunks three_passages = [passage_a; passage_b; passage_c]
    /\ _is_loaded three_passages = true.
Proof.
  apply (X3_build_index_one_vector_per_chunk unit_encode
           [passage_a; passage_b; passage_c] 16 init no_files).
  - intros texts b. unfold unit_encode. apply length_map.
  - discriminate.
Defined.

(** X4: [save] never changes the store, and it writes the two companion
    files together or not at all: without an index it only prints a
    warning; with one it writes the index and the metadata of every
    chunk, and any store that loads these files answers every search
    from the saved index and the saved chunks. *)
Theorem X4_save_writes_what_a_reload_searches :
  forall (faiss_search : FaissIndex -> Vec -> Z -> list (Q * Z))
         (db_dir : string) (st : VectorStore) (fs : Files),
    store_after (save db_dir st fs) = st
    /\ value (save db_dir st fs) = Returned tt
    /\ ((_index st = None
         /\ files_after (save db_dir st fs) = fs
         /\ trace (save db_dir st fs)
            = [Printed (Print "[WARNING] No index to save.")])
        \/ (exists index : FaissIndex,
              _index st = Some index
              /\ files_after (save db_dir st fs)
                 = {| index_faiss := Some (Valid index);
                      chunks_json :=
                        Some (Valid (JArr (map chunk_meta (_chunks st)))) |}
              /\ forall st' : VectorStore,
                   exists loaded : Effect bool,
                     load st' (files_after (save db_dir st fs))
                     = Some loaded
                     /\ value loaded = true
                     /\ forall (q : Vec) (k : Z),
                          search faiss_search (store_after loaded)
                            (files_after loaded) q k
                          = {| store_after := store_after loaded;
                               files_after := files_after loaded;
                               trace := [Searched k];
                               value :=
                                 Returned
                                   (collect_results (_chunks st)
                                      (faiss_search index q k)) |})).
Proof.
  intros fsearch db st fs.
  split; [unfold save; destruct (_index st); reflexivity |].
  split; [unfold save; destruct (_index st); reflexivity |].
  destruct (_index st) as [index |] eqn:Hix.
  - right. exists index. split; [reflexivity |].
    split; [unfold save; rewrite Hix; reflexivity |].
    intros st'.
    destruct (load_after_save db st st' fs index Hix)
      as [loaded [Hload [Hvalue Hstore]]].
    exists loaded. split; [exact Hload |]. split; [exact Hvalue |].
    intros q k. rewrite Hstore. reflexivity.
  - left. unfold save. rewrite Hix. repeat split.
Qed.

(** X5: [load] never writes a file. When it returns [False] the chunks
    and the loaded flag of the store are as before (the index may have
    been replaced by the one read); when it returns [True] the store
    holds the index of the index file and is flagged as loaded. *)
Theorem X5_load_outcomes :
  forall (st : VectorStore) (fs : Files) (loaded : Effect bool),
    load st fs = Some loaded ->
    files_after loaded = fs
    /\ (value loaded = false ->
        _chunks (store_after loaded) = _chunks st
        /\ _is_loaded (store_after loaded) = _is_loaded st)
    /\ (value loaded = true ->
        _is_loaded (store_after loaded) = true
        /\ exists index : FaissIndex,
             index_faiss fs = Some (Valid index)
             /\ _index (store_after loaded) = Some index).
Proof.
  intros st fs loaded H. unfold load, load_failed in H.
  destruct (index_faiss fs) as [[index |] |];
    destruct (chunks_json fs) as [[meta |] |];
    try (injection H as <-; cbn; repeat split; try discriminate; auto; fail).
  destruct (iterate meta) as [items | e];
    try (injection H as <-; cbn; repeat split; try discriminate; auto; fail).
  destruct (raw_chunks_from 0 items) as [raws | e];
    try (injection H as <-; cbn; repeat split; try discriminate; auto; fail).
  destruct (typed_chunks raws) as [chunks |]; [| discriminate H].
  injection H as <-. cbn. repeat split; try discriminate.
  exists index. split; reflexivity.
Qed.

Lemma X5_load_outcomes_witness :
  (let loaded := loaded_effect (load init cached_files) in
   files_after loaded = cached_files
   /\ _is_loaded (store_after loaded) = true
   /\ exists index : FaissIndex,
        index_faiss cached_files = Some (Valid index)
        /\ _index (store_after loaded) = Some index)
  /\ (let failed := loaded_effect (load three_passages stale_files) in
      files_after failed = stale_files
      /\ _chunks (store_after failed) = _chunks three_passages
      /\ _is_loaded (store_after failed) = _is_loaded three_passages).
Proof.
  split.
  - destruct (X5_load_outcomes init cached_files
                (loaded_effect (load init cached_files)) eq_refl)
      as [Hfiles [_ Htrue]].
    destruct (Htrue eq_refl) as [Hflag Hindex].
    split; [exact Hfiles |]. split; [exact Hflag | exact Hindex].
  - destruct (X5_load_outcomes three_passages stale_files
                (loaded_effect (load three_passages stale_files)) eq_refl)
      as [Hfiles [Hfalse _]].
    destruct (Hfalse eq_refl) as [Hchunks Hflag].
    split; [exact Hfiles |]. split; [exact Hchunks | exact Hflag].
Defined.

(** On the cache [load] returns [True] with the three passages; on the
    stale files it returns [False] after it replaced the index of the
    store by the one it read. *)
Example load_cached_and_stale :
  value (loaded_effect (load init cached_files)) = true
  /\ _chunks (store_after (loaded_effect (load init cached_files)))
     = [passage_a; passage_b; passage_c]
  /\ value (loaded_effect (load three_passages stale_files)) = false
  /\ _index (store_after (loaded_effect (load three_passages stale_files)))
     = Some {| d := 1; xb := [[5%Q]] |}
  /\ _index three_passages
     = Some {| d := 1; xb := [[1%Q]; [1%Q]; [1%Q]] |}.
Proof. vm_compute. repeat split. Qed.

Section LoadFurther.

Lemma raw_chunk_keys (i : nat) (m : json) (r : RawChunk) :
  raw_chunk i m = Returned r -> has_required_keys m.
Proof.
  unfold raw_chunk, subscript, has_required_keys. intros H.
  destruct m as [| b | n | q | s | items | members]; try discriminate H.
  destruct (member "text" members) as [t |] eqn:Et; [| discriminate H].
  destruct (member "doc_name" members) as [dn |] eqn:Ed; [| discriminate H].
  destruct (member "page" members) as [pg |] eqn:Ep; [| discriminate H].
  exists members, t, dn, pg. repeat split; assumption.
Qed.

Lemma raw_chunks_from_keys (items : list json) (i : nat)
    (raws : list RawChunk) :
  raw_chunks_from i items = Returned raws ->
  Forall has_required_keys items /\ List.length raws = List.length items.
Proof.
  revert i raws. induction items as [| m l IH]; intros i raws H.
  - injection H as <-. split; [constructor | reflexivity].
  - cbn [raw_chunks_from] in H.
    destruct (raw_chunk i m) as [r |] eqn:Er; [| discriminate H].
    destruct (raw_chunks_from (S i) l) as [rs |] eqn:Ers; [| discriminate H].
    injection H as <-. destruct (IH _ _ Ers) as [Hl Hlen].
    split; [constructor; [eapply raw_chunk_keys; exact Er | exact Hl] |].
    simpl. rewrite Hlen. reflexivity.
Qed.

Lemma typed_chunks_length (raws : list RawChunk) (chunks : list Chunk) :
  typed_chunks raws = Some chunks -> List.length chunks = List.length raws.
Proof.
  revert chunks. induction raws as [| r l IH]; intros chunks H.
  - injection H as <-. reflexivity.
  - cbn [typed_chunks] in H. destruct (typed_chunk r); [| discriminate H].
    destruct (typed_chunks l) as [cs |]; [| discriminate H].
    injection H as <-. simpl. rewrite (IH cs eq_refl). reflexivity.
Qed.

Lemma load_bare_chunks (l : list (string * string * Z)) (i : nat) :
  exists raws : list RawChunk,
    raw_chunks_from i (map bare_meta l) = Returned raws
    /\ typed_chunks raws = Some (bare_chunks_from i l).
Proof.
  revert i. induction l as [| [[t dn] pg] l IH]; intros i.
  - exists []. split; reflexivity.
  - destruct (IH (S i)) as [raws [Hraw Htyped]].
    eexists. cbn [map raw_chunks_from]. rewrite Hraw.
    split; [reflexivity |].
    cbn [typed_chunks]. rewrite Htyped. reflexivity.
Qed.

Lemma bare_chunks_from_nth (l : list (string * string * Z)) (start i : nat)
    (c : Chunk) :
  nth_error (bare_chunks_from start l) i = Some c ->
  chunk_id c = Z.of_nat (start + i)
  /\ section c = "" /\ clause_number c = "" /\ heading_path c = ""
  /\ cross_references c = []
  /\ exists t dn pg,
       nth_error l i = Some (t, dn, pg)
       /\ text c = t /\ doc_name c = dn /\ page c = pg.
Proof.
  revert start i. induction l as [| [[t dn] pg] l IH]; intros start i H.
  - destruct i; discriminate H.
  - destruct i as [| i]; simpl in H.
    + injection H as <-. simpl. rewrite Nat.add_0_r.
      repeat split. exists t, dn, pg. repeat split.
    + destruct (IH (S start) i H) as [Hid Hrest].
      split; [rewrite Hid; f_equal; lia | exact Hrest].
Qed.

End LoadFurther.

(** X6: [load] returns [True] only when every item of the metadata is a
    dictionary with the keys text, doc_name and page, and then it holds
    one chunk per item. An item without the key text makes it print a
    warning with the [KeyError] and return [False]; the index read from
    disk stays in the store, the chunks and the flag are untouched. *)
Theorem X6_load_needs_the_required_keys :
  forall (st : VectorStore) (fs : Files),
    (forall loaded : Effect bool,
        load st fs = Some loaded -> value loaded = true ->
        exists (meta : json) (items : list json),
          chunks_json fs = Some (Valid meta)
          /\ iterate meta = Returned items
          /\ Forall has_required_keys items
          /\ List.length (_chunks (store_after loaded)) = List.length items)
    /\ (forall (index : FaissIndex) (members : list (string * json))
               (rest : list json),
          member "text" members = None ->
          load st
            {| index_faiss := Some (Valid index);
               chunks_json := Some (Valid (JArr (JObj members :: rest))) |}
          = Some
              {| store_after :=
                   {| _index := Some index; _chunks := _chunks st;
                      _is_loaded := _is_loaded st |};
                 files_after :=
                   {| index_faiss := Some (Valid index);
                      chunks_json :=
                        Some (Valid (JArr (JObj members :: rest))) |};
                 trace :=
                   [Printed (PrintExn "[WARNING] Failed to load index: "
                               (KeyError "text"))];
                 value := false |}).
Proof.
  intros st fs. split.
  - intros loaded H Htrue. unfold load, load_failed in H.
    destruct (index_faiss fs) as [[index |] |];
      destruct (chunks_json fs) as [[meta |] |];
      try (injection H as <-; discriminate Htrue).
    destruct (iterate meta) as [items | e] eqn:Eit;
      try (injection H as <-; discriminate Htrue).
    destruct (raw_chunks_from 0 items) as [raws | e] eqn:Eraw;
      try (injection H as <-; discriminate Htrue).
    destruct (typed_chunks raws) as [chunks |] eqn:Ety; [| discriminate H].
    injection H as <-. destruct (raw_chunks_from_keys _ _ _ Eraw) as [Hk Hl].
    exists meta, items. cbn. repeat split; try assumption.
    rewrite (typed_chunks_length _ _ Ety). exact Hl.
  - intros index members rest Hmiss. unfold load, load_failed.
    cbn [index_faiss chunks_json iterate raw_chunks_from].
    unfold raw_chunk, subscript. rewrite Hmiss. reflexivity.
Qed.

Lemma X6_load_needs_the_required_keys_witness :
  load init
    {| index_faiss := Some (Valid {| d := 1; xb := [] |});
       chunks_json :=
         Some (Valid (JArr [JObj [("doc_name", JStr "Home.pdf")]])) |}
  = Some
      {| store_after :=
           {| _index := Some {| d := 1; xb := [] |}; _chunks := [];
              _is_loaded := false |};
         files_after :=
           {| index_faiss := Some (Valid {| d := 1; xb := [] |});
              chunks_json :=
                Some (Valid (JArr [JObj [("doc_name", JStr "Home.pdf")]])) |};
         trace :=
           [Printed (PrintExn "[WARNING] Failed to load index: "
                       (KeyError "text"))];
         value := false |}.
Proof.
  apply (proj2 (X6_load_needs_the_required_keys init no_files)
           {| d := 1; xb := [] |} [("doc_name", JStr "Home.pdf")] []).
  reflexivity.
Defined.

(** X7: metadata written without the optional keys loads all the same:
    section, clause number and heading path are empty, there is no cross
    reference, and the chunk_id of an item is its position in the file. *)
Theorem X7_load_fills_in_missing_optional_keys :
  forall (st : VectorStore) (index : FaissIndex)
         (items : list (string * string * Z)),
    exists loaded : Effect bool,
      load st
        {| index_faiss := Some (Valid index);
           chunks_json := Some (Valid (JArr (map bare_meta items))) |}
      = Some loaded
      /\ value loaded = true
      /\ List.length (_chunks (store_after loaded)) = List.length items
      /\ forall (i : nat) (c : Chunk),
           nth_error (_chunks (store_after loaded)) i = Some c ->
           chunk_id c = Z.of_nat i
           /\ section c = "" /\ clause_number c = "" /\ heading_path c = ""
           /\ cross_references c = []
           /\ exists t dn pg,
                nth_error items i = Some (t, dn, pg)
                /\ text c = t /\ doc_name c = dn /\ page c = pg.
Proof.
  intros st index items.
  destruct (load_bare_chunks items 0) as [raws [Hraw Htyped]].
  unfold load. cbn [index_faiss chunks_json iterate].
  rewrite Hraw, Htyped. eexists. split; [reflexivity |].
  cbn [value store_after _chunks]. split; [reflexivity |].
  split.
  - rewrite (typed_chunks_length _ _ Htyped).
    destruct (raw_chunks_from_keys _ _ _ Hraw) as [_ ->].
    apply length_map.
  - intros i c Hn. apply (bare_chunks_from_nth items 0 i c Hn).
Qed.

Lemma X7_load_fills_in_missing_optional_keys_witness :
  exists loaded : Effect bool,
    load init
      {| index_faiss := Some (Valid {| d := 1; xb := [[1]; [1]] |});
         chunks_json :=
           Some (Valid (JArr (map bare_meta
                                [("First.", "Home.pdf", 1%Z);
                                 ("Second.", "Home.pdf", 2%Z)]))) |}
    = Some loaded
    /\ map chunk_id (_chunks (store_after loaded)) = [0%Z; 1%Z].
Proof.
  destruct (X7_load_fills_in_missing_optional_keys init
              {| d := 1; xb := [[1]; [1]] |}
              [("First.", "Home.pdf", 1%Z); ("Second.", "Home.pdf", 2%Z)])
    as [loaded [Hload [_ [_ Hnth]]]].
  exists loaded. split; [exact Hload |].
  vm_compute in Hload. injection Hload as <-. reflexivity.
Defined.

(** X8: [load] reads back any chunk list that was written as metadata,
    next to whatever index the index file holds: it does not compare the
    number of vectors with the number of chunks. *)
Theorem X8_load_pairs_index_and_metadata_unchecked :
  forall (st : VectorStore) (index : FaissIndex) (chunks : list Chunk),
    exists loaded : Effect bool,
      load st
        {| index_faiss := Some (Valid index);
           chunks_json := Some (Valid (JArr (map chunk_meta chunks))) |}
      = Some loaded
      /\ value loaded = true
      /\ store_after loaded
         = {| _index := Some index; _chunks := chunks; _is_loaded := true |}.
Proof.
  intros st index chunks. unfold load.
  cbn [index_faiss chunks_json iterate].
  rewrite raw_chunks_of_meta, typed_chunks_of_raw.
  eexists. split; [reflexivity |]. split; reflexivity.
Qed.

(** ** The retriever *)

Section RetrieverFurther.

Lemma filter_all {A : Type} (f : A -> bool) (l : list A) :
  (forall x, In x l -> f x = true) -> filter f l = l.
Proof.
  induction l as [| a l IH]; intros H; [reflexivity |].
  simpl. rewrite (H a (or_introl eq_refl)). f_equal.
  apply IH. intros x Hx. apply H. right. exact Hx.
Qed.

Lemma filter_none {A : Type} (f : A -> bool) (l : list A) :
  (forall x, In x l -> f x = false) -> filter f l = [].
Proof.
  induction l as [| a l IH]; intros H; [reflexivity |].
  simpl. rewrite (H a (or_introl eq_refl)).
  apply IH. intros x Hx. apply H. right. exact Hx.
Qed.

Lemma inter_self (a : list string) : inter a a = a.
Proof. apply filter_all. intros x Hx. apply mem_In. exact Hx. Qed.

Lemma union_self (a : list string) : union a a = a.
Proof.
  unfold union. rewrite filter_none; [apply app_nil_r |].
  intros x Hx. apply negb_false_iff, mem_In. exact Hx.
Qed.

Lemma filter_shorter {A : Type} (f : A -> bool) (l : list A) :
  (List.length (filter f l) <= List.length l)%nat.
Proof.
  induction l as [| a l IH]; simpl; [lia |].
  destruct (f a); simpl; lia.
Qed.

Lemma inter_length_le_union (a b : list string) :
  (List.length (inter a b) <= List.length (union a b))%nat.
Proof.
  unfold inter, union. rewrite length_app.
  pose proof (filter_shorter (fun w => mem w b) a). lia.
Qed.

Lemma Zpos_of_nat_ge (n : nat) : (Z.of_nat n <= Z.pos (Pos.of_nat n))%Z.
Proof. destruct n as [| n]; [simpl; lia | lia]. Qed.

Lemma _text_overlap_self (t : string) :
  word_set t <> [] -> (_text_overlap t t == 1)%Q.
Proof.
  intros Hne. unfold _text_overlap.
  destruct (word_set t) as [| w ws] eqn:E; [congruence |].
  cbn [is_nil orb]. rewrite inter_self, union_self.
  unfold Qeq. cbn [Qnum Qden List.length]. lia.
Qed.

Lemma FOP_snoc_inv {A : Type} (R : A -> A -> Prop) (l : list A) (x : A) :
  ForallOrdPairs R (l ++ [x]) ->
  ForallOrdPairs R l /\ Forall (fun a => R a x) l.
Proof.
  induction l as [| a l IH]; intros H; simpl in *.
  - split; constructor.
  - inversion H as [| ? ? Ha Hl]; subst.
    destruct (IH Hl) as [H1 H2]. apply Forall_app in Ha.
    destruct Ha as [Ha Hx]. inversion Hx; subst.
    split; constructor; assumption.
Qed.

(** A list whose later results are no near-duplicates of its earlier
    ones goes through [_deduplicate] unchanged. *)
Lemma _deduplicate_fixed (results : list Scored) :
  ForallOrdPairs
    (fun a b => near_duplicates (result_text b) (result_text a) = false)
    results ->
  _deduplicate results = results.
Proof.
  induction results as [| r l IH] using rev_ind; intros H.
  - reflexivity.
  - apply FOP_snoc_inv in H. destruct H as [Hl Hr].
    rewrite _deduplicate_snoc, (IH Hl).
    assert (is_dup (result_text r) (map result_text l) = false) as ->;
      [| reflexivity].
    apply is_dup_false. intros s Hs. apply in_map_iff in Hs.
    destruct Hs as [e [<- He]]. rewrite Forall_forall in Hr. apply Hr, He.
Qed.

Lemma Subsequence_trans {A : Type} (a b c : list A) :
  Subsequence a b -> Subsequence b c -> Subsequence a c.
Proof.
  intros Hab Hbc. revert a Hab.
  induction Hbc as [| x l m Hlm IH | x l m Hlm IH]; intros a Hab.
  - exact Hab.
  - apply sub_skip. apply IH. exact Hab.
  - inversion Hab; subst.
    + apply sub_skip. apply IH. assumption.
    + apply sub_keep. apply IH. assumption.
Qed.

Lemma Subsequence_filter {A : Type} (f : A -> bool) (l : list A) :
  Subsequence (filter f l) l.
Proof.
  induction l as [| a l IH]; simpl; [constructor |].
  destruct (f a); [apply sub_keep | apply sub_skip]; exact IH.
Qed.

Lemma Subsequence_length {A : Type} (l m : list A) :
  Subsequence l m -> (List.length l <= List.length m)%nat.
Proof. induction 1; simpl; lia. Qed.

Lemma search_not_ready
    (faiss_search : FaissIndex -> Vec -> Z -> list (Q * Z))
    (st : VectorStore) (fs : Files) (q : Vec) (k : Z) :
  not_ready st ->
  search faiss_search st fs q k
  = {| store_after := st; files_after := fs;
       trace := [Printed (Print "[ERROR] Index not loaded.")];
       value := Returned [] |}.
Proof.
  intros [H | H]; unfold search; rewrite H;
    [| destruct (_index st)]; reflexivity.
Qed.

(** The maximum kept by the loop of [max]. *)
Lemma max_loop_spec (l : list Scored) (m : Q) :
  let best :=
    fold_left (fun m (cs : Scored) => if Qgtb (snd cs) m then snd cs else m)
      l m in
  (best = m \/ In best (map snd l))
  /\ (m <= best)%Q
  /\ Forall (fun cs : Scored => (snd cs <= best)%Q) l.
Proof.
  revert m. induction l as [| [c x] l IH]; intros m; cbn [fold_left].
  - split; [left; reflexivity |]. split; [apply Qle_refl | constructor].
  - cbn [snd]. destruct (Qgtb x m) eqn:E.
    + destruct (IH x) as [Hin [Hle Hall]].
      assert (m <= x)%Q as Hmx.
      { unfold Qgtb in E. apply negb_true_iff in E.
        apply Qlt_le_weak, Qnot_le_lt. intros Hc.
        apply Qle_bool_iff in Hc. congruence. }
      split; [right; destruct Hin as [-> | Hin];
              [left; reflexivity | right; exact Hin] |].
      split; [eapply Qle_trans; eassumption |].
      constructor; [exact Hle | exact Hall].
    + destruct (IH m) as [Hin [Hle Hall]].
      assert (x <= m)%Q as Hxm.
      { unfold Qgtb in E. apply negb_false_iff in E.
        apply Qle_bool_iff. exact E. }
      split; [destruct Hin as [-> | Hin];
              [left; reflexivity | right; right; exact Hin] |].
      split; [exact Hle |].
      constructor; [eapply Qle_trans; eassumption | exact Hall].
Qed.

(** The loop of [format_citations]: no citation twice, and the
    citations of the results, all of them. *)
Lemma distinct_citations_loop (results : list Scored) (acc : list string) :
  NoDup acc ->
  let cites :=
    fold_left
      (fun citations (cs : Scored) =>
         let cite := citation_string (fst cs) in
         if mem cite citations then citations else citations ++ [cite])
      results acc in
  NoDup cites
  /\ forall s, In s cites <->
               In s acc
               \/ exists r, In r results /\ citation_string (fst r) = s.
Proof.
  revert acc. induction results as [| r l IH]; intros acc Hnd;
    cbn [fold_left].
  - split; [exact Hnd |]. intros s. split; [auto |].
    intros [H | [r [[] _]]]. exact H.
  - destruct (mem (citation_string (fst r)) acc) eqn:E.
    + destruct (IH acc Hnd) as [H1 H2]. split; [exact H1 |].
      intros s. rewrite H2. split.
      * intros [H | [r' [Hr' Hs]]]; [left; exact H |].
        right. exists r'. split; [right; exact Hr' | exact Hs].
      * intros [H | [r' [[<- | Hr'] Hs]]]; [left; exact H | |].
        -- left. rewrite <- Hs. apply mem_In. exact E.
        -- right. exists r'. split; assumption.
    + assert (NoDup (acc ++ [citation_string (fst r)])) as Hnd'.
      { apply NoDup_app; [exact Hnd | constructor; [intros [] | constructor] |].
        intros x Hx [<- | []]. apply mem_false in E. contradiction. }
      destruct (IH _ Hnd') as [H1 H2]. split; [exact H1 |].
      intros s. rewrite H2, in_app_iff. split.
      * intros [[H | [<- | []]] | [r' [Hr' Hs]]].
        -- left. exact H.
        -- right. exists r. split; [left; reflexivity | reflexivity].
        -- right. exists r'. split; [right; exact Hr' | exact Hs].
      * intros [H | [r' [[<- | Hr'] Hs]]].
        -- left. left. exact H.
        -- left. right. left. exact Hs.
        -- right. exists r'. split; assumption.
Qed.

Lemma context_parts_In (results : list Scored) (k : nat) (r : Scored) :
  In r results -> exists i, In (context_part i r) (context_parts k results).
Proof.
  revert k. induction results as [| x l IH]; intros k Hin; [contradiction |].
  destruct Hin as [-> | Hin].
  - exists k. left. reflexivity.
  - destruct (IH (S k) Hin) as [i Hi]. exists i. right. exact Hi.
Qed.

End RetrieverFurther.

(** X9: the word overlap of two texts does not depend on their order
    and lies between 0 and 1; a text without a word overlaps with
    nothing, and a text with a word overlaps fully with itself. *)
Theorem X9_text_overlap_is_a_symmetric_ratio :
  forall text_a text_b : string,
    _text_overlap text_a text_b = _text_overlap text_b text_a
    /\ (0 <= _text_overlap text_a text_b)%Q
    /\ (_text_overlap text_a text_b <= 1)%Q
    /\ (word_set text_a = [] -> _text_overlap text_a text_b = 0)
    /\ (word_set text_a <> [] -> (_text_overlap text_a text_a == 1)%Q).
Proof.
  intros a b. split; [apply _text_overlap_sym |].
  assert ((0 <= _text_overlap a b)%Q /\ (_text_overlap a b <= 1)%Q)
    as [H0 H1].
  { unfold _text_overlap.
    destruct (is_nil (word_set a) || is_nil (word_set b)).
    - split; unfold Qle; simpl; lia.
    - pose proof (inter_length_le_union (word_set a) (word_set b)).
      pose proof (Zpos_of_nat_ge
                    (List.length (union (word_set a) (word_set b)))).
      split; unfold Qle; cbn [Qnum Qden]; lia. }
  split; [exact H0 |]. split; [exact H1 |].
  split; [| apply _text_overlap_self].
  intros He. unfold _text_overlap. rewrite He. reflexivity.
Qed.

Lemma X9_text_overlap_is_a_symmetric_ratio_witness :
  _text_overlap "   " "wear and tear" = 0
  /\ (_text_overlap "Wear and tear" "Wear and tear" == 1)%Q.
Proof.
  destruct (X9_text_overlap_is_a_symmetric_ratio "   " "wear and tear")
    as [_ [_ [_ [Hblank _]]]].
  destruct (X9_text_overlap_is_a_symmetric_ratio "Wear and tear" "")
    as [_ [_ [_ [_ Hself]]]].
  split; [apply Hblank; reflexivity | apply Hself; discriminate].
Defined.

(** X10: [retrieve] never returns two results with the same text, as long
    as the text holds a word. *)
Theorem X10_retrieve_never_repeats_a_text :
  forall (encode : list string -> Z -> list Vec)
         (faiss_search : FaissIndex -> Vec -> Z -> list (Q * Z))
         (r : Retriever) (st : VectorStore) (fs : Files) (query : string)
         (i j : nat) (a b : Scored),
    let out := fst (retrieve encode faiss_search r st fs query) in
    nth_error out i = Some a -> nth_error out j = Some b -> i <> j ->
    word_set (result_text a) <> [] ->
    result_text a <> result_text b.
Proof.
  intros encode fsearch r st fs query i j a b out Hi Hj Hij Hw Heq.
  assert (pairwise_far out) as Hfar
    by (subst out; unfold retrieve; cbn [fst];
        apply _deduplicate_pairwise_far).
  specialize (Hfar i j a b Hij Hi Hj). rewrite <- Heq in Hfar.
  pose proof (_text_overlap_self _ Hw) as Hone.
  rewrite Hone in Hfar. unfold Qle in Hfar. simpl in Hfar. lia.
Qed.

Lemma X10_retrieve_never_repeats_a_text_witness :
  result_text (passage_a, 9 # 10) <> result_text (passage_c, 7 # 10).
Proof.
  apply (X10_retrieve_never_repeats_a_text unit_encode ranked_search
           default_retriever three_passages no_files "a b c" 0 1
           (passage_a, 9 # 10) (passage_c, 7 # 10)).
  - vm_compute. reflexivity.
  - vm_compute. reflexivity.
  - discriminate.
  - vm_compute. discriminate.
Defined.

(** X11: deduplicating twice changes nothing more. *)
Theorem X11_deduplicate_is_idempotent :
  forall results : list Scored,
    _deduplicate (_deduplicate results) = _deduplicate results.
Proof.
  intros results. apply _deduplicate_fixed, _deduplicate_ordered_far.
Qed.

(** X12: [get_best_score] is 0 for no result; otherwise it is the score
    of one of the results and no result scores higher. *)
Theorem X12_best_score_is_the_maximum :
  forall results : list Scored,
    (results = [] -> get_best_score results = 0)
    /\ (results <> [] ->
        In (get_best_score results) (map snd results)
        /\ Forall (fun cs : Scored => (snd cs <= get_best_score results)%Q)
                  results).
Proof.
  intros results. split; [intros ->; reflexivity |].
  intros Hne. destruct results as [| [c x] l]; [congruence |].
  unfold get_best_score, max_score. cbn [is_nil].
  destruct (max_loop_spec l x) as [Hin [Hle Hall]]. cbn zeta in *.
  split.
  - cbn [map snd]. destruct Hin as [-> | Hin]; [left; reflexivity |].
    right. exact Hin.
  - constructor; [exact Hle | exact Hall].
Qed.

Lemma X12_best_score_is_the_maximum_witness :
  In (get_best_score [(passage_a, 7 # 10); (passage_b, 9 # 10)])
     (map snd [(passage_a, 7 # 10); (passage_b, 9 # 10)])
  /\ Forall
       (fun cs : Scored =>
          (snd cs
           <= get_best_score [(passage_a, 7 # 10); (passage_b, 9 # 10)])%Q)
       [(passage_a, 7 # 10); (passage_b, 9 # 10)].
Proof.
  apply (proj2 (X12_best_score_is_the_maximum
                  [(passage_a, 7 # 10); (passage_b, 9 # 10)])).
  discriminate.
Defined.

(** X13: [format_citations] is empty for no result. Otherwise it is
    "Sources: " and the citations joined by "; ": no citation stands
    twice, every citation listed is that of a result, and the citation of
    every result is listed. *)
Theorem X13_format_citations_lists_each_citation_once :
  forall results : list Scored,
    (results = [] -> format_citations results = "")
    /\ (results <> [] ->
        exists cites : list string,
          format_citations results = ("Sources: " ++ join "; " cites)%string
          /\ NoDup cites
          /\ (forall s, In s cites <->
                        exists r, In r results /\ citation_string (fst r) = s)
          /\ forall r, In r results ->
                       occurs_in (citation_string (fst r))
                                 (format_citations results)).
Proof.
  intros results. split; [intros ->; reflexivity |].
  intros Hne. exists (distinct_citations results).
  assert (format_citations results
          = ("Sources: " ++ join "; " (distinct_citations results))%string)
    as Hfmt.
  { unfold format_citations. destruct results; [congruence | reflexivity]. }
  destruct (distinct_citations_loop results [] (NoDup_nil _)) as [Hnd Hin].
  fold (distinct_citations results) in Hnd, Hin.
  assert (forall s, In s (distinct_citations results) <->
                    exists r, In r results /\ citation_string (fst r) = s)
    as Hin'.
  { intros s. rewrite Hin. split; [intros [[] | H]; exact H | auto]. }
  split; [exact Hfmt |]. split; [exact Hnd |]. split; [exact Hin' |].
  intros r Hr. rewrite Hfmt. apply occurs_in_app_r, join_occurs.
  apply Hin'. exists r. split; [exact Hr | reflexivity].
Qed.

Lemma X13_format_citations_lists_each_citation_once_witness :
  exists cites : list string,
    format_citations [(passage_a, 9 # 10); (passage_b, 8 # 10)]
    = ("Sources: " ++ join "; " cites)%string
    /\ NoDup cites.
Proof.
  destruct (proj2 (X13_format_citations_lists_each_citation_once
                     [(passage_a, 9 # 10); (passage_b, 8 # 10)]))
    as [cites [Hfmt [Hnd _]]]; [discriminate |].
  exists cites. split; assumption.
Defined.

(** X14: the context built for the answer holds the text and the
    document name of every result. *)
Theorem X14_build_context_holds_every_text :
  forall (results : list Scored) (r : Scored),
    In r results ->
    occurs_in (text (fst r)) (build_context results)
    /\ occurs_in (doc_name (fst r)) (build_context results).
Proof.
  intros results r Hin. unfold build_context.
  destruct results as [| x l] eqn:E; [contradiction |]. cbn [is_nil].
  rewrite <- E in *. destruct (context_parts_In results 1 r Hin) as [i Hi].
  pose proof (join_occurs (nl ++ nl ++ "---" ++ nl ++ nl) _ _ Hi) as Hocc.
  split; (eapply occurs_in_trans; [| exact Hocc]); unfold context_part.
  - do 2 apply occurs_in_app_r. apply occurs_in_refl.
  - do 2 apply occurs_in_app_l.
    assert (occurs_in (doc_name (fst r))
              ("[Source " ++ str_of_nat i ++ ": " ++ doc_name (fst r)))
      as Hbase by (do 3 apply occurs_in_app_r; apply occurs_in_refl).
    destruct (nonempty (clause_number (fst r)));
      destruct (nonempty (section (fst r)));
      repeat (first [exact Hbase | apply occurs_in_app_l]).
Qed.

Lemma X14_build_context_holds_every_text_witness :
  occurs_in "a b c d e f g h i j"
    (build_context [(passage_a, 9 # 10); (passage_b, 8 # 10)])
  /\ occurs_in "Home.pdf"
       (build_context [(passage_a, 9 # 10); (passage_b, 8 # 10)]).
Proof.
  apply (X14_build_context_holds_every_text
           [(passage_a, 9 # 10); (passage_b, 8 # 10)] (passage_b, 8 # 10)).
  right. left. reflexivity.
Defined.

(** X15: what [retrieve] returns is a part of what [search] returns, in
    the same order; and on a store that is not ready it still embeds the
    query, then returns nothing after the error line of [search]. *)
Theorem X15_retrieve_selects_from_search :
  forall (encode : list string -> Z -> list Vec)
         (faiss_search : FaissIndex -> Vec -> Z -> list (Q * Z))
         (r : Retriever) (st : VectorStore) (fs : Files) (query : string),
    (forall found : list Scored,
        value (search faiss_search st fs (hd [] (encode [query] 1%Z))
                 (_top_k r)) = Returned found ->
        Subsequence (fst (retrieve encode faiss_search r st fs query)) found
        /\ (List.length (fst (retrieve encode faiss_search r st fs query))
            <= List.length found)%nat)
    /\ (not_ready st ->
        retrieve encode faiss_search r st fs query
        = ([], [ Encoded [query] 1;
                 Printed (Print "[ERROR] Index not loaded.") ])).
Proof.
  intros encode fsearch r st fs query. split.
  - intros found Hfound.
    assert (Subsequence (fst (retrieve encode fsearch r st fs query)) found)
      as Hsub.
    { unfold retrieve. cbn [fst]. rewrite Hfound.
      eapply Subsequence_trans;
        [apply _deduplicate_subsequence | apply Subsequence_filter]. }
    split; [exact Hsub | apply Subsequence_length; exact Hsub].
  - intros Hnr. unfold retrieve.
    rewrite (search_not_ready fsearch st fs _ _ Hnr). reflexivity.
Qed.

Lemma X15_retrieve_selects_from_search_witness :
  retrieve unit_encode ranked_search default_retriever init no_files
    "Is wear and tear covered?"
  = ([], [ Encoded ["Is wear and tear covered?"] 1;
           Printed (Print "[ERROR] Index not loaded.") ]).
Proof.
  apply (proj2 (X15_retrieve_selects_from_search unit_encode ranked_search
                  default_retriever init no_files
                  "Is wear and tear covered?")).
  left. reflexivity.
Defined.

(** ** The chunker *)

Section SectionsFurther.

Lemma take_S (n : nat) (c : ascii) (s : string) :
  take (S n) (String c s) = String c (take n s).
Proof. reflexivity. Qed.

Lemma take_nonempty (n : nat) (s : string) :
  nonempty s = true -> nonempty (take (S n) s) = true.
Proof. destruct s; [discriminate | reflexivity]. Qed.

Lemma take_length (n : nat) (s : string) : (length (take n s) <= n)%nat.
Proof.
  revert s. induction n as [| n IH]; intros [| c s]; simpl; try lia.
  specialize (IH s). unfold take in IH. lia.
Qed.

Lemma _detect_section_label_some (line h : string) :
  _detect_section_label line = Some h ->
  h = take 120 (strip line) /\ nonempty (strip line) = true.
Proof.
  unfold _detect_section_label.
  destruct (nonempty (strip line)) eqn:E; cbn [negb]; [| discriminate].
  destruct (NUMBERED_SECTION_RE (strip line)).
  - intros H. inversion H. auto.
  - destruct (ALLCAPS_HEADING_RE (strip line) && _).
    + intros H. inversion H. auto.
    + destruct (mem _ SECTION_KEYWORDS); [| discriminate].
      intros H. inversion H. auto.
Qed.

Lemma _detect_section_label_nonempty (line h : string) :
  _detect_section_label line = Some h -> nonempty h = true.
Proof.
  intros H. apply _detect_section_label_some in H. destruct H as [-> H].
  apply take_nonempty. exact H.
Qed.

Lemma split_step_keeps_lines (secs : list Sec) (cur : Sec) (line : string) :
  List.concat (map lines (fst (split_step (secs, cur) line)))
    ++ lines (snd (split_step (secs, cur) line))
  = (List.concat (map lines secs) ++ lines cur) ++ [line].
Proof.
  unfold split_step.
  destruct (_detect_section_label line) as [h |];
    [destruct (nonempty h) |]; cbn [fst snd lines];
    try (rewrite app_assoc; reflexivity).
  unfold has_lines. destruct (lines cur) eqn:E.
  - rewrite app_nil_r. reflexivity.
  - rewrite map_app, List.concat_app. cbn [map List.concat]. rewrite app_nil_r, E.
    reflexivity.
Qed.

Lemma split_loop_keeps_lines (l : list string) (st : list Sec * Sec) :
  List.concat (map lines (fst (fold_left split_step l st)))
    ++ lines (snd (fold_left split_step l st))
  = (List.concat (map lines (fst st)) ++ lines (snd st)) ++ l.
Proof.
  revert st. induction l as [| line l IH]; intros st; cbn [fold_left].
  - rewrite app_nil_r. reflexivity.
  - rewrite IH. destruct st as [secs cur].
    rewrite split_step_keeps_lines, <- app_assoc. reflexivity.
Qed.

Lemma sections_shape_snoc (secs : list Sec) (cur : Sec) :
  sections_shape secs ->
  headed cur \/ (headless cur /\ secs = []) ->
  sections_shape (secs ++ [cur]).
Proof.
  intros Hs Hc. destruct secs as [| s rest]; cbn [app sections_shape].
  - split; [| constructor]. destruct Hc as [H | [H _]]; auto.
  - destruct Hs as [Hs Hrest]. split; [exact Hs |].
    apply Forall_app. split; [exact Hrest |].
    destruct Hc as [H | [_ H]]; [| discriminate].
    constructor; [exact H | constructor].
Qed.

Lemma split_step_invariant (st : list Sec * Sec) (line : string) :
  split_invariant st -> split_invariant (split_step st line).
Proof.
  destruct st as [secs cur]. intros [Hshape [Hlines Hcur]].
  cbn [fst snd] in *. unfold split_step.
  assert (_detect_section_label line = None ->
          split_invariant
            (secs, {| heading := heading cur; clause := clause cur;
                      lines := lines cur ++ [line] |})) as Hother.
  { intros Hnone. split; [exact Hshape |]. split; [exact Hlines |].
    cbn [fst snd]. destruct Hcur as [Hh | [Hh Hnil]].
    - left. destruct Hh as [first [rest [H1 [H2 [H3 [H4 H5]]]]]].
      exists first, (rest ++ [line]). cbn [lines heading clause].
      rewrite H1. repeat split; try assumption.
      apply Forall_app. split; [exact H5 |].
      constructor; [exact Hnone | constructor].
    - right. split; [| exact Hnil]. destruct Hh as [H1 [H2 H3]].
      repeat split; cbn [lines heading clause]; try assumption.
      apply Forall_app. split; [exact H3 |].
      constructor; [exact Hnone | constructor]. }
  destruct (_detect_section_label line) as [h |] eqn:E;
    [| apply Hother; reflexivity].
  rewrite (_detect_section_label_nonempty _ _ E).
  assert (headed {| heading := h; clause := clause_of line;
                    lines := [line] |}) as Hnew.
  { exists line, []. cbn [lines heading clause].
    repeat split; try assumption.
    - apply (_detect_section_label_nonempty _ _ E).
    - constructor. }
  fold (clause_of line).
  destruct (has_lines cur) eqn:Hl.
  - split; [apply sections_shape_snoc; assumption |].
    split; [| left; exact Hnew]. cbn [fst].
    apply Forall_app. split; [exact Hlines |].
    constructor; [exact Hl | constructor].
  - split; [exact Hshape |]. split; [exact Hlines |]. left. exact Hnew.
Qed.

Lemma split_loop_invariant (l : list string) (st : list Sec * Sec) :
  split_invariant st -> split_invariant (fold_left split_step l st).
Proof.
  revert st. induction l as [| line l IH]; intros st H; cbn [fold_left].
  - exact H.
  - apply IH, split_step_invariant, H.
Qed.

Lemma split_char_not_nil (sep : ascii) (s : string) : split_char sep s <> [].
Proof.
  induction s as [| c s IH]; simpl; [discriminate |].
  destruct (Ascii.eqb c sep); [discriminate |].
  destruct (split_char sep s); [congruence | discriminate].
Qed.

Lemma _split_into_sections_spec (text : string) :
  List.concat (map lines (_split_into_sections text)) = split_char "010"%char text
  /\ sections_shape (_split_into_sections text)
  /\ Forall (fun s => has_lines s = true) (_split_into_sections text).
Proof.
  unfold _split_into_sections.
  pose proof (split_loop_keeps_lines (split_char "010"%char text)
                ([], {| heading := ""; clause := ""; lines := [] |}))
    as Hkeep.
  assert (split_invariant
            (fold_left split_step (split_char "010"%char text)
               ([], {| heading := ""; clause := ""; lines := [] |})))
    as [Hshape [Hlines Hcur]].
  { apply split_loop_invariant. split; [exact I |].
    split; [constructor |]. right. split; [| reflexivity].
    repeat split. constructor. }
  destruct (fold_left split_step _ _) as [secs cur].
  cbn [fst snd app List.concat map lines] in *.
  destruct (has_lines cur) eqn:Hl.
  - rewrite map_app, List.concat_app. cbn [map List.concat]. rewrite app_nil_r.
    split; [exact Hkeep |].
    split; [apply sections_shape_snoc; assumption |].
    apply Forall_app. split; [exact Hlines |].
    constructor; [exact Hl | constructor].
  - unfold has_lines in Hl. destruct (lines cur); [| discriminate].
    rewrite app_nil_r in Hkeep. auto.
Qed.

End SectionsFurther.

(** X16: [_split_into_sections] loses no line and keeps their order:
    the lines of its sections, one section after the other, are the
    lines of the text.  It returns one section at least, and no section
    without a line. *)
Theorem X16_sections_keep_every_line :
  forall text : string,
    List.concat (map lines (_split_into_sections text))
    = split_char "010"%char text
    /\ _split_into_sections text <> []
    /\ Forall (fun sec => lines sec <> []) (_split_into_sections text).
Proof.
  intros text.
  destruct (_split_into_sections_spec text) as [Hkeep [_ Hlines]].
  split; [exact Hkeep |]. split.
  - intros Hnil. rewrite Hnil in Hkeep. cbn in Hkeep.
    symmetry in Hkeep. exact (split_char_not_nil _ _ Hkeep).
  - eapply Forall_impl; [| exact Hlines].
    intros sec H Hnil. unfold has_lines in H. rewrite Hnil in H.
    discriminate.
Qed.

(** X17: every section but the first opens with a heading line, of
    which it has the label and the clause number; the first one does
    so or has no heading at all.  No other line of a section is a
    heading. *)
Theorem X17_sections_open_with_their_heading :
  forall text : string,
    exists first rest,
      _split_into_sections text = first :: rest
      /\ (headless first \/ headed first)
      /\ Forall headed rest.
Proof.
  intros text.
  destruct (_split_into_sections_spec text) as [Hkeep [Hshape _]].
  destruct (_split_into_sections text) as [| s rest] eqn:E.
  - cbn in Hkeep. symmetry in Hkeep.
    destruct (split_char_not_nil _ _ Hkeep).
  - exists s, rest. destruct Hshape as [H1 H2]. auto.
Qed.

Section ClauseNumbers.

Lemma clause_tail_dotted (n : nat) :
  forall s : string, (length s <= n)%nat ->
    dotted_from true (take (clause_tail s) s) = true.
Proof.
  induction n as [| n IH]; intros s Hlen.
  - destruct s; [reflexivity | simpl in Hlen; lia].
  - destruct s as [| c s]; [reflexivity |]. simpl in Hlen.
    cbn [clause_tail]. destruct (isdigit c) eqn:Ed.
    + rewrite take_S. cbn [dotted_from]. rewrite Ed. apply IH. lia.
    + destruct (Ascii.eqb c ".") eqn:Ec; [| reflexivity].
      destruct s as [| d s]; [reflexivity |].
      destruct (isdigit d) eqn:Ed'; [| reflexivity].
      rewrite !take_S. cbn [dotted_from]. rewrite Ed, Ec, Ed'.
      apply IH. simpl in Hlen. lia.
Qed.

Lemma match_clause_dotted (s clause rest : string) :
  match_clause s = Some (clause, rest) -> dotted_number clause = true.
Proof.
  destruct s as [| c s]; [discriminate |]. cbn [match_clause].
  destruct (isdigit c) eqn:Ed; [| discriminate].
  intros H. inversion H; subst. rewrite take_S.
  unfold dotted_number. cbn [dotted_from]. rewrite Ed.
  apply (clause_tail_dotted (length s)). lia.
Qed.

Lemma take_drop (n : nat) (s : string) : s = (take n s ++ drop n s)%string.
Proof.
  revert s. induction n as [| n IH]; intros [| c s]; try reflexivity.
  rewrite take_S. cbn [drop append]. f_equal. apply IH.
Qed.

Lemma match_clause_split (s clause rest : string) :
  match_clause s = Some (clause, rest) -> s = (clause ++ rest)%string.
Proof.
  destruct s as [| c s]; [discriminate |]. cbn [match_clause].
  destruct (isdigit c); [| discriminate].
  intros H.
  pose proof (take_drop (S (clause_tail s)) (String c s)) as Hs.
  injection H as <- <-. exact Hs.
Qed.

Lemma rest_of_refl (s : string) : rest_of s s.
Proof. exists EmptyString. reflexivity. Qed.

Lemma rest_of_trans (a b c : string) :
  rest_of a b -> rest_of b c -> rest_of a c.
Proof.
  intros [x ->] [y ->]. exists (y ++ x)%string.
  rewrite string_app_assoc. reflexivity.
Qed.

Lemma rest_of_cons (c : ascii) (r s : string) :
  rest_of r s -> rest_of r (String c s).
Proof. intros [x ->]. exists (String c x). reflexivity. Qed.

Lemma match_lit_ci_rest (lit s r : string) :
  match_lit_ci lit s = Some r -> rest_of r s.
Proof.
  revert s. induction lit as [| a lit IH]; intros s H.
  - inversion H. apply rest_of_refl.
  - destruct s as [| c s]; [discriminate |]. cbn [match_lit_ci] in H.
    destruct (Ascii.eqb (lower_char c) a); [| discriminate].
    apply rest_of_cons, IH, H.
Qed.

Lemma lstrip_by_rest (p : ascii -> bool) (s : string) :
  rest_of (lstrip_by p s) s.
Proof.
  induction s as [| c s IH]; [apply rest_of_refl |]. cbn [lstrip_by].
  destruct (p c); [apply rest_of_cons, IH | apply rest_of_refl].
Qed.

Lemma match_ws1_rest (s r : string) : match_ws1 s = Some r -> rest_of r s.
Proof.
  destruct s as [| c s]; [discriminate |]. cbn [match_ws1].
  destruct (isspace c); [| discriminate].
  intros H. inversion H. apply rest_of_cons, lstrip_by_rest.
Qed.

Lemma rest_of_occurs (needle r s : string) :
  occurs_in needle r -> rest_of r s -> occurs_in needle s.
Proof.
  intros [b [a ->]] [x ->]. exists (x ++ b)%string, a.
  rewrite string_app_assoc. reflexivity.
Qed.

(** A match of [CROSS_REF_RE] at the head of [s] ends with a clause
    number read off what is left of [s]. *)
Lemma cross_ref_at_clause (s target rest : string) :
  cross_ref_at s = Some (target, rest) ->
  exists r, rest_of r s /\ match_clause r = Some (target, rest).
Proof.
  unfold cross_ref_at, opt_bind, first_some. cbn [fold_right].
  intros H.
  repeat match goal with
  | H : match ?x with _ => _ end = Some _ |- _ =>
      let E := fresh "E" in destruct x eqn:E; try discriminate H
  | H : Some _ = Some _ |- _ => injection H as H; try subst
  end;
  repeat match goal with
  | E : match_lit_ci _ _ = Some _ |- _ => apply match_lit_ci_rest in E
  | E : match_ws1 _ = Some _ |- _ => apply match_ws1_rest in E
  end;
  eexists; (split; [| eassumption]);
  repeat (first [ eassumption
                | eapply rest_of_trans; [eassumption |] ]).
Qed.

Lemma cross_ref_scan_spec (n : nat) :
  forall (s : string) (skip : nat) (t : string),
    (length s <= n)%nat ->
    In t (cross_ref_scan skip s) ->
    dotted_number t = true /\ occurs_in t s.
Proof.
  induction n as [| n IH]; intros s skip t Hlen Hin.
  - destruct s; [destruct Hin | simpl in Hlen; lia].
  - destruct s as [| c s]; [destruct Hin |]. simpl in Hlen.
    assert (forall k, In t (cross_ref_scan k s) ->
                      dotted_number t = true /\ occurs_in t (String c s))
      as Hnext.
    { intros k Hk. destruct (IH s k t ltac:(lia) Hk) as [H1 H2].
      split; [exact H1 |]. apply occurs_in_cons. exact H2. }
    cbn [cross_ref_scan] in Hin. destruct skip as [| k]; [| eauto].
    destruct (cross_ref_at (String c s)) as [[target rest] |] eqn:E;
      [| eauto].
    destruct Hin as [<- | Hin]; [| eauto].
    destruct (cross_ref_at_clause _ _ _ E) as [r [Hr Hm]]. split.
    + eapply match_clause_dotted, Hm.
    + eapply rest_of_occurs; [| exact Hr].
      exists EmptyString, rest. apply (match_clause_split _ _ _ Hm).
Qed.

Lemma numbered_body_dotted (s clause : string) :
  numbered_body s = Some clause -> dotted_number clause = true.
Proof.
  unfold numbered_body.
  destruct (match_clause s) as [[c [| dot r]] |] eqn:E; try discriminate.
  destruct (Ascii.eqb dot "."); [| discriminate].
  destruct (match_ws1 r); [| discriminate].
  intros H. inversion H; subst. eapply match_clause_dotted, E.
Qed.

Lemma NUMBERED_SECTION_RE_dotted (s clause : string) :
  NUMBERED_SECTION_RE s = Some clause -> dotted_number clause = true.
Proof.
  unfold NUMBERED_SECTION_RE.
  destruct (match_lit_ci "section" s) as [r |].
  - destruct (match_ws1 r) as [r' |].
    + destruct (numbered_body r') eqn:E.
      * intros H. inversion H; subst. eapply numbered_body_dotted, E.
      * apply numbered_body_dotted.
    + apply numbered_body_dotted.
  - apply numbered_body_dotted.
Qed.

End ClauseNumbers.

(** X18: in a text of ASCII characters, every cross-reference that
    [_find_cross_references] returns is a number made of runs of the
    digits 0 to 9 separated by single full stops, and it stands in the
    text.  The clause number that [NUMBERED_SECTION_RE] reads off a
    heading of ASCII characters is such a number too. *)
Theorem X18_cross_references_are_clause_numbers :
  (forall text target : string,
      is_ascii text = true ->
      In target (_find_cross_references text) ->
      dotted_number target = true /\ occurs_in target text)
  /\ (forall line clause : string,
         is_ascii line = true ->
         NUMBERED_SECTION_RE line = Some clause ->
         dotted_number clause = true).
Proof.
  split.
  - intros text target _ Hin.
    apply (cross_ref_scan_spec (length text) text 0 target); [lia |].
    exact Hin.
  - intros line clause _. apply NUMBERED_SECTION_RE_dotted.
Qed.

Lemma X18_cross_references_are_clause_numbers_witness :
  dotted_number "4.2" = true
  /\ occurs_in "4.2" "Cover ends as defined in Clause 4.2 of the policy.".
Proof.
  apply (proj1 X18_cross_references_are_clause_numbers
           "Cover ends as defined in Clause 4.2 of the policy." "4.2").
  - reflexivity.
  - vm_compute. left. reflexivity.
Defined.

Section ChunkerProvenance.

Variable keyword_order : list string.
Variables chunk_size chunk_overlap min_chunk_size : Z.

Lemma dict_get_set (d : Dict) (k : string) (v : list string) :
  dict_get (dict_set d k v) k = Some v.
Proof.
  induction d as [| [k' v'] d IH]; cbn [dict_set dict_get].
  - rewrite String.eqb_refl. reflexivity.
  - destruct (String.eqb k k') eqn:E; cbn [dict_get].
    + rewrite String.eqb_refl. reflexivity.
    + rewrite E. exact IH.
Qed.

Lemma dict_at_set (d : Dict) (k : string) (v : list string) :
  dict_at (dict_set d k v) k = v.
Proof. unfold dict_at. rewrite dict_get_set. reflexivity. Qed.

Lemma heading_depth_positive (clause : string) :
  (0 < heading_depth clause)%nat.
Proof.
  unfold heading_depth. destruct (nonempty clause); [| lia].
  pose proof (split_char_not_nil "."%char clause).
  destruct (split_char "."%char clause); [congruence | simpl; lia].
Qed.

Lemma push_heading_spec (stack : list string) (depth : nat) (h : string) :
  (0 < depth)%nat ->
  exists above : list string,
    push_heading stack depth h = above ++ [h]
    /\ (List.length above < depth)%nat.
Proof.
  intros Hd. unfold push_heading.
  destruct (depth <=? List.length stack)%nat eqn:E.
  - exists (firstn (depth - 1) stack). split; [reflexivity |].
    pose proof (firstn_le_length (depth - 1) stack). lia.
  - exists stack. split; [reflexivity |].
    apply Nat.leb_gt in E. exact E.
Qed.

Lemma emit_sub_chunks_fields (dn : string) (pg : Z) (lbl cl hp : string)
    (refs : list string) (sub_chunks : list string) :
  forall (all : list Chunk) (id : Z) (c : Chunk),
    In c (fst (emit_sub_chunks dn pg lbl cl hp refs sub_chunks all id)) ->
    In c all
    \/ (doc_name c = dn /\ page c = pg /\ section c = lbl
        /\ clause_number c = cl /\ heading_path c = hp
        /\ cross_references c = refs /\ In (text c) sub_chunks).
Proof.
  unfold emit_sub_chunks.
  induction sub_chunks as [| t l IH]; intros all id c Hin;
    cbn [fold_left fst] in Hin.
  - left. exact Hin.
  - apply IH in Hin. destruct Hin as [Hin | Hin].
    + apply in_app_or in Hin. destruct Hin as [Hin | [<- | []]].
      * left. exact Hin.
      * right. cbn. repeat split; auto.
    + right. destruct Hin as [H1 [H2 [H3 [H4 [H5 [H6 H7]]]]]].
      repeat split; try assumption. right. exact H7.
Qed.

(** The chunks that one section adds were cut from it. *)
Lemma chunk_section_provenance (page : DocumentPage) (st : ChunkerState)
    (sec : Sec) (c : Chunk) :
  In c (all_chunks
          (chunk_section keyword_order chunk_size chunk_overlap
             min_chunk_size page st sec)) ->
  In c (all_chunks st)
  \/ (cut_from keyword_order chunk_size chunk_overlap min_chunk_size
        page sec c
      /\ (nonempty (heading sec) = true -> path_ends_with_heading sec c)).
Proof.
  unfold chunk_section.
  destruct (nonempty (section_text_of sec)); cbn [negb]; [| auto].
  match goal with
  | |- context [emit_sub_chunks ?a ?b ?c ?d ?e ?f ?g ?h ?i] =>
      pose proof (emit_sub_chunks_fields a b c d e f g h i) as Hemit;
      destruct (emit_sub_chunks a b c d e f g h i) as [all' id']
  end.
  cbn [all_chunks fst] in *. intros Hin.
  destruct (Hemit c Hin) as [Hold | [H1 [H2 [H3 [H4 [H5 [H6 H7]]]]]]];
    [left; exact Hold |].
  right. split; [unfold cut_from; auto 10 |].
  intros Hh. rewrite Hh in H5. rewrite dict_at_set in H5.
  destruct (push_heading_spec
              (dict_at (heading_stack st) (dp_doc_name page))
              (heading_depth (clause sec)) (heading sec)
              (heading_depth_positive _)) as [above [Hpush Hlen]].
  exists above. split; [| exact Hlen].
  rewrite H5, Hpush. destruct above; reflexivity.
Qed.

Lemma chunk_sections_provenance (page : DocumentPage) (secs : list Sec) :
  forall (st : ChunkerState) (c : Chunk),
    In c (all_chunks
            (fold_left
               (chunk_section keyword_order chunk_size chunk_overlap
                  min_chunk_size page) secs st)) ->
    In c (all_chunks st)
    \/ exists sec,
         In sec secs
         /\ cut_from keyword_order chunk_size chunk_overlap min_chunk_size
              page sec c
         /\ (nonempty (heading sec) = true ->
             path_ends_with_heading sec c).
Proof.
  induction secs as [| sec secs IH]; intros st c Hin; cbn [fold_left] in Hin.
  - left. exact Hin.
  - apply IH in Hin. destruct Hin as [Hin | [s [Hs H]]].
    + apply chunk_section_provenance in Hin.
      destruct Hin as [Hin | H]; [left; exact Hin |].
      right. exists sec. split; [left; reflexivity | exact H].
    + right. exists s. split; [right; exact Hs | exact H].
Qed.

Lemma chunk_pages_provenance (pages : list DocumentPage) :
  forall (st : ChunkerState) (c : Chunk),
    In c (all_chunks
            (fold_left
               (chunk_page keyword_order chunk_size chunk_overlap
                  min_chunk_size) pages st)) ->
    In c (all_chunks st)
    \/ exists p sec,
         In p pages /\ In sec (_split_into_sections (dp_text p))
         /\ cut_from keyword_order chunk_size chunk_overlap min_chunk_size
              p sec c
         /\ (nonempty (heading sec) = true ->
             path_ends_with_heading sec c).
Proof.
  induction pages as [| p pages IH]; intros st c Hin; cbn [fold_left] in Hin.
  - left. exact Hin.
  - apply IH in Hin. destruct Hin as [Hin | [q [s [Hq H]]]].
    + unfold chunk_page in Hin.
      apply chunk_sections_provenance in Hin.
      destruct Hin as [Hin | [s [Hs H]]].
      * left. destruct (dict_get (heading_stack st) (dp_doc_name p));
          exact Hin.
      * right. exists p, s. split; [left; reflexivity |].
        split; [exact Hs | exact H].
    + right. exists q, s. split; [right; exact Hq | exact H].
Qed.

End ChunkerProvenance.

(** X19: every chunk of [chunk_pages] was cut from one section of one of
    the pages: it has the document name and the number of that page, the
    clause number of the section, the label derived from its heading,
    the cross-references found in the whole text of the section, and
    its text is one of the sub-chunks of that text. *)
Theorem X19_chunks_carry_the_metadata_of_their_section :
  forall (keyword_order : list string)
         (chunk_size chunk_overlap min_chunk_size : Z)
         (pages : list DocumentPage) (c : Chunk),
    In c (chunk_pages keyword_order chunk_size chunk_overlap min_chunk_size
            pages) ->
    exists p sec,
      In p pages /\ In sec (_split_into_sections (dp_text p))
      /\ cut_from keyword_order chunk_size chunk_overlap min_chunk_size
           p sec c.
Proof.
  intros ko cs co mn pages c Hin. unfold chunk_pages in Hin.
  apply chunk_pages_provenance in Hin.
  destruct Hin as [[] | [p [sec [Hp [Hs [Hcut _]]]]]].
  exists p, sec. auto.
Qed.

Lemma X19_chunks_carry_the_metadata_of_their_section_witness :
  exists p sec,
    In p [headed_page]
    /\ In sec (_split_into_sections (dp_text p))
    /\ cut_from SECTION_KEYWORDS 500 100 80 p sec
         (hd passage_a (chunk_pages SECTION_KEYWORDS 500 100 80
                          [headed_page])).
Proof.
  apply (X19_chunks_carry_the_metadata_of_their_section
           SECTION_KEYWORDS 500 100 80 [headed_page]).
  vm_compute. left. reflexivity.
Defined.

(** X20: the heading path of a chunk cut from a section with a heading
    ends with that heading, and has at most as many entries as the
    clause number of the heading has components (one when the heading
    has no clause number). *)
Theorem X20_heading_path_ends_with_the_heading :
  forall (keyword_order : list string)
         (chunk_size chunk_overlap min_chunk_size : Z)
         (pages : list DocumentPage) (c : Chunk),
    In c (chunk_pages keyword_order chunk_size chunk_overlap min_chunk_size
            pages) ->
    exists p sec,
      In p pages /\ In sec (_split_into_sections (dp_text p))
      /\ clause_number c = clause sec
      /\ In (text c)
            (_sub_chunk_text (section_text_of sec) chunk_size chunk_overlap
               min_chunk_size)
      /\ (nonempty (heading sec) = true -> path_ends_with_heading sec c).
Proof.
  intros ko cs co mn pages c Hin. unfold chunk_pages in Hin.
  apply chunk_pages_provenance in Hin.
  destruct Hin as [[] | [p [sec [Hp [Hs [Hcut Hpath]]]]]].
  exists p, sec. unfold cut_from in Hcut.
  destruct Hcut as [_ [_ [Hc [_ [_ Ht]]]]]. auto.
Qed.

Lemma X20_heading_path_ends_with_the_heading_witness :
  exists p sec,
    In p [headed_page]
    /\ In sec (_split_into_sections (dp_text p))
    /\ clause_number
         (nth 2 (chunk_pages SECTION_KEYWORDS 500 100 80 [headed_page])
            passage_a) = clause sec
    /\ In (text (nth 2 (chunk_pages SECTION_KEYWORDS 500 100 80
                          [headed_page]) passage_a))
          (_sub_chunk_text (section_text_of sec) 500 100 80)
    /\ (nonempty (heading sec) = true ->
        path_ends_with_heading sec
          (nth 2 (chunk_pages SECTION_KEYWORDS 500 100 80 [headed_page])
             passage_a)).
Proof.
  apply (X20_heading_path_ends_with_the_heading
           SECTION_KEYWORDS 500 100 80 [headed_page]).
  vm_compute. right. right. left. reflexivity.
Defined.

(** Whether a line is a heading does not depend on the white space
    around it; a blank line is none; and the label of a heading is the
    line without that white space, cut after 120 characters, so never
    empty. *)
Lemma _detect_section_label_stripped :
  forall line : string,
    _detect_section_label (strip line) = _detect_section_label line
    /\ (nonempty (strip line) = false -> _detect_section_label line = None)
    /\ forall label : string,
         _detect_section_label line = Some label ->
         label = take 120 (strip line)
         /\ nonempty label = true
         /\ (length label <= 120)%nat.
Proof.
  intros line. split; [| split].
  - unfold _detect_section_label. rewrite strip_strip. reflexivity.
  - intros H. unfold _detect_section_label. rewrite H. reflexivity.
  - intros label H. split; [apply _detect_section_label_some, H |].
    split; [eapply _detect_section_label_nonempty, H |].
    apply _detect_section_label_some in H. destruct H as [-> _].
    apply take_length.
Qed.

Example _detect_section_label_of_a_clause :
  _detect_section_label "       " = None
  /\ _detect_section_label "  4.2. Water damage  "
     = Some "4.2. Water damage".
Proof. split; reflexivity. Qed.

(** ** The answer backends *)

(** X21: [get_llm_backend] returns a backend exactly for the name of
    that backend, and raises [ValueError] for every other name. *)
Theorem X21_backend_factory_goes_by_name :
  forall name : string,
    (forall b, get_llm_backend name = Returned b <-> backend_name b = name)
    /\ ((forall b, backend_name b <> name) ->
        exists msg, get_llm_backend name = Raised (ValueError msg)).
Proof.
  intros name. unfold get_llm_backend.
  destruct (String.eqb name "mock") eqn:E1;
    [apply String.eqb_eq in E1 | apply String.eqb_neq in E1];
    [| destruct (String.eqb name "transformers") eqn:E2;
       [apply String.eqb_eq in E2 | apply String.eqb_neq in E2];
       [| destruct (String.eqb name "openai") eqn:E3;
          [apply String.eqb_eq in E3 | apply String.eqb_neq in E3]]];
    (split;
     [ intros b; split;
       [ intros H; try discriminate H; injection H as <-; subst; reflexivity
       | intros H; destruct b; cbn in H; subst;
         first [reflexivity | discriminate | congruence] ]
     | intros H ]).
  - destruct (H MockLLMBackend). subst. reflexivity.
  - destruct (H TransformersBackend). subst. reflexivity.
  - destruct (H OpenAIBackend). subst. reflexivity.
  - eexists. reflexivity.
Qed.

Lemma X21_backend_factory_goes_by_name_witness :
  exists msg, get_llm_backend "gpt" = Raised (ValueError msg).
Proof.
  apply (proj2 (X21_backend_factory_goes_by_name "gpt")).
  intros b. destruct b; discriminate.
Defined.

Section FollowUpsFurther.

Lemma In_firstn {A : Type} (n : nat) (l : list A) (x : A) :
  In x (firstn n l) -> In x l.
Proof.
  intros H. rewrite <- (firstn_skipn n l). apply in_or_app. left. exact H.
Qed.

Lemma _extract_topic_nonempty (chunk : Chunk) (question_lower : string) :
  nonempty (_extract_topic chunk question_lower) = true ->
  (2 < length (_extract_topic chunk question_lower))%nat
  /\ contains (lower (_extract_topic chunk question_lower))
       question_lower = false.
Proof.
  unfold _extract_topic.
  destruct (negb (is_nil _)); [| discriminate].
  match goal with
  | |- context [negb (contains ?a ?b) && (2 <? ?n)%nat] =>
      destruct (contains a b) eqn:Ec; destruct (2 <? n)%nat eqn:El;
      cbn [negb andb]; try discriminate
  end.
  intros _. split; [apply Nat.ltb_lt, El | exact Ec].
Qed.

Lemma topic_step_origin (question_lower : string) (chunk : Chunk)
    (st : list string * list string) (P : string -> Prop) :
  (forall f, from_template question_lower chunk f -> P f) ->
  Forall P (fst st) ->
  Forall P (fst (topic_step question_lower st chunk)).
Proof.
  intros Hnew Hold. destruct st as [follow_ups seen]. unfold topic_step.
  fold (section_of_chunk chunk).
  destruct (find _ topic_templates) as [[key [before after]] |] eqn:E;
    [| exact Hold].
  destruct (nonempty (_extract_topic chunk question_lower)
            && negb (mem (_extract_topic chunk question_lower) seen))
    eqn:Ht; [| exact Hold].
  apply andb_true_iff in Ht. destruct Ht as [Ht _].
  apply find_some in E. destruct E as [Hin Hkey]. cbn [fst] in *.
  apply andb_true_iff in Hkey. destruct Hkey as [Hkey _].
  apply Forall_app. split; [exact Hold |].
  constructor; [| constructor]. apply Hnew.
  exists key, before, after.
  destruct (_extract_topic_nonempty _ _ Ht) as [H1 H2].
  repeat split; assumption.
Qed.

Lemma topic_loop_origin (question_lower : string)
    (context_chunks : list Scored) (P : string -> Prop) :
  (forall chunk f,
      In chunk (map fst context_chunks) ->
      from_template question_lower chunk f -> P f) ->
  forall st, Forall P (fst st) ->
             Forall P (fst (topic_loop question_lower context_chunks st)).
Proof.
  induction context_chunks as [| [chunk score] rest IH]; intros Hnew st Hold;
    cbn [topic_loop]; [exact Hold |].
  assert (Forall P (fst (topic_step question_lower st chunk))) as Hstep.
  { apply topic_step_origin; [| exact Hold].
    intros f. apply Hnew. left. reflexivity. }
  destruct (3 <=? List.length (fst (topic_step question_lower st chunk)))%nat;
    [exact Hstep |].
  apply IH; [| exact Hstep].
  intros c f Hc. apply Hnew. right. exact Hc.
Qed.

Lemma generic_loop_origin (question_lower : string) (P : string -> Prop)
    (generic : list string) :
  (forall q, In q generic ->
             (List.length (inter (_get_keywords (lower q))
                             (_get_keywords question_lower)) < 2)%nat ->
             P q) ->
  forall follow_ups, Forall P follow_ups ->
    Forall P (fold_left (generic_step question_lower) generic follow_ups).
Proof.
  induction generic as [| q rest IH]; intros Hnew follow_ups Hold;
    cbn [fold_left]; [exact Hold |].
  apply IH; [intros x Hx; apply Hnew; right; exact Hx |].
  unfold generic_step.
  destruct (3 <=? List.length follow_ups)%nat; [exact Hold |].
  destruct (List.length _ <? 2)%nat eqn:E; [| exact Hold].
  apply Forall_app. split; [exact Hold |].
  constructor; [| constructor]. apply Hnew; [left; reflexivity |].
  apply Nat.ltb_lt, E.
Qed.

End FollowUpsFurther.

(** X22: every follow-up question that [_generate_follow_ups] suggests is
    either a topic template filled with the topic of one of the chunks
    (a topic of three characters at least that does not stand in the
    question), or one of the six generic questions that shares less than
    two keywords with the question. *)
Theorem X22_follow_ups_come_from_templates_or_generics :
  forall (context_chunks : list Scored) (question_lower f : string),
    In f (_generate_follow_ups context_chunks question_lower) ->
    eligible_generic question_lower f
    \/ exists chunk,
         In chunk (map fst context_chunks)
         /\ from_template question_lower chunk f.
Proof.
  intros chunks ql f Hin. unfold _generate_follow_ups in Hin.
  pose (P := fun f : string =>
               eligible_generic ql f
               \/ exists chunk,
                    In chunk (map fst chunks) /\ from_template ql chunk f).
  assert (Forall P (fst (topic_loop ql chunks ([], [])))) as Htopic.
  { apply topic_loop_origin; [| constructor].
    intros chunk g Hc Hg. right. exists chunk. auto. }
  destruct (topic_loop ql chunks ([], [])) as [follow_ups seen].
  cbn [fst] in Htopic.
  apply In_firstn in Hin.
  assert (Forall P (fold_left (generic_step ql) generic_follow_ups
                      follow_ups)) as Hall.
  { apply generic_loop_origin; [| exact Htopic].
    intros q Hq Hlen. left. split; assumption. }
  rewrite Forall_forall in Hall. exact (Hall f Hin).
Qed.

Lemma X22_follow_ups_come_from_templates_or_generics_witness :
  eligible_generic "is rust covered" "What is the claims process?"
  \/ exists chunk,
       In chunk (map fst [(passage_a, 9 # 10)])
       /\ from_template "is rust covered" chunk
            "What is the claims process?".
Proof.
  apply (X22_follow_ups_come_from_templates_or_generics
           [(passage_a, 9 # 10)] "is rust covered"
           "What is the claims process?").
  vm_compute. right. left. reflexivity.
Defined.

Section ExtractQuestion.

Lemma clash_prefix (lit b s : string) :
  clash lit b = true -> String.prefix lit (b ++ s) = false.
Proof.
  revert b. induction lit as [| a lit IH]; intros [| c b] H;
    try discriminate H.
  cbn [clash] in H. cbn [append String.prefix].
  destruct (ascii_dec a c) as [-> | Hne]; [| reflexivity].
  rewrite Ascii.eqb_refl in H. apply IH, H.
Qed.

Lemma search_question_skip (pre s : string) :
  clear_of "QUESTION:" pre = true ->
  search_question (pre ++ s) = search_question s.
Proof.
  induction pre as [| c pre IH]; intros H; [reflexivity |].
  cbn [clear_of] in H. apply andb_true_iff in H. destruct H as [Hc Hrest].
  cbn [append]. cbn [search_question].
  change (String c (pre ++ s)) with (String c pre ++ s)%string.
  rewrite (clash_prefix _ _ s Hc). apply IH, Hrest.
Qed.

Lemma contains_tail (n : string) (c : ascii) (s : string) :
  contains n (String c s) = false ->
  String.prefix n (String c s) = false /\ contains n s = false.
Proof. cbn [contains]. intros H. apply orb_false_iff in H. exact H. Qed.

(** A text without [lit], followed by a character that [lit] does not
    have, has no start of a match of [lit]. *)
Lemma clash_before (lit b : string) (c : ascii) (t : string) :
  String.prefix lit b = false -> char_in lit c = false ->
  clash lit (b ++ String c t) = true.
Proof.
  revert b. induction lit as [| a lit IH]; intros b Hp Hc.
  - destruct b; discriminate Hp.
  - unfold char_in in Hc. cbn [list_ascii_of_string existsb] in Hc.
    apply orb_false_iff in Hc. destruct Hc as [Hca Hc].
    destruct b as [| x b]; cbn [append clash].
    + rewrite Ascii.eqb_sym, Hca. reflexivity.
    + cbn [String.prefix] in Hp.
      destruct (Ascii.eqb a x) eqn:E; [| reflexivity].
      apply Ascii.eqb_eq in E. subst x.
      destruct (ascii_dec a a) as [_ | Hne]; [| congruence].
      apply IH; assumption.
Qed.

Lemma clear_of_before (lit ctx : string) (c : ascii) (t : string) :
  contains lit ctx = false -> char_in lit c = false ->
  clear_of lit (String c t) = true ->
  clear_of lit (ctx ++ String c t) = true.
Proof.
  intros Hctx Hc Ht. induction ctx as [| x ctx IH]; [exact Ht |].
  apply contains_tail in Hctx. destruct Hctx as [Hp Hrest].
  cbn [append clear_of]. apply andb_true_iff. split; [| apply IH, Hrest].
  change (String x (ctx ++ String c t)) with (String x ctx ++ String c t)%string.
  apply clash_before; assumption.
Qed.

Lemma drop_span (p : ascii -> bool) (s : string) :
  drop (length (fst (span p s))) s = lstrip_by p s.
Proof.
  induction s as [| c s IH]; [reflexivity |]. cbn [span lstrip_by].
  destruct (p c); [| reflexivity].
  destruct (span p s) as [a b]. cbn [fst length drop] in *. exact IH.
Qed.

Lemma lstrip_by_app (p : ascii -> bool) (a b : string) :
  nonempty (lstrip_by p a) = true ->
  lstrip_by p (a ++ b) = (lstrip_by p a ++ b)%string.
Proof.
  induction a as [| c a IH]; [discriminate |]. cbn [append lstrip_by].
  destruct (p c); [exact IH | reflexivity].
Qed.

Lemma strip_lstrip (s : string) : strip (lstrip_by isspace s) = strip s.
Proof.
  induction s as [| c s IH]; [reflexivity |]. cbn [lstrip_by].
  destruct (isspace c) eqn:E; [| reflexivity].
  rewrite IH. unfold strip. cbn [rstrip_by]. rewrite E.
  destruct (nonempty (rstrip_by isspace s)) eqn:En; cbn [andb negb].
  - cbn [lstrip_by]. rewrite E. reflexivity.
  - destruct (rstrip_by isspace s); [reflexivity | discriminate].
Qed.

Lemma contains_lstrip (n s : string) (p : ascii -> bool) :
  contains n s = false -> contains n (lstrip_by p s) = false.
Proof.
  induction s as [| c s IH]; intros H; [exact H |]. cbn [lstrip_by].
  destruct (p c); [| exact H].
  apply IH. apply contains_tail in H. apply H.
Qed.

(** In a line that has no line feed and no [INSTRUCTIONS:], the lazy
    group runs to the line feed that ends the line. *)
Lemma find_terminator_at_line_end (line t : string) :
  contains nl line = false -> contains "INSTRUCTIONS:" line = false ->
  find_terminator (line ++ String "010"%char t) = Some (length line).
Proof.
  induction line as [| c line IH]; intros Hnl Hins.
  - cbn [append find_terminator]. 
    assert (String.prefix nl (String "010"%char t) = true) as ->.
    { unfold nl. cbn [String.prefix].
      destruct (ascii_dec "010"%char "010"%char); [| congruence].
      destruct t; reflexivity. }
    reflexivity.
  - apply contains_tail in Hnl. destruct Hnl as [Hp1 Hnl].
    apply contains_tail in Hins. destruct Hins as [Hp2 Hins].
    cbn [append]. cbn [find_terminator].
    assert (String.prefix nl (String c (line ++ String "010"%char t)) = false)
      as ->.
    { unfold nl in *. cbn [String.prefix] in *.
      destruct (ascii_dec "010"%char c); [| reflexivity].
      destruct line; discriminate Hp1. }
    change (String c (line ++ String "010"%char t))
      with (String c line ++ String "010"%char t)%string.
    assert (String.prefix "INSTRUCTIONS:"
              (String c line ++ String "010"%char t) = false) as ->.
    { pose proof (clash_prefix "INSTRUCTIONS:"
                    (String c line ++ String "010"%char t) ""
                    (clash_before "INSTRUCTIONS:" (String c line)
                       "010"%char t Hp2 eq_refl)) as H.
      rewrite string_app_nil_r in H. exact H. }
    cbn [orb]. rewrite (IH Hnl Hins). reflexivity.
Qed.

Lemma take_app_exact (a b : string) : take (length a) (a ++ b) = a.
Proof.
  induction a as [| c a IH]; [destruct b; reflexivity |].
  cbn [length append]. rewrite take_S, IH. reflexivity.
Qed.

Lemma search_question_here (question tail : string) :
  nonempty (strip question) = true ->
  contains nl question = false ->
  contains "INSTRUCTIONS:" question = false ->
  search_question
    ("QUESTION: " ++ question ++ String "010"%char tail)
  = Some (lstrip_by isspace question).
Proof.
  intros Hne Hnl Hins.
  assert (nonempty (lstrip_by isspace question) = true) as Hl.
  { rewrite <- strip_lstrip in Hne.
    destruct (lstrip_by isspace question); [discriminate | reflexivity]. }
  cbn [append search_question].
  assert (String.prefix "QUESTION:"
            (String "Q" (String "U" (String "E" (String "S" (String "T"
              (String "I" (String "O" (String "N" (String ":" (String " "
                (question ++ String "010"%char tail))))))))))) = true)
    as -> by reflexivity.
  cbn [drop].
  set (r := String " " (question ++ String "010"%char tail)).
  assert (drop (length (fst (span isspace r))) r
          = (lstrip_by isspace question ++ String "010"%char tail)%string)
    as Hdrop.
  { rewrite drop_span. subst r. cbn [lstrip_by].
    change (isspace " ") with true. cbv iota.
    apply lstrip_by_app, Hl. }
  assert (lazy_group r (length (fst (span isspace r)))
          = Some (lstrip_by isspace question)) as Hgroup.
  { unfold lazy_group. rewrite Hdrop.
    pose proof (contains_lstrip _ _ isspace Hnl) as Hnl'.
    pose proof (contains_lstrip _ _ isspace Hins) as Hins'.
    destruct (lstrip_by isspace question) as [| c q'];
      [discriminate Hl |].
    apply contains_tail in Hnl'. apply contains_tail in Hins'.
    cbn [append].
    rewrite (find_terminator_at_line_end q' tail (proj2 Hnl') (proj2 Hins')).
    change (String c (q' ++ String "010"%char tail))
      with (String c q' ++ String "010"%char tail)%string.
    change (S (length q')) with (length (String c q')).
    rewrite take_app_exact. reflexivity. }
  destruct (length (fst (span isspace r))) as [| k];
    cbn [group_after_spaces]; rewrite Hgroup; reflexivity.
Qed.

End ExtractQuestion.

Lemma build_qa_prompt_parts (question context : string) :
  build_qa_prompt question context
  = (prompt_head
     ++ (context ++ String "010"%char (String "010"%char EmptyString))
     ++ "QUESTION: " ++ question ++ String "010"%char prompt_tail)%string.
Proof.
  unfold build_qa_prompt, prompt_head. rewrite !string_app_assoc.
  reflexivity.
Qed.

(** X23: the mock backend reads back the question that the pipeline put
    in the prompt, without the white space around it, when the question
    is one line that says something and does not hold the word
    [INSTRUCTIONS:], and the context does not hold [QUESTION:]. *)
Theorem X23_question_read_back_from_the_prompt :
  forall question context : string,
    nonempty (strip question) = true ->
    contains nl question = false ->
    contains "INSTRUCTIONS:" question = false ->
    contains "QUESTION:" context = false ->
    _extract_question (build_qa_prompt question context) = strip question.
Proof.
  intros question context Hne Hnl Hins Hctx.
  unfold _extract_question. rewrite build_qa_prompt_parts.
  rewrite search_question_skip by (vm_compute; reflexivity).
  rewrite search_question_skip
    by (apply clear_of_before; [exact Hctx | reflexivity | reflexivity]).
  rewrite (search_question_here question prompt_tail Hne Hnl Hins).
  apply strip_lstrip.
Qed.

Lemma X23_question_read_back_from_the_prompt_witness :
  _extract_question
    (build_qa_prompt "  Is wear and tear covered? "
       "[Source 1: Home.pdf, p.3]")
  = strip "  Is wear and tear covered? ".
Proof.
  apply (X23_question_read_back_from_the_prompt
           "  Is wear and tear covered? " "[Source 1: Home.pdf, p.3]");
    reflexivity.
Defined.

Lemma lstrip_by_app_blank (p : ascii -> bool) (a b : string) :
  lstrip_by p a = EmptyString -> lstrip_by p (a ++ b) = lstrip_by p b.
Proof.
  induction a as [| c a IH]; intros H; [reflexivity |].
  cbn [append lstrip_by] in *. destruct (p c); [apply IH, H | discriminate].
Qed.

Lemma blank_lstrip (s : string) :
  nonempty (strip s) = false -> lstrip_by isspace s = EmptyString.
Proof.
  intros H. rewrite <- strip_lstrip in H.
  pose proof (starts_with_space_lstrip s) as Hs.
  destruct (lstrip_by isspace s) as [| c r]; [reflexivity |].
  cbn [starts_with_space] in Hs. unfold strip in H. cbn [rstrip_by] in H.
  rewrite Hs in H. cbn [andb lstrip_by] in H. rewrite Hs in H.
  discriminate H.
Qed.

(** X24: a question that is empty or blank is not read back as such:
    the white space after [QUESTION:] runs on to the next section of the
    prompt, and the mock backend takes the word [INSTRUCTIONS:] for the
    question. *)
Theorem X24_blank_question_is_read_back_as_instructions :
  forall question context : string,
    nonempty (strip question) = false ->
    contains "QUESTION:" context = false ->
    _extract_question (build_qa_prompt question context) = "INSTRUCTIONS:".
Proof.
  intros question context Hblank Hctx.
  unfold _extract_question. rewrite build_qa_prompt_parts.
  rewrite search_question_skip by (vm_compute; reflexivity).
  rewrite search_question_skip
    by (apply clear_of_before; [exact Hctx | reflexivity | reflexivity]).
  cbn [append search_question].
  assert (String.prefix "QUESTION:"
            (String "Q" (String "U" (String "E" (String "S" (String "T"
              (String "I" (String "O" (String "N" (String ":" (String " "
                (question ++ String "010"%char prompt_tail))))))))))) = true)
    as -> by reflexivity.
  cbn [drop].
  set (r := String " " (question ++ String "010"%char prompt_tail)).
  assert (drop (length (fst (span isspace r))) r
          = lstrip_by isspace (String "010"%char prompt_tail)) as Hdrop.
  { rewrite drop_span. subst r.
    rewrite <- (lstrip_by_app_blank isspace question
                  (String "010"%char prompt_tail))
      by apply blank_lstrip, Hblank.
    reflexivity. }
  assert (lazy_group r (length (fst (span isspace r)))
          = Some "INSTRUCTIONS:") as Hgroup.
  { unfold lazy_group. rewrite Hdrop. vm_compute. reflexivity. }
  destruct (length (fst (span isspace r))) as [| k];
    cbn [group_after_spaces]; rewrite Hgroup; reflexivity.
Qed.

Lemma X24_blank_question_is_read_back_as_instructions_witness :
  _extract_question (build_qa_prompt "   " "[Source 1: Home.pdf, p.3]")
  = "INSTRUCTIONS:".
Proof.
  apply (X24_blank_question_is_read_back_as_instructions
           "   " "[Source 1: Home.pdf, p.3]"); reflexivity.
Defined.

(** ** The pipeline *)

Section PipelineFurther.

Variable encode : list string -> Z -> list Vec.
Variable faiss_search : FaissIndex -> Vec -> Z -> list (Q * Z).
Variables db_dir docs_dir : string.
Variable llm_generate :
  LLMBackend -> string -> list Scored -> outcome Generated.
Variable round4 : Q -> Q.

(** What [load] leaves as it was, and what it observes. *)
Lemma load_effects (st : VectorStore) (fs : Files) (loaded : Effect bool) :
  load st fs = Some loaded ->
  files_after loaded = fs
  /\ existsb is_retrieval (trace loaded) = false
  /\ (value loaded = false -> _chunks (store_after loaded) = _chunks st).
Proof.
  intros H. unfold load, load_failed in H.
  destruct (index_faiss fs) as [[index |] |];
    destruct (chunks_json fs) as [[meta |] |];
    try (injection H as <-; cbn; repeat split; fail).
  destruct (iterate meta) as [items | e];
    try (injection H as <-; cbn; repeat split; fail).
  destruct (raw_chunks_from 0 items) as [raws | e];
    try (injection H as <-; cbn; repeat split; fail).
  destruct (typed_chunks raws) as [chunks |]; [| discriminate H].
  injection H as <-. cbn. repeat split. discriminate.
Qed.

Lemma _detect_conversational_canned (p : PolicyQAPipeline)
    (question : string) (payload : Payload) :
  _detect_conversational p question = Some payload ->
  exists answer follow_ups, payload = canned question answer follow_ups.
Proof.
  unfold _detect_conversational.
  destruct (is_greeting _); [intros [= <-]; eauto |].
  destruct (mem _ _IDENTITY_PATTERNS); [intros [= <-]; eauto |].
  destruct (mem _ _THANKS_PATTERNS); [intros [= <-]; eauto |].
  destruct (mem _ _HELP_PATTERNS); [intros [= <-]; eauto | discriminate].
Qed.

Lemma format_citations_empty (results : list Scored) :
  format_citations results = EmptyString <-> results = [].
Proof.
  split; [| intros ->; reflexivity].
  destruct results; [reflexivity | discriminate].
Qed.

(** What every payload of [ask] has. *)
Lemma ask_payload (p : PolicyQAPipeline) (fs : Files) (q : string)
    (payload : Payload) :
  fst (ask encode faiss_search llm_generate round4 p fs q)
  = Returned payload ->
  _is_initialized p = true
  /\ question payload = q
  /\ (citations payload = EmptyString <-> sources payload = [])
  /\ Forall (fun s => (length (sd_snippet s) <= 200)%nat) (sources payload).
Proof.
  unfold ask. destruct (_is_initialized p); cbn [negb]; [| discriminate].
  destruct (_detect_conversational p q) as [conv |] eqn:E.
  - cbn [fst]. intros [= <-].
    destruct (_detect_conversational_canned _ _ _ E) as [a [f ->]].
    cbn. repeat split; constructor.
  - destruct (_retriever p) as [r |]; [| discriminate].
    destruct (_vector_store p) as [vs |]; [| discriminate].
    destruct (_llm p) as [llm |]; [| discriminate].
    destruct (retrieve encode faiss_search r vs fs q) as [results tr].
    destruct (llm_generate llm _ results) as [g | e]; [| discriminate].
    cbn [fst]. intros [= <-]. cbn.
    split; [reflexivity |]. split; [reflexivity |]. split.
    + rewrite format_citations_empty. split; [intros ->; reflexivity |].
      destruct results; [reflexivity | discriminate].
    + apply Forall_forall. intros s Hs. apply in_map_iff in Hs.
      destruct Hs as [[c x] [<- _]]. cbn. apply take_length.
Qed.

Lemma finish_initialize_spec (p : PolicyQAPipeline) (vs : VectorStore)
    (fs : Files) (tr : list event) (dc cc : nat) :
  let r := finish_initialize p vs fs tr dc cc in
  disk_after r = fs /\ observed r = tr
  /\ _vector_store (pipeline_after r) = Some vs
  /\ _doc_count (pipeline_after r) = dc
  /\ _chunk_count (pipeline_after r) = cc
  /\ _retriever (pipeline_after r)
     = Some {| _top_k := TOP_K; _threshold := SIMILARITY_THRESHOLD |}
  /\ match get_llm_backend (_llm_backend_name p) with
     | Returned b =>
         raised r = None /\ _llm (pipeline_after r) = Some b
         /\ _is_initialized (pipeline_after r) = true
     | Raised e =>
         raised r = Some e /\ _llm (pipeline_after r) = _llm p
         /\ _is_initialized (pipeline_after r) = _is_initialized p
     end.
Proof.
  unfold finish_initialize.
  destruct (get_llm_backend (_llm_backend_name p)); cbn; repeat split.
Qed.

Lemma get_llm_backend_name (name : string) (b : LLMBackend) :
  get_llm_backend name = Returned b -> backend_name b = name.
Proof.
  unfold get_llm_backend.
  destruct (String.eqb name "mock") eqn:E1;
    [apply String.eqb_eq in E1; intros [= <-]; subst; reflexivity |].
  destruct (String.eqb name "transformers") eqn:E2;
    [apply String.eqb_eq in E2; intros [= <-]; subst; reflexivity |].
  destruct (String.eqb name "openai") eqn:E3;
    [apply String.eqb_eq in E3; intros [= <-]; subst; reflexivity |].
  discriminate.
Qed.

(** The chunks in the store after [build_index] and [save]. *)
Lemma rebuilt_chunks (vs : VectorStore) (fs : Files) (chunks : list Chunk)
    (batch_size : Z) :
  _chunks vs = [] ->
  let built := build_index encode vs fs chunks batch_size in
  _chunks (store_after (save db_dir (store_after built) (files_after built)))
  = chunks.
Proof.
  intros Hvs. cbn zeta. unfold build_index.
  destruct chunks as [| c l]; cbn [is_nil store_after files_after];
    unfold save.
  - destruct (_index vs); cbn [store_after]; exact Hvs.
  - reflexivity.
Qed.

(** The two ends of [initialize]: through [finish_initialize], after a
    rebuild or not. *)
Ltac settle_finish :=
  let Hv := fresh "Hv" in
  let Hcc := fresh "Hcc" in
  let Hret := fresh "Hret" in
  let Hllm := fresh "Hllm" in
  match goal with
  | |- context [finish_initialize ?p ?v ?f ?t ?dc ?cc] =>
      destruct (finish_initialize_spec p v f t dc cc)
        as [_ [_ [Hv [_ [Hcc [Hret Hllm]]]]]];
      exists v;
      split; [exact Hv |];
      split; [rewrite Hcc | split; [exact Hret | exact Hllm]]
  end.

Ltac settle_rebuild documents Hvs :=
  destruct documents as [| page pages]; cbn [is_nil];
  [ left; cbn; auto
  | right; settle_finish;
    match goal with
    | |- context [save ?db (store_after (build_index ?e ?vs ?fs ?c ?b)) _] =>
        rewrite (rebuilt_chunks vs fs c b Hvs)
    end; reflexivity ].

(** The outcomes of [initialize], by the way it took. *)
Lemma initialize_outcomes (keyword_order : list string)
    (p : PolicyQAPipeline) (fs : Files) (force_rebuild : bool)
    (documents : list DocumentPage) (r : Initialized) :
  initialize encode db_dir docs_dir keyword_order p fs force_rebuild
    documents = Some r ->
  (raised r = Some (RuntimeError ("No documents found in " ++ docs_dir))
   /\ documents = []
   /\ _is_initialized (pipeline_after r) = _is_initialized p
   /\ disk_after r = fs)
  \/ (exists vs,
        _vector_store (pipeline_after r) = Some vs
        /\ _chunk_count (pipeline_after r) = List.length (_chunks vs)
        /\ _retriever (pipeline_after r)
           = Some {| _top_k := TOP_K; _threshold := SIMILARITY_THRESHOLD |}
        /\ match get_llm_backend (_llm_backend_name p) with
           | Returned b =>
               raised r = None /\ _llm (pipeline_after r) = Some b
               /\ _is_initialized (pipeline_after r) = true
           | Raised e =>
               raised r = Some e /\ _llm (pipeline_after r) = _llm p
               /\ _is_initialized (pipeline_after r) = _is_initialized p
           end).
Proof.
  unfold initialize. cbv zeta.
  destruct force_rebuild;
    [ assert (_chunks init = []) as Hvs by reflexivity
    | destruct (load init fs) as [loaded |] eqn:El; [| discriminate];
      destruct (load_effects _ _ _ El) as [_ [_ Hfail]];
      destruct (value loaded) eqn:Ev;
      [| assert (_chunks (store_after loaded) = [])
           as Hvs by (apply Hfail; reflexivity) ] ];
    intros [= <-].
  - settle_rebuild documents Hvs.
  - right. settle_finish. reflexivity.
  - settle_rebuild documents Hvs.
Qed.

End PipelineFurther.

(** X25: every payload that [ask] returns comes from an initialized
    pipeline and repeats the question as it was asked; its citation line
    is empty exactly when it lists no source; and no snippet of a source
    is longer than 200 characters. *)
Theorem X25_ask_payload_is_consistent :
  forall (encode : list string -> Z -> list Vec)
         (faiss_search : FaissIndex -> Vec -> Z -> list (Q * Z))
         (llm_generate :
            LLMBackend -> string -> list Scored -> outcome Generated)
         (round4 : Q -> Q)
         (p : PolicyQAPipeline) (fs : Files) (q : string)
         (payload : Payload),
    fst (ask encode faiss_search llm_generate round4 p fs q)
    = Returned payload ->
    _is_initialized p = true
    /\ question payload = q
    /\ (citations payload = EmptyString <-> sources payload = [])
    /\ Forall (fun s => (length (sd_snippet s) <= 200)%nat)
              (sources payload).
Proof.
  intros encode fsearch llm round4 p fs q payload H.
  eapply ask_payload. exact H.
Qed.

Lemma X25_ask_payload_is_consistent_witness :
  let payload :=
    answered
      (fst (ask unit_encode ranked_search
              (fun _ _ _ => Returned {| g_answer := ""; g_follow_ups := [] |})
              (fun q => q) ready_pipeline no_files
              "Is wear and tear covered?")) in
  _is_initialized ready_pipeline = true
  /\ question payload = "Is wear and tear covered?"
  /\ (citations payload = EmptyString <-> sources payload = [])
  /\ Forall (fun s => (length (sd_snippet s) <= 200)%nat) (sources payload).
Proof.
  apply (X25_ask_payload_is_consistent unit_encode ranked_search
           (fun _ _ _ => Returned {| g_answer := ""; g_follow_ups := [] |})
           (fun q => q) ready_pipeline no_files "Is wear and tear covered?").
  vm_compute. reflexivity.
Defined.

(** X26: when [initialize] returns without raising, the pipeline is
    initialized, has the retriever of the configuration, the backend
    whose name it was given, and a chunk count that is the number of
    chunks in its store.  When it raises, the initialized flag is as it
    was, and the cause is that no document was found or that the name
    of the backend is unknown. *)
Theorem X26_initialize_outcomes :
  forall (encode : list string -> Z -> list Vec) (db_dir docs_dir : string)
         (keyword_order : list string) (p : PolicyQAPipeline) (fs : Files)
         (force_rebuild : bool) (documents : list DocumentPage)
         (r : Initialized),
    initialize encode db_dir docs_dir keyword_order p fs force_rebuild
      documents = Some r ->
    (raised r = None ->
     _is_initialized (pipeline_after r) = true
     /\ _retriever (pipeline_after r)
        = Some {| _top_k := TOP_K; _threshold := SIMILARITY_THRESHOLD |}
     /\ (exists b, _llm (pipeline_after r) = Some b
                   /\ backend_name b = _llm_backend_name p)
     /\ (exists vs, _vector_store (pipeline_after r) = Some vs
                    /\ _chunk_count (pipeline_after r)
                       = List.length (_chunks vs)))
    /\ (forall e, raised r = Some e ->
          _is_initialized (pipeline_after r) = _is_initialized p
          /\ ((e = RuntimeError ("No documents found in " ++ docs_dir)
               /\ documents = [])
              \/ get_llm_backend (_llm_backend_name p) = Raised e)).
Proof.
  intros encode db docs ko p fs force documents r H.
  apply initialize_outcomes in H.
  destruct H as [[Hr [Hd [Hi _]]] | [vs [Hv [Hcc [Hret Hllm]]]]].
  - split; [rewrite Hr; discriminate |].
    intros e He. rewrite Hr in He. injection He as <-. auto.
  - destruct (get_llm_backend (_llm_backend_name p)) as [b | e0] eqn:Eb;
      destruct Hllm as [Hraised [Hl Hi]].
    + split.
      * intros _. split; [exact Hi |]. split; [exact Hret |].
        split; [exists b; split;
                [exact Hl | apply get_llm_backend_name, Eb] |].
        exists vs. auto.
      * intros e He. rewrite Hraised in He. discriminate He.
    + split; [rewrite Hraised; discriminate |].
      intros e He. rewrite Hraised in He. injection He as <-. auto.
Qed.

Lemma X26_initialize_outcomes_witness :
  let r :=
    initialized_as
      (initialize unit_encode "vector_db" "data" SECTION_KEYWORDS
         (new_pipeline "") no_files true [headed_page; remark_page])
      (new_pipeline "") no_files in
  _is_initialized (pipeline_after r) = true
  /\ _retriever (pipeline_after r)
     = Some {| _top_k := TOP_K; _threshold := SIMILARITY_THRESHOLD |}
  /\ (exists b, _llm (pipeline_after r) = Some b
                /\ backend_name b = _llm_backend_name (new_pipeline ""))
  /\ (exists vs, _vector_store (pipeline_after r) = Some vs
                 /\ _chunk_count (pipeline_after r)
                    = List.length (_chunks vs)).
Proof.
  apply (proj1 (X26_initialize_outcomes unit_encode "vector_db" "data"
                  SECTION_KEYWORDS (new_pipeline "") no_files true
                  [headed_page; remark_page] _ eq_refl)).
  vm_compute. reflexivity.
Defined.

(** X27: when the cached index loads and no rebuild is forced,
    [initialize] does not depend on the documents: it writes no file,
    embeds nothing, and counts the documents and the chunks of the
    cache. *)
Theorem X27_initialize_from_the_cache :
  forall (encode : list string -> Z -> list Vec) (db_dir docs_dir : string)
         (keyword_order : list string) (p : PolicyQAPipeline) (fs : Files)
         (documents : list DocumentPage) (loaded : Effect bool),
    load init fs = Some loaded ->
    value loaded = true ->
    exists r,
      initialize encode db_dir docs_dir keyword_order p fs false documents
      = Some r
      /\ initialize encode db_dir docs_dir keyword_order p fs false []
         = Some r
      /\ disk_after r = fs
      /\ existsb is_retrieval (observed r) = false
      /\ _vector_store (pipeline_after r) = Some (store_after loaded)
      /\ _doc_count (pipeline_after r)
         = List.length (doc_names (store_after loaded))
      /\ _chunk_count (pipeline_after r)
         = List.length (_chunks (store_after loaded)).
Proof.
  intros encode db docs ko p fs documents loaded Hload Hvalue.
  unfold initialize. rewrite Hload, Hvalue.
  eexists. split; [reflexivity |]. split; [reflexivity |].
  destruct (load_effects _ _ _ Hload) as [Hfiles [Htrace _]].
  match goal with
  | |- context [finish_initialize ?p ?v ?f ?t ?dc ?cc] =>
      destruct (finish_initialize_spec p v f t dc cc)
        as [Hd [Ho [Hv [Hdc [Hcc _]]]]]
  end.
  rewrite Hd, Ho, Hv, Hdc, Hcc. auto.
Qed.

Lemma X27_initialize_from_the_cache_witness :
  exists r,
    initialize unit_encode "vector_db" "data" SECTION_KEYWORDS
      (new_pipeline "") cached_files false [headed_page]
    = Some r
    /\ initialize unit_encode "vector_db" "data" SECTION_KEYWORDS
         (new_pipeline "") cached_files false []
       = Some r
    /\ disk_after r = cached_files
    /\ existsb is_retrieval (observed r) = false
    /\ _vector_store (pipeline_after r)
       = Some (store_after
                 (loaded_effect (load init cached_files)))
    /\ _doc_count (pipeline_after r)
       = List.length
           (doc_names
              (store_after (loaded_effect (load init cached_files))))
    /\ _chunk_count (pipeline_after r)
       = List.length
           (_chunks
              (store_after (loaded_effect (load init cached_files)))).
Proof.
  apply (X27_initialize_from_the_cache unit_encode "vector_db" "data"
           SECTION_KEYWORDS (new_pipeline "") cached_files [headed_page]
           (loaded_effect (load init cached_files)));
    vm_compute; reflexivity.
Defined.

(** X28: with the name of a backend that does not exist, a forced
    [initialize] raises the [ValueError] of [get_llm_backend] only after
    the index was built and written: the pipeline is not initialized,
    and the two files of the index are on the disk. *)
Theorem X28_unknown_backend_fails_after_the_index_is_written :
  forall (encode : list string -> Z -> list Vec) (db_dir docs_dir : string)
         (keyword_order : list string) (p : PolicyQAPipeline) (fs : Files)
         (documents : list DocumentPage) (e : exn),
    get_llm_backend (_llm_backend_name p) = Raised e ->
    chunk_pages keyword_order CHUNK_SIZE CHUNK_OVERLAP MIN_CHUNK_SIZE
      documents <> [] ->
    exists r,
      initialize encode db_dir docs_dir keyword_order p fs true documents
      = Some r
      /\ raised r = Some e
      /\ _is_initialized (pipeline_after r) = _is_initialized p
      /\ index_faiss (disk_after r) <> None
      /\ chunks_json (disk_after r)
         = Some (Valid
                   (JArr (map chunk_meta
                            (chunk_pages keyword_order CHUNK_SIZE
                               CHUNK_OVERLAP MIN_CHUNK_SIZE documents)))).
Proof.
  intros encode db docs ko p fs documents e Hb Hchunks.
  unfold initialize. eexists. split; [reflexivity |].
  destruct documents as [| page pages]; [exfalso; apply Hchunks; reflexivity |].
  cbn [is_nil].
  match goal with
  | |- context [finish_initialize ?p ?v ?f ?t ?dc ?cc] =>
      destruct (finish_initialize_spec p v f t dc cc)
        as [Hd [_ [_ [_ [_ [_ Hllm]]]]]]
  end.
  rewrite Hb in Hllm. destruct Hllm as [Hr [_ Hi]].
  rewrite Hd. split; [exact Hr |]. split; [exact Hi |].
  unfold build_index.
  destruct (chunk_pages ko CHUNK_SIZE CHUNK_OVERLAP MIN_CHUNK_SIZE
              (page :: pages)) as [| c l]; [congruence |].
  cbn. split; [discriminate | reflexivity].
Qed.

Lemma X28_unknown_backend_fails_after_the_index_is_written_witness :
  exists r,
    initialize unit_encode "vector_db" "data" SECTION_KEYWORDS
      (new_pipeline "gpt") no_files true [headed_page]
    = Some r
    /\ raised r
       = Some (ValueError
                 "Unknown LLM backend: gpt. Available: ['mock', 'transformers', 'openai']")
    /\ _is_initialized (pipeline_after r)
       = _is_initialized (new_pipeline "gpt")
    /\ index_faiss (disk_after r) <> None
    /\ chunks_json (disk_after r)
       = Some (Valid
                 (JArr (map chunk_meta
                          (chunk_pages SECTION_KEYWORDS CHUNK_SIZE
                             CHUNK_OVERLAP MIN_CHUNK_SIZE [headed_page])))).
Proof.
  apply (X28_unknown_backend_fails_after_the_index_is_written
           unit_encode "vector_db" "data" SECTION_KEYWORDS
           (new_pipeline "gpt") no_files [headed_page]).
  - reflexivity.
  - vm_compute. discriminate.
Defined.

(** ** The embedding backend *)

Section EncodeFurther.

Variable model_encode : list string -> list Vec.

(** The loop of [encode] cuts the texts that are left into batches, none
    empty and none above the batch size, and has the model encode each. *)
Lemma encode_loop_batches (texts : list string) (batch_size : nat) :
  (0 < batch_size)%nat ->
  forall (rounds i : nat),
    (List.length texts <= i + rounds)%nat ->
    exists batches : list (list string),
      fst (Embeddings.encode_loop model_encode rounds texts i batch_size
             (List.length texts))
      = map model_encode batches
      /\ List.concat batches = skipn i texts
      /\ Forall (fun batch => batch <> []
                              /\ (List.length batch <= batch_size)%nat)
                batches.
Proof.
  intros Hbs. induction rounds as [| rounds IH]; intros i Hlen.
  - exists []. cbn. rewrite skipn_all2 by lia. auto.
  - cbn [Embeddings.encode_loop].
    destruct (i <? List.length texts)%nat eqn:Ei.
    + apply Nat.ltb_lt in Ei.
      destruct (IH (i + batch_size)%nat ltac:(lia)) as [bs [H1 [H2 H3]]].
      destruct (Embeddings.encode_loop model_encode rounds texts (i + batch_size)
                  batch_size (List.length texts)) as [all printed].
      cbn [fst] in *. exists (Embeddings.slice texts i batch_size :: bs).
      cbn [map List.concat]. rewrite H1, H2. unfold Embeddings.slice.
      split; [reflexivity |]. split.
      * rewrite Nat.add_comm, <- skipn_skipn. apply firstn_skipn.
      * constructor; [| exact H3]. split.
        -- intros Hnil. apply (f_equal (@List.length string)) in Hnil.
           rewrite length_firstn, length_skipn in Hnil. simpl in Hnil. lia.
        -- rewrite length_firstn. lia.
    + apply Nat.ltb_ge in Ei. exists []. cbn.
      rewrite skipn_all2 by lia. auto.
Qed.

End EncodeFurther.

(** X29: for a batch size above zero and texts that are not empty,
    [encode] cuts the texts into batches that together are the texts in
    their order, none empty and none above the batch size, and returns
    the rows of the batches one after the other; so a model that encodes
    text by text gives the same rows whatever the batch size.  Without a
    text, or with a batch size of zero or below, it raises
    [ValueError]. *)
Theorem X29_encode_batches_lose_no_text :
  forall (model_encode : list string -> list Vec)
         (b : Embeddings.SentenceTransformerBackend)
         (texts : list string) (batch_size : Z),
    (texts <> [] -> (0 < batch_size)%Z ->
     (exists batches : list (list string),
        snd (fst (Embeddings.encode model_encode b texts batch_size))
        = Returned (List.concat (map model_encode batches))
        /\ List.concat batches = texts
        /\ Forall (fun batch =>
                     batch <> []
                     /\ (Z.of_nat (List.length batch) <= batch_size)%Z)
                  batches)
     /\ forall embed : string -> Vec,
          (forall l, model_encode l = map embed l) ->
          snd (fst (Embeddings.encode model_encode b texts batch_size))
          = Returned (map embed texts))
    /\ (texts = [] \/ (batch_size <= 0)%Z ->
        exists msg,
          snd (fst (Embeddings.encode model_encode b texts batch_size))
          = Raised (ValueError msg)).
Proof.
  intros model_encode b texts batch_size.
  unfold Embeddings.encode.
  destruct (Embeddings._load_model b) as [b' loading].
  split.
  - intros Htexts Hbs.
    assert ((batch_size =? 0)%Z = false) as -> by lia.
    assert ((batch_size <? 0)%Z = false) as -> by lia.
    destruct (encode_loop_batches model_encode texts (Z.to_nat batch_size)
                ltac:(lia) (List.length texts) 0 ltac:(lia))
      as [batches [H1 [H2 H3]]].
    destruct (Embeddings.encode_loop model_encode (List.length texts) texts
                0 (Z.to_nat batch_size) (List.length texts))
      as [all printed].
    cbn [fst] in H1. cbn [skipn] in H2. subst all.
    assert (batches <> []) as Hne
      by (intros ->; apply Htexts; symmetry; exact H2).
    destruct batches as [| batch rest]; [congruence |].
    cbn [map is_nil fst snd].
    assert (exists batches0 : list (list string),
               Returned (List.concat (model_encode batch
                                        :: map model_encode rest))
               = Returned (List.concat (map model_encode batches0))
               /\ List.concat batches0 = texts
               /\ Forall (fun batch0 =>
                            batch0 <> []
                            /\ (Z.of_nat (List.length batch0)
                                <= batch_size)%Z) batches0) as Hb.
    { exists (batch :: rest). split; [reflexivity |].
      split; [exact H2 |]. eapply Forall_impl; [| exact H3].
      intros a [Ha Hl]. split; [exact Ha | lia]. }
    split; [exact Hb |].
    intros embed Hembed. f_equal.
    change (model_encode batch :: map model_encode rest)
      with (map model_encode (batch :: rest)).
    rewrite (map_ext _ _ Hembed), <- concat_map, H2. reflexivity.
  - intros Hbad.
    destruct (batch_size =? 0)%Z eqn:E0; [eexists; reflexivity |].
    destruct (batch_size <? 0)%Z eqn:E1; [eexists; reflexivity |].
    destruct Hbad as [-> | Hle]; [eexists; reflexivity | lia].
Qed.

Lemma X29_encode_batches_lose_no_text_witness :
  snd (fst (Embeddings.encode (map (fun t => [Qmake (Z.of_nat (length t)) 1]))
              {| Embeddings._model_name := "all-MiniLM-L6-v2";
                 Embeddings._model := false |}
              ["a"; "bb"; "ccc"] 2))
  = Returned (map (fun t => [Qmake (Z.of_nat (length t)) 1])
                ["a"; "bb"; "ccc"]).
Proof.
  apply (proj2 (proj1 (X29_encode_batches_lose_no_text
                         (map (fun t => [Qmake (Z.of_nat (length t)) 1]))
                         {| Embeddings._model_name := "all-MiniLM-L6-v2";
                            Embeddings._model := false |}
                         ["a"; "bb"; "ccc"] 2)
                  ltac:(discriminate) ltac:(lia))).
  reflexivity.
Defined.

(** ** The endpoint of the server *)

(** X30: the endpoint [/api/ask] answers 400 without consulting the
    pipeline, or it consults it once, with the question of the request
    stripped and not empty: it then answers 200 with a payload that
    repeats that question, which only an initialized pipeline gives, or
    500 with the exception that [ask] raised.  An exception leaves the
    endpoint only when the request has no text under [question]. *)
Theorem X30_api_ask_answers_the_stripped_question :
  forall (encode : list string -> Z -> list Vec)
         (faiss_search : FaissIndex -> Vec -> Z -> list (Q * Z))
         (llm_generate :
            LLMBackend -> string -> list Scored -> outcome Generated)
         (round4 : Q -> Q)
         (p : PolicyQAPipeline) (fs : Files) (data : json),
    let pipeline_ask := ask encode faiss_search llm_generate round4 p fs in
    match Server.api_ask pipeline_ask data with
    | (Returned r, observed) =>
        (Server.status r = 400%Z /\ observed = []
         /\ exists msg, Server.body r = Server.ErrorBody msg)
        \/ exists s,
             subscript data "question" = Returned (JStr s)
             /\ nonempty (strip s) = true
             /\ observed = snd (pipeline_ask (strip s))
             /\ ((Server.status r = 200%Z
                  /\ _is_initialized p = true
                  /\ exists payload,
                       Server.body r = Server.PayloadBody payload
                       /\ fst (pipeline_ask (strip s)) = Returned payload
                       /\ question payload = strip s)
                 \/ (Server.status r = 500%Z
                     /\ exists e,
                          Server.body r
                          = Server.ExnBody "Pipeline error: " e
                          /\ fst (pipeline_ask (strip s)) = Raised e))
    | (Raised e, observed) =>
        observed = []
        /\ forall s, subscript data "question" <> Returned (JStr s)
    end.
Proof.
  intros encode fsearch llm round4 p fs data pipeline_ask.
  unfold Server.api_ask.
  destruct (Server.truthy data); cbn [negb];
    [| left; cbn; eauto].
  destruct (Server.is_in "question" data) as [[|] | e] eqn:Ein;
    [| left; cbn; eauto |].
  - destruct (subscript data "question") as [v | e] eqn:Es;
      [| split; [reflexivity | discriminate]].
    destruct v as [| b | n | x | s | items | members];
      try (split; [reflexivity | discriminate]).
    destruct (nonempty (strip s)) eqn:En; cbn [negb];
      [| left; cbn; eauto].
    destruct (pipeline_ask (strip s)) as [[payload | e] observed] eqn:Ea.
    + right. exists s. cbn [Server.status Server.body].
      split; [reflexivity |]. split; [exact En |].
      split; [rewrite Ea; reflexivity |]. left.
      assert (fst (ask encode fsearch llm round4 p fs (strip s))
              = Returned payload) as Hp
        by (fold pipeline_ask; rewrite Ea; reflexivity).
      pose proof Hp as Hp'.
      apply ask_payload in Hp'. destruct Hp' as [Hi [Hq _]].
      split; [reflexivity |]. split; [exact Hi |].
      exists payload. auto.
    + right. exists s. cbn [Server.status Server.body].
      split; [reflexivity |]. split; [exact En |].
      split; [rewrite Ea; reflexivity |]. right.
      split; [reflexivity |]. exists e.
      split; [reflexivity | rewrite Ea; reflexivity].
  - split; [reflexivity |]. intros s Hs.
    destruct data; cbn in Ein, Hs; discriminate.
Qed.
